(** * ff14_sub: the submarine reminder bot ([main.py])

    A shallow embedding of the bot's core: the text helpers
    ([normalize_fc], [normalize_boat], [parse_delta]), the [Task] record,
    the [TaskStore] with its JSON snapshot, the scheduler loop body of
    [schedule_runner] and the [cancel], [defer] and [edit] commands.

    Conventions.
    - A Python [str] is a [string]: the UTF-8 bytes of the text.  The
      methods [strip], [lower], [isdigit] and [int] are modelled on ASCII:
      they are those of Python on the texts made of ASCII characters and
      of the ideograph U+5206, and the properties of [parse_delta] that
      depend on what these methods do elsewhere are stated for the texts
      that NFKC brings into this form.  [int] refuses a run of more than
      4300 digits, the limit of CPython.
    - [unicodedata.normalize("NFKC", _)] belongs to the Python library; it
      is a variable [nfkc] of the development.  So are the parsing of a
      date by [datetime.strptime] and the conversion of an instant to a
      float by [datetime.timestamp], which only [edit_cmd] uses, and the
      text that [jstfmt] makes of an instant for the replies of [defer]
      and [edit_cmd], which raises for an instant that [datetime] does not
      hold.
    - Python [int]s are [Z]; Python [float]s are binary64 [float]s.
    - Exceptions are values of [exn]; a computation that can raise returns
      a [result], and a computation on the store returns it together with
      the world it leaves behind.
    - The world holds the dictionary of the store, the JSON document in
      the data file and the effects on the outside so far: the writes of
      the file and the messages sent.  A Python [dict] is an association
      list in insertion order.
    - One turn of the loop of [schedule_runner] and one command run from
      start to end; what another coroutine does while [channel.send] is
      awaited is outside the model. *)

From Stdlib Require Import ZArith List String Ascii Bool Lia.
From Stdlib Require Import Floats Uint63.
Import ListNotations.

Open Scope string_scope.
Open Scope Z_scope.

(** ** Exceptions and results *)

(** The messages of the [ValueError]s: the four that [parse_delta]
    raises itself, the one of [int] for a run of digits beyond the limit
    of the interpreter, and the one of [datetime.fromtimestamp] for an
    instant outside the years 1 to 9999. *)
Inductive value_error : Type :=
  | DigitsBeforeH      (* "h の前に数字が必要です" *)
  | DigitsBeforeMin    (* "min の前に数字が必要です" *)
  | DigitsBeforeM      (* "m の前に数字が必要です" *)
  | BadDuration        (* "時間指定が不正です（例: 18h10min / 90min / 30分）" *)
  | IntDigitsLimit     (* "Exceeds the limit (4300 digits) for integer string conversion" *)
  | YearOutOfRange.    (* "year 11150 is out of range" *)

Inductive exn : Type :=
  | ValueError (e : value_error)
  | OverflowError
  | TypeError
  | AttributeError
  | HTTPException.

Inductive result (A : Type) : Type :=
  | OK (a : A)
  | Raise (e : exn).
Arguments OK {A} a.
Arguments Raise {A} e.

Definition is_ok {A} (r : result A) : bool :=
  match r with OK _ => true | Raise _ => false end.

Definition rbind {A B} (r : result A) (k : A -> result B) : result B :=
  match r with OK a => k a | Raise e => Raise e end.

(** ** Python [str] methods *)

Module Str.

Definition code (c : ascii) : N := N_of_ascii c.

(** [str.isspace] on ASCII: TAB, LF, VT, FF, CR, FS, GS, RS, US, SPACE. *)
Definition isspace (c : ascii) : bool :=
  ((9 <=? code c) && (code c <=? 13) ||
   (28 <=? code c) && (code c <=? 32))%N.

(** [str.isdigit] on ASCII: the ten digits.  The digits of Unicode
    beyond them are outside the model. *)
Definition isdigit (c : ascii) : bool :=
  ((48 <=? code c) && (code c <=? 57))%N.

(** [str.lower] on ASCII: the twenty-six capital letters. *)
Definition lower_char (c : ascii) : ascii :=
  if ((65 <=? code c) && (code c <=? 90))%N
  then ascii_of_N (code c + 32) else c.

Fixpoint lower (s : string) : string :=
  match s with
  | EmptyString => EmptyString
  | String c r => String (lower_char c) (lower r)
  end.

Fixpoint lstrip (s : string) : string :=
  match s with
  | EmptyString => EmptyString
  | String c r => if isspace c then lstrip r else s
  end.

Fixpoint rstrip (s : string) : string :=
  match s with
  | EmptyString => EmptyString
  | String c r =>
      match rstrip r with
      | EmptyString => if isspace c then EmptyString else String c EmptyString
      | r' => String c r'
      end
  end.

(** [s.strip()], of the white space of ASCII; the white space of
    Unicode beyond it is outside the model. *)
Definition strip (s : string) : string := rstrip (lstrip s).

(** [s.startswith(p)] *)
Definition startswith (s p : string) : bool := prefix p s.

(** [s.replace(old, new)] for a non-empty [old]: the occurrences of
    [old] are found from the left and do not overlap; [skip] counts the
    characters of the occurrence just replaced that are still ahead. *)
Fixpoint replace_from (skip : nat) (old new s : string) : string :=
  match s with
  | EmptyString => EmptyString
  | String c r =>
      match skip with
      | S k => replace_from k old new r
      | O =>
          if startswith s old
          then new ++ replace_from (String.length old - 1) old new r
          else String c (replace_from 0 old new r)
      end
  end.

Definition replace (old new s : string) : string :=
  replace_from 0 old new s.

Definition digit_value (c : ascii) : Z := Z.of_N (code c) - 48.

(** The number that a string of ASCII digits spells, read from the left. *)
Fixpoint int_from (acc : Z) (s : string) : Z :=
  match s with
  | EmptyString => acc
  | String c r => int_from (10 * acc + digit_value c) r
  end.

Definition int_value (s : string) : Z := int_from 0 s.

(** [sys.get_int_max_str_digits()], at the default of CPython. *)
Definition int_max_str_digits : Z := 4300.

(** [int(s)] for a string of ASCII digits: the number it spells, and
    [ValueError] for a string of more digits than the limit, leading
    zeros counted. *)
Definition int (s : string) : result Z :=
  if int_max_str_digits <? Z.of_nat (String.length s)
  then Raise (ValueError IntDigitsLimit)
  else OK (int_value s).

Fixpoint all_digits (s : string) : bool :=
  match s with
  | EmptyString => true
  | String c r => isdigit c && all_digits r
  end.

Definition is_empty (s : string) : bool :=
  match s with EmptyString => true | _ => false end.

(** [s in l] for a collection of strings. *)
Definition mem (s : string) (l : list string) : bool :=
  existsb (String.eqb s) l.

End Str.

(** The ideograph U+5206 ("minute"), as its three UTF-8 bytes. *)
Definition fun_marker : string :=
  String (ascii_of_N 229) (String (ascii_of_N 136) (String (ascii_of_N 134) "")).

(** ** [timedelta] *)

(** A [timedelta] in Python's normal form: [0 <= seconds < 86400] and
    [0 <= microseconds < 1000000]. *)
Record timedelta : Type := mk_timedelta
  { days : Z; seconds : Z; microseconds : Z }.

Definition max_days : Z := 999999999.

(** The duration of [n] whole seconds; [OverflowError] beyond
    [timedelta.max], as the constructor raises. *)
Definition timedelta_of_seconds (n : Z) : result timedelta :=
  let d := n / 86400 in
  if (d >? max_days) || (d <? - max_days) then Raise OverflowError
  else OK {| days := d; seconds := n mod 86400; microseconds := 0 |}.

(** [timedelta(hours=h, minutes=m)] *)
Definition timedelta_hm (h m : Z) : result timedelta :=
  timedelta_of_seconds (h * 3600 + m * 60).

Definition whole_seconds (td : timedelta) : Z :=
  days td * 86400 + seconds td.

(** [td.total_seconds()]: the microseconds of [td] divided by [10**6], an
    exact integer division here because every [timedelta] of the program
    is built from whole hours and minutes; the integer is below [2^53],
    so its conversion to a float is exact. *)
Definition total_seconds (td : timedelta) : float :=
  if whole_seconds td <? 0
  then PrimFloat.opp (PrimFloat.of_uint63 (Uint63.of_Z (- whole_seconds td)))
  else PrimFloat.of_uint63 (Uint63.of_Z (whole_seconds td)).

(** ** [parse_delta] *)

(** The value of the variable [last]: [None], ["h"] or ["m"]. *)
Inductive last_unit : Type := LastNone | LastH | LastM.

(** The loop variables [h], [m], [buf] and [last]. *)
Record pstate : Type := mk_pstate
  { ps_h : Z; ps_m : Z; ps_buf : string; ps_last : last_unit }.

Definition pstate0 : pstate :=
  {| ps_h := 0; ps_m := 0; ps_buf := ""; ps_last := LastNone |}.

Definition is_sep (ch : ascii) : bool :=
  (ch =? " ")%char || (ch =? ":")%char || (ch =? "/")%char || (ch =? "+")%char.

(** [buf += ch] *)
Definition push_digit (ch : ascii) (st : pstate) : pstate :=
  {| ps_h := ps_h st; ps_m := ps_m st;
     ps_buf := ps_buf st ++ String ch ""; ps_last := ps_last st |}.

(** [h += int(buf); buf = ""; last = "h"], after the check of [buf]. *)
Definition hour_marker (st : pstate) : result pstate :=
  if Str.is_empty (ps_buf st) then Raise (ValueError DigitsBeforeH)
  else
    rbind (Str.int (ps_buf st)) (fun n =>
      OK {| ps_h := ps_h st + n; ps_m := ps_m st;
            ps_buf := ""; ps_last := LastH |}).

(** [m += int(buf); buf = ""; last = "m"], after the check of [buf]. *)
Definition minute_marker (e : value_error) (st : pstate) : result pstate :=
  if Str.is_empty (ps_buf st) then Raise (ValueError e)
  else
    rbind (Str.int (ps_buf st)) (fun n =>
      OK {| ps_h := ps_h st; ps_m := ps_m st + n;
            ps_buf := ""; ps_last := LastM |}).

(** The [while] loop, on the text from position [i] on.  A branch that
    advances [i] by one continues on the tail, the ["min"] branch on the
    tail of the tail of the tail. *)
Fixpoint scan (s : string) (st : pstate) {struct s} : result pstate :=
  match s with
  | EmptyString => OK st
  | String ch rest =>
      if Str.isdigit ch then scan rest (push_digit ch st)
      else if (ch =? "h")%char then rbind (hour_marker st) (scan rest)
      else if Str.startswith s "min" then
        rbind (minute_marker DigitsBeforeMin st)
              (scan (match rest with
                     | String _ (String _ rest') => rest'
                     | _ => rest
                     end))
      else if (ch =? "m")%char then
        rbind (minute_marker DigitsBeforeM st) (scan rest)
      else if is_sep ch then scan rest st
      else Raise (ValueError BadDuration)
  end.

(** The two statements after the loop. *)
Definition finish (st : pstate) : result timedelta :=
  rbind
    (if negb (Str.is_empty (ps_buf st)) &&
        negb (match ps_last st with LastM => true | _ => false end)
     then rbind (Str.int (ps_buf st)) (fun n => OK (ps_m st + n))
     else OK (ps_m st))
    (timedelta_hm (ps_h st)).

Section Text.

(** [unicodedata.normalize("NFKC", _)] *)
Variable nfkc : string -> string.

(** The first two statements of [parse_delta]. *)
Definition normalize_duration (s : string) : string :=
  let s := Str.lower (Str.strip (nfkc s)) in
  Str.replace fun_marker "min"
    (Str.replace "minute" "min" (Str.replace "minutes" "min" s)).

Definition parse_delta (s : string) : result timedelta :=
  rbind (scan (normalize_duration s) pstate0) finish.

(** [FC_ALIASES], in the order of the dictionary. *)
Definition FC_ALIASES : list (string * list string) :=
  [ ("alexander", ["a"; "al"; "ale"; "alex"; "alexan"; "alexander"]);
    ("pandemonium",
     ["p"; "pa"; "pan"; "pand"; "pande"; "pandemo"; "pandemonium"]) ].

(** The [for] loop of [normalize_fc] over [FC_ALIASES.items()]: the
    label of the first entry that [t] matches. *)
Fixpoint alias_lookup (t : string) (table : list (string * list string))
  : option string :=
  match table with
  | [] => None
  | (canon, aliases) :: rest =>
      if String.eqb t canon || Str.mem t aliases
      then Some (if String.eqb canon "alexander"
                 then "Alexander" else "Pandemonium")
      else alias_lookup t rest
  end.

Definition normalize_fc (s : string) : string :=
  if Str.is_empty s then ""
  else
    let t := Str.lower (Str.strip (nfkc s)) in
    match alias_lookup t FC_ALIASES with
    | Some label => label
    | None =>
        if Str.startswith "alexander" t then "Alexander"
        else if Str.startswith "pandemonium" t then "Pandemonium"
        else s
    end.

(** [normalize_boat]: both branches of the conditional return [t]. *)
Definition normalize_boat (s : string) : string :=
  let t := Str.strip (nfkc s) in
  if Str.mem t ["1"; "2"; "3"; "4"] then t else t.


End Text.

(** ** [Task] *)

Record Task : Type := mk_Task
  { id : string;
    guild_id : Z;
    channel_id : Z;
    user_id : Z;
    fc : string;
    boat : string;
    note : string;
    arrive_utc : float;
    done_arrive : bool }.

(** [Task(id=.., .., arrive_utc=..)] as the [add] command calls it:
    [done_arrive] takes its default, [False]. *)
Definition Task_new (i : string) (g c u : Z) (f b n : string) (a : float)
  : Task :=
  mk_Task i g c u f b n a false.

(** Assignments to the attributes of a task. *)
Definition set_arrive_utc (a : float) (t : Task) : Task :=
  mk_Task (id t) (guild_id t) (channel_id t) (user_id t)
          (fc t) (boat t) (note t) a (done_arrive t).

Definition set_done_arrive (b : bool) (t : Task) : Task :=
  mk_Task (id t) (guild_id t) (channel_id t) (user_id t)
          (fc t) (boat t) (note t) (arrive_utc t) b.

Definition set_fc (f : string) (t : Task) : Task :=
  mk_Task (id t) (guild_id t) (channel_id t) (user_id t)
          f (boat t) (note t) (arrive_utc t) (done_arrive t).

Definition set_boat (b : string) (t : Task) : Task :=
  mk_Task (id t) (guild_id t) (channel_id t) (user_id t)
          (fc t) b (note t) (arrive_utc t) (done_arrive t).

Definition set_note (n : string) (t : Task) : Task :=
  mk_Task (id t) (guild_id t) (channel_id t) (user_id t)
          (fc t) (boat t) n (arrive_utc t) (done_arrive t).

(** ** Python [dict] with [str] keys

    An association list in insertion order, one entry per key. *)

Definition dict (V : Type) : Type := list (string * V).

Fixpoint dict_get {V} (k : string) (d : dict V) : option V :=
  match d with
  | [] => None
  | (k', v) :: r => if String.eqb k k' then Some v else dict_get k r
  end.

(** [k in d] *)
Definition dict_mem {V} (k : string) (d : dict V) : bool :=
  match dict_get k d with Some _ => true | None => false end.

(** [d[k] = v]: a present key keeps its place, a new key goes last. *)
Fixpoint dict_set {V} (k : string) (v : V) (d : dict V) : dict V :=
  match d with
  | [] => [(k, v)]
  | (k', v') :: r =>
      if String.eqb k k' then (k', v) :: r else (k', v') :: dict_set k v r
  end.

(** [del d[k]] *)
Definition dict_del {V} (k : string) (d : dict V) : dict V :=
  filter (fun kv => negb (String.eqb k (fst kv))) d.

Definition dict_keys {V} (d : dict V) : list string := map fst d.
Definition dict_values {V} (d : dict V) : list V := map snd d.

(** ** JSON documents

    What [json.dump] writes and [json.load] reads, as the document tree;
    the text of the file is the library's.  An object is the list of its
    members as the file has them. *)

#[warnings="-register-all"]
Inductive json : Type :=
  | JNull
  | JBool (b : bool)
  | JInt (z : Z)
  | JFloat (f : float)
  | JString (s : string)
  | JArray (l : list json)
  | JObject (o : list (string * json)).

(** [vars(t)] *)
Definition vars (t : Task) : dict json :=
  [ ("id", JString (id t));
    ("guild_id", JInt (guild_id t));
    ("channel_id", JInt (channel_id t));
    ("user_id", JInt (user_id t));
    ("fc", JString (fc t));
    ("boat", JString (boat t));
    ("note", JString (note t));
    ("arrive_utc", JFloat (arrive_utc t));
    ("done_arrive", JBool (done_arrive t)) ].

Definition Task_fields : list string :=
  [ "id"; "guild_id"; "channel_id"; "user_id"; "fc"; "boat"; "note";
    "arrive_utc"; "done_arrive" ].

(** [Task] called with the entries of [rec] as keywords: [TypeError] for
    a keyword that is no field and for a missing field without default.
    The record [Task] is typed here, so the constructor is the one of the
    program on the records whose values have the JSON types of the fields
    and on those it refuses; the dataclass does not check the types, and
    a record with a value of another type, which it accepts, has no image
    in [Task]: the last branches stand for it, and what is stated on
    loading below either holds whatever these branches answer or is
    stated on records of the other kinds. *)
Definition Task_kwargs (rec : dict json) : result Task :=
  if negb (forallb (fun kv => Str.mem (fst kv) Task_fields) rec)
  then Raise TypeError
  else
    match dict_get "id" rec, dict_get "guild_id" rec,
          dict_get "channel_id" rec, dict_get "user_id" rec,
          dict_get "fc" rec, dict_get "boat" rec,
          dict_get "note" rec, dict_get "arrive_utc" rec with
    | Some (JString i), Some (JInt g), Some (JInt c), Some (JInt u),
      Some (JString f), Some (JString b), Some (JString n),
      Some (JFloat a) =>
        match dict_get "done_arrive" rec with
        | None => OK (mk_Task i g c u f b n a false)
        | Some (JBool d) => OK (mk_Task i g c u f b n a d)
        | Some _ => Raise TypeError
        end
    | _, _, _, _, _, _, _, _ => Raise TypeError
    end.

(** ** The world: the store, its file and the effects so far *)

(** The effects on the outside: a write of the data file and a message
    sent to a channel. *)
Inductive event : Type :=
  | Write (doc : json)
  | Send (channel : Z) (t : Task).

Record world : Type := mk_world
  { tasks : dict Task;        (* client.store.tasks *)
    disk : option json;       (* the data file; None: no file *)
    io : list event }.

(** Computations on the world that may raise; the world an exception
    leaves behind is part of the outcome. *)
Definition M (A : Type) : Type := world -> result A * world.

Definition ret {A} (a : A) : M A := fun w => (OK a, w).

Definition raise {A} (e : exn) : M A := fun w => (Raise e, w).

Definition bind {A B} (m : M A) (k : A -> M B) : M B :=
  fun w =>
    match m w with
    | (OK a, w') => k a w'
    | (Raise e, w') => (Raise e, w')
    end.

Definition lift {A} (r : result A) : M A := fun w => (r, w).

Definition gets {A} (f : world -> A) : M A := fun w => (OK (f w), w).

Definition set_tasks (f : dict Task -> dict Task) : M unit :=
  fun w => (OK tt, mk_world (f (tasks w)) (disk w) (io w)).

Definition emit (e : event) : M unit :=
  fun w => (OK tt, mk_world (tasks w) (disk w) (io w ++ [e])).

Declare Scope m_scope.
Delimit Scope m_scope with M.
Notation "x <- c1 ;; c2" := (bind c1 (fun x => c2))
  (at level 61, c1 at next level, right associativity) : m_scope.
Notation "c1 ;; c2" := (bind c1 (fun _ => c2))
  (at level 61, right associativity) : m_scope.
Open Scope m_scope.

(** ** [TaskStore] *)

(** The document [save] dumps: [{tid: vars(t) for tid, t in tasks.items()}] *)
Definition snapshot (d : dict Task) : json :=
  JObject (map (fun kv => (fst kv, JObject (vars (snd kv)))) d).

Definition TaskStore_save : M unit :=
  fun w =>
    let doc := snapshot (tasks w) in
    (OK tt, mk_world (tasks w) (Some doc) (io w ++ [Write doc])).

(** The [dict] that [json.load] builds from the members of an object of
    the file, in their order: a name that comes again keeps its place and
    takes the later value. *)
Definition dict_of_pairs {V} (l : list (string * V)) : dict V :=
  fold_left (fun d kv => dict_set (fst kv) (snd kv) d) l [].

(** The loop of [load] over [raw.items()]. *)
Fixpoint load_items (items : dict json) : M unit :=
  match items with
  | [] => ret tt
  | (tid, rec) :: rest =>
      match rec with
      | JObject kw =>
          t <- lift (Task_kwargs (dict_of_pairs kw)) ;;
          set_tasks (dict_set tid t) ;;
          load_items rest
      | _ => raise TypeError
      end
  end.

Definition TaskStore_load : M unit :=
  raw <- gets disk ;;
  match raw with
  | Some (JObject members) => load_items (dict_of_pairs members)
  | Some _ => raise AttributeError
  | None => TaskStore_save
  end.

(** [TaskStore(path)], on the file [file]. *)
Definition TaskStore_init (file : option json) : result unit * world :=
  TaskStore_load (mk_world [] file []).

Definition TaskStore_add (t : Task) : M unit :=
  set_tasks (dict_set (id t) t) ;; TaskStore_save.

Definition TaskStore_remove (tid : string) : M unit :=
  present <- gets (fun w => dict_mem tid (tasks w)) ;;
  if present then set_tasks (dict_del tid) ;; TaskStore_save
  else ret tt.

Definition TaskStore_by_guild (gid : Z) (w : world) : list Task :=
  filter (fun t => guild_id t =? gid) (dict_values (tasks w)).

(** ** The scheduler *)

(** What the scheduler finds outside: whether [client.get_channel] gives a
    text channel, and whether [channel.send] returns ([true]) or raises. *)
Record env : Type := mk_env
  { is_text_channel : Z -> bool;
    send_ok : Z -> Task -> bool }.

Definition send_arrival_notice (e : env) (t : Task) : M unit :=
  if send_ok e (channel_id t) t then emit (Send (channel_id t) t)
  else raise HTTPException.

(** [not t.done_arrive and now >= t.arrive_utc] *)
Definition due (now : float) (t : Task) : bool :=
  negb (done_arrive t) && PrimFloat.leb (arrive_utc t) now.

(** [t.done_arrive = True] on the task object found under [k] when the
    tick began: the store sees the assignment while it holds the object. *)
Definition mark_delivered (k : string) (t : Task) : M Task :=
  set_tasks (fun d =>
    if dict_mem k d then dict_set k (set_done_arrive true t) d else d) ;;
  ret (set_done_arrive true t).

(** The body of the [for] loop, for the task [t] found under the key [k];
    [changed] is threaded through. *)
Definition visit (e : env) (now : float) (kt : string * Task)
  (changed : bool) : M bool :=
  let (k, t) := kt in
  r <- (if due now t then
          (if is_text_channel e (channel_id t)
           then send_arrival_notice e t else ret tt) ;;
          t' <- mark_delivered k t ;;
          ret (t', true)
        else ret (t, changed)) ;;
  (if done_arrive (fst r) then TaskStore_remove (id (fst r)) else ret tt) ;;
  ret (snd r).

Fixpoint visit_all (e : env) (now : float) (l : list (string * Task))
  (changed : bool) : M bool :=
  match l with
  | [] => ret changed
  | kt :: rest => c <- visit e now kt changed ;; visit_all e now rest c
  end.

(** One turn of the [while] loop of [schedule_runner], at the time [now]. *)
Definition schedule_tick (e : env) (now : float) : M unit :=
  snap <- gets tasks ;;
  changed <- visit_all e now snap false ;;
  if changed then TaskStore_save else ret tt.

(** ** The commands *)

(** The answers of the commands.  [Deferred] and [Updated] stand for the
    messages that show the new arrival as [jstfmt] writes it. *)
Inductive reply : Type :=
  | NotFound
  | Cancelled
  | Deferred (arrive : float)
  | BadArrive
  | Updated (t : Task).

(** An optional text argument that is neither [None] nor empty. *)
Definition truthy (o : option string) : option string :=
  match o with
  | Some s => if Str.is_empty s then None else Some s
  | None => None
  end.

(** The last instant of [datetime.max] on a clock nine hours ahead of
    UTC, in microseconds since the epoch. *)
Definition datetime_max_jst : Z := 253402300799999999 - 9 * 3600 * 1000000.

(** [dt + td] for an aware [datetime] given as microseconds since the
    epoch: [OverflowError] past the year 9999. *)
Definition datetime_add (dt : Z) (td : timedelta) : result Z :=
  let r := dt + whole_seconds td * 1000000 + microseconds td in
  if r >? datetime_max_jst then Raise OverflowError else OK r.

Section Commands.

Variable nfkc : string -> string.

(** [datetime.strptime(_, "%Y-%m-%d %H:%M").replace(tzinfo=JST)] brought
    to UTC, in microseconds since the epoch; [None] when it raises. *)
Variable strptime_jst : string -> option Z.

(** [datetime.timestamp()] of an instant given in microseconds. *)
Variable timestamp : Z -> float.

(** [jstfmt]: the text of an instant for a reply, by [datetime.fromtimestamp],
    [astimezone] and [strftime]; these raise [ValueError] or
    [OverflowError] for an instant outside the years 1 to 9999. *)
Variable jstfmt : float -> result string.

Definition cancel (tid : string) : M reply :=
  present <- gets (fun w => dict_mem tid (tasks w)) ;;
  if present then TaskStore_remove tid ;; ret Cancelled
  else ret NotFound.

Definition defer (tid delta : string) : M reply :=
  found <- gets (fun w => dict_get tid (tasks w)) ;;
  match found with
  | None => ret NotFound
  | Some t =>
      td <- lift (parse_delta nfkc delta) ;;
      let t' :=
        set_arrive_utc (PrimFloat.add (arrive_utc t) (total_seconds td)) t in
      set_tasks (dict_set tid t') ;;
      TaskStore_save ;;
      lift (jstfmt (arrive_utc t')) ;;
      ret (Deferred (arrive_utc t'))
  end.

(** The new arrival of [edit_cmd]: [Some] of the task with its new
    time, [None] when the command answers that [arrive] is malformed. *)
Definition edit_time (now : Z) (duration arrive : option string) (t : Task)
  : M (option Task) :=
  match truthy duration with
  | Some d =>
      td <- lift (parse_delta nfkc d) ;;
      new_dt <- lift (datetime_add now td) ;;
      ret (Some (set_arrive_utc (timestamp new_dt) t))
  | None =>
      match truthy arrive with
      | Some a =>
          match strptime_jst (nfkc a) with
          | Some new_dt => ret (Some (set_arrive_utc (timestamp new_dt) t))
          | None => ret None
          end
      | None => ret (Some t)
      end
  end.

Definition edit_fields (fc' boat' note' : option string) (t : Task) : Task :=
  let t := match fc' with Some f => set_fc (normalize_fc nfkc f) t
                        | None => t end in
  let t := match boat' with Some b => set_boat (normalize_boat nfkc b) t
                          | None => t end in
  match note' with Some n => set_note n t | None => t end.

(** [edit_cmd], called at the instant [now]. *)
Definition edit_cmd (now : Z) (tid : string)
  (duration arrive fc' boat' note' : option string) : M reply :=
  found <- gets (fun w => dict_get tid (tasks w)) ;;
  match found with
  | None => ret NotFound
  | Some t =>
      timed <- edit_time now duration arrive t ;;
      match timed with
      | None => ret BadArrive
      | Some t1 =>
          let t2 := edit_fields fc' boat' note' t1 in
          set_tasks (dict_set tid t2) ;;
          TaskStore_save ;;
          lift (jstfmt (arrive_utc t2)) ;;
          ret (Updated t2)
      end
  end.

(** ** Runs of the bot

    The operations that reach the store.  The [add] command of the file
    builds its task with [Task(..)] and answers; a run adds such a task,
    with the default of [done_arrive], through [TaskStore.add]. *)

Inductive op : Type :=
  | OpAdd (i : string) (g c u : Z) (f b n : string) (a : float)
  | OpCancel (tid : string)
  | OpDefer (tid delta : string)
  | OpEdit (now : Z) (tid : string)
           (duration arrive fc' boat' note' : option string)
  | OpTick (e : env) (now : float).

(** The world after an operation, whether it returned or raised. *)
Definition step (o : op) (w : world) : world :=
  match o with
  | OpAdd i g c u f b n a => snd (TaskStore_add (Task_new i g c u f b n a) w)
  | OpCancel tid => snd (cancel tid w)
  | OpDefer tid delta => snd (defer tid delta w)
  | OpEdit now tid d a f b n => snd (edit_cmd now tid d a f b n w)
  | OpTick e now => snd (schedule_tick e now w)
  end.

Definition run (ops : list op) (w : world) : world :=
  fold_left (fun w o => step o w) ops w.

End Commands.

(** ** Duration texts, as the grammar describes them

    A token is a run of digits followed by a unit marker; a duration text
    is a first token followed by further tokens, each after a (possibly
    empty) run of separators. *)

Inductive unit_marker : Type :=
  | UnitH | UnitM | UnitMin | UnitMinute | UnitMinutes | UnitFun.

Definition spell (u : unit_marker) : string :=
  match u with
  | UnitH => "h"
  | UnitM => "m"
  | UnitMin => "min"
  | UnitMinute => "minute"
  | UnitMinutes => "minutes"
  | UnitFun => fun_marker
  end.

Record token : Type := mk_token { tk_digits : string; tk_unit : unit_marker }.

Definition token_text (t : token) : string :=
  tk_digits t ++ spell (tk_unit t).

Definition token_ok (t : token) : bool :=
  negb (Str.is_empty (tk_digits t)) && Str.all_digits (tk_digits t).

Fixpoint all_seps (s : string) : bool :=
  match s with
  | EmptyString => true
  | String c r => is_sep c && all_seps r
  end.

Fixpoint render_rest (l : list (string * token)) : string :=
  match l with
  | [] => ""
  | (sep, t) :: r => sep ++ token_text t ++ render_rest r
  end.

Definition render (t0 : token) (l : list (string * token)) : string :=
  token_text t0 ++ render_rest l.

Definition tokens_ok (t0 : token) (l : list (string * token)) : bool :=
  token_ok t0 && forallb (fun st => all_seps (fst st) && token_ok (snd st)) l.

(** What a token contributes, in seconds. *)
Definition token_seconds (t : token) : Z :=
  match tk_unit t with
  | UnitH => 3600 * Str.int_value (tk_digits t)
  | _ => 60 * Str.int_value (tk_digits t)
  end.

(** The digits of a token are within the limit of [int]. *)
Definition token_short (t : token) : bool :=
  Z.of_nat (String.length (tk_digits t)) <=? Str.int_max_str_digits.

Definition tokens_short (t0 : token) (l : list (string * token)) : bool :=
  token_short t0 && forallb (fun st => token_short (snd st)) l.

Definition total_seconds_of (t0 : token) (l : list (string * token)) : Z :=
  token_seconds t0 + fold_right (fun st acc => token_seconds (snd st) + acc) 0 l.

(** Texts made of ASCII characters and the ideograph of [fun_marker]:
    NFKC leaves them as they are. *)
Fixpoint plain (s : string) : bool :=
  match s with
  | EmptyString => true
  | String c r =>
      if (Str.code c <? 128)%N then plain r
      else
        match r with
        | String c2 (String c3 r') =>
            String.eqb (String c (String c2 (String c3 ""))) fun_marker
            && plain r'
        | _ => false
        end
  end.

(** A duration text cut into its characters and unit markers. *)
Inductive item : Type :=
  | Ch (c : ascii)
  | Mk (u : unit_marker).

Definition neutral (c : ascii) : bool := Str.isdigit c || is_sep c.

Fixpoint flat (sp : unit_marker -> string) (l : list item) : string :=
  match l with
  | [] => ""
  | Ch c :: r => String c (flat sp r)
  | Mk u :: r => sp u ++ flat sp r
  end.

(** Every character is a digit or a separator, and no two markers are
    adjacent. *)
Fixpoint items_ok (l : list item) : bool :=
  match l with
  | [] => true
  | Ch c :: r => neutral c && items_ok r
  | Mk _ :: r =>
      match r with Mk _ :: _ => false | _ => true end && items_ok r
  end.

(** The list does not begin with a marker. *)
Definition head_ok (l : list item) : bool :=
  match l with Mk _ :: _ => false | _ => true end.

Fixpoint chars (s : string) : list item :=
  match s with
  | EmptyString => []
  | String c r => Ch c :: chars r
  end.

Definition token_items (t : token) : list item :=
  chars (tk_digits t) ++ [Mk (tk_unit t)].

Fixpoint rest_items (l : list (string * token)) : list item :=
  match l with
  | [] => []
  | (sep, t) :: r => chars sep ++ token_items t ++ rest_items r
  end.

Definition items (t0 : token) (l : list (string * token)) : list item :=
  token_items t0 ++ rest_items l.

(** The marker a unit is spelled with after the three replacements. *)
Definition spell3 (u : unit_marker) : string :=
  match u with UnitH => "h" | UnitM => "m" | _ => "min" end.

Definition apply_marker (u : unit_marker) (st : pstate) : result pstate :=
  match u with
  | UnitH => hour_marker st
  | UnitM => minute_marker DigitsBeforeM st
  | _ => minute_marker DigitsBeforeMin st
  end.

(** The loop of [parse_delta] read on items. *)
Fixpoint run_items (l : list item) (st : pstate) : result pstate :=
  match l with
  | [] => OK st
  | Ch c :: r =>
      if Str.isdigit c then run_items r (push_digit c st) else run_items r st
  | Mk u :: r => rbind (apply_marker u st) (run_items r)
  end.

(** The loop state with [buf] replaced. *)
Definition with_buf (b : string) (st : pstate) : pstate :=
  mk_pstate (ps_h st) (ps_m st) b (ps_last st).

(** The seconds the loop has counted so far. *)
Definition counted (st : pstate) : Z := ps_h st * 3600 + ps_m st * 60.

Fixpoint has_char (c : ascii) (s : string) : bool :=
  match s with
  | EmptyString => false
  | String x r => (c =? x)%char || has_char c r
  end.

(** A text of digits and separators: no unit marker stands in it. *)
Fixpoint all_neutral (s : string) : bool :=
  match s with
  | EmptyString => true
  | String c r => neutral c && all_neutral r
  end.

(** The digits of a text, in their order, without what stands between
    them. *)
Fixpoint digits_of (s : string) : string :=
  match s with
  | EmptyString => EmptyString
  | String c r =>
      if Str.isdigit c then String c (digits_of r) else digits_of r
  end.

(** ** The alias resolver, as the specification words it *)

Record group : Type := mk_group
  { canon : string; label : string; aliases : list string }.

Definition groups : list group :=
  [ mk_group "alexander" "Alexander"
      ["a"; "al"; "ale"; "alex"; "alexan"; "alexander"];
    mk_group "pandemonium" "Pandemonium"
      ["p"; "pa"; "pan"; "pand"; "pande"; "pandemo"; "pandemonium"] ].

(** (1) an exact match of the normalized input [t] with a canonical name or
    one of its aliases gives the canonical label; (2) otherwise a non-empty
    [t] that is a prefix of exactly one canonical name gives that label;
    (3) otherwise the input [s] is returned unchanged. *)
Definition resolve_group_spec (t s : string) : string :=
  match filter (fun g => String.eqb t (canon g) || Str.mem t (aliases g))
               groups with
  | g :: _ => label g
  | [] =>
      match filter (fun g => negb (Str.is_empty t) && prefix t (canon g))
                   groups with
      | [g] => label g
      | _ => s
      end
  end.

(** ** Invariants of the store *)

(** One entry per key. *)
Definition is_dict {V} (d : dict V) : Prop := NoDup (dict_keys d).

(** Every task is stored under its own id, as [TaskStore.add] stores it. *)
Definition keyed_by_id (d : dict Task) : Prop :=
  forall k t, In (k, t) d -> id t = k.

Definition store_ok (d : dict Task) : Prop := is_dict d /\ keyed_by_id d.

(** No stored task carries the delivered flag. *)
Definition all_pending (d : dict Task) : Prop :=
  forall k t, In (k, t) d -> done_arrive t = false.

(** The tasks a tick at [now] removes: the due ones and the ones that
    carry the flag already. *)
Definition leaves (now : float) (t : Task) : bool :=
  due now t || done_arrive t.

Definition survivors (now : float) (d : dict Task) : dict Task :=
  filter (fun kt => negb (leaves now (snd kt))) d.

(** The sink raises on none of the tasks of [d] that a tick at [now]
    would send a notice for. *)
Definition sink_quiet (e : env) (now : float) (d : dict Task) : Prop :=
  forall k t, In (k, t) d -> due now t = true ->
    is_text_channel e (channel_id t) = true ->
    send_ok e (channel_id t) t = true.

(** The number of writes of the data file among the effects. *)
Definition writes (l : list event) : nat :=
  List.length (filter (fun ev => match ev with Write _ => true | _ => false end) l).

(** The messages sent among the effects, with their channels. *)
Definition sent (l : list event) : list (Z * Task) :=
  flat_map (fun ev => match ev with Send c t => [(c, t)] | _ => [] end) l.

(** The notices a tick at [now] sends for the tasks of [d]: one for each
    due task whose channel is a text channel. *)
Definition notified (e : env) (now : float) (d : dict Task)
  : list (Z * Task) :=
  map (fun kt => (channel_id (snd kt), snd kt))
      (filter (fun kt => due now (snd kt)
                         && is_text_channel e (channel_id (snd kt))) d).

(** The sink raises for the task [t]. *)
Definition sink_fails (e : env) (now : float) (t : Task) : Prop :=
  due now t = true /\ is_text_channel e (channel_id t) = true
  /\ send_ok e (channel_id t) t = false.

(** ** A store and three surroundings for the examples *)

Definition demo_task (i : string) (arrive : float) : Task :=
  Task_new i 1 10 100 "Alexander" "1" "" arrive.

Definition demo_world : world :=
  mk_world [ ("aa", demo_task "aa" 100);
             ("bb", demo_task "bb" 200);
             ("cc", demo_task "cc" 900) ] None [].

(** A second task with the id of the first task of [demo_world]. *)
Definition demo_collision : Task :=
  Task_new "aa" 2 20 200 "Pandemonium" "2" "new" 5000.

(** Every channel is a text channel and every message goes out. *)
Definition env_up : env := mk_env (fun _ => true) (fun _ _ => true).

(** Every channel is a text channel and [channel.send] raises. *)
Definition env_down : env := mk_env (fun _ => true) (fun _ _ => false).

(** No channel is found. *)
Definition env_no_channel : env := mk_env (fun _ => false) (fun _ _ => false).

(** NFKC on ASCII text is the identity; the examples on ASCII inputs are
    evaluated with it. *)
Definition nfkc_ascii (s : string) : string := s.

(** A run of [n] digits, for the examples on the limit of [int]. *)
Fixpoint nines (n : nat) : string :=
  match n with
  | O => ""
  | S k => String "9" (nines k)
  end.

(** ** Further notions on the text helpers *)

(** A character that the loop of [parse_delta] rejects wherever it
    stands: no digit, no separator and none of the letters of ["h"],
    ["m"] and ["min"]. *)
Definition rejected (c : ascii) : bool :=
  negb (Str.isdigit c) && negb (is_sep c)
  && negb (c =? "h")%char && negb (c =? "m")%char
  && negb (c =? "i")%char && negb (c =? "n")%char.

(** The loop variables hold counts and pending digits. *)
Definition pstate_ok (st : pstate) : Prop :=
  0 <= ps_h st /\ 0 <= ps_m st /\ Str.all_digits (ps_buf st) = true.

(** The exceptions of the loop: a [ValueError] of [parse_delta] or the
    one of [int]. *)
Definition from_loop (ex : exn) : Prop :=
  exists v, ex = ValueError v /\ v <> YearOutOfRange.

(** ** Further notions on the store *)

(** The data file holds the store as it is. *)
Definition synced (w : world) : Prop :=
  disk w = Some (snapshot (tasks w)).

(** The eight fields of [Task] without default. *)
Definition Task_required : list string :=
  [ "id"; "guild_id"; "channel_id"; "user_id"; "fc"; "boat"; "note";
    "arrive_utc" ].

(** ** The pages of [list_cmd] *)

(** [range(0, n, step)] for a positive [step]. *)
Definition range_step (n step : nat) : list nat :=
  map (fun j => (j * step)%nat) (seq 0 ((n + step - 1) / step)).

(** [l[i:j]] for [i <= j]. *)
Definition slice {A} (l : list A) (i j : nat) : list A :=
  firstn (j - i) (skipn i l).

(** The slices [tasks[i:i+chunk]] that the loop of [list_cmd] sends, one
    message each. *)
Definition pages {A} (chunk : nat) (l : list A) : list (list A) :=
  map (fun i => slice l i (i + chunk)) (range_step (List.length l) chunk).

(** [chunk = 10] *)
Definition list_chunk : nat := 10.

(** * Properties *)

(** ** Characters *)

Ltac by_cases_on_char c :=
  destruct c as [[] [] [] [] [] [] [] []]; vm_compute in *;
  try reflexivity; try discriminate; auto.

Lemma neutral_not_space_or_sep (c : ascii) :
  Str.isdigit c = true -> Str.isspace c = false.
Proof. by_cases_on_char c. Qed.

Lemma neutral_lower (c : ascii) : neutral c = true -> Str.lower_char c = c.
Proof. by_cases_on_char c. Qed.

Lemma neutral_ascii (c : ascii) : neutral c = true -> (Str.code c <? 128)%N = true.
Proof. by_cases_on_char c. Qed.

Lemma neutral_not_in_minutes (c : ascii) :
  neutral c = true -> has_char c "minutes" = false.
Proof. by_cases_on_char c. Qed.

Lemma neutral_not_in_minute (c : ascii) :
  neutral c = true -> has_char c "minute" = false.
Proof. by_cases_on_char c. Qed.

Lemma neutral_not_in_fun (c : ascii) :
  neutral c = true -> has_char c fun_marker = false.
Proof. by_cases_on_char c. Qed.

Lemma sep_scan_facts (c : ascii) :
  is_sep c = true ->
  Str.isdigit c = false /\ (c =? "h")%char = false /\ (c =? "m")%char = false.
Proof. by_cases_on_char c. Qed.

Lemma digit_scan_facts (c : ascii) :
  Str.isdigit c = true -> (c =? "i")%char = false /\ is_sep c = false.
Proof. by_cases_on_char c. Qed.

Lemma neutral_not_i (c : ascii) : neutral c = true -> (c =? "i")%char = false.
Proof. by_cases_on_char c. Qed.

(** ** [parse_delta] on some texts *)

Example parse_18h10min :
  parse_delta nfkc_ascii "18h10min"
  = OK {| days := 0; seconds := 65400; microseconds := 0 |}.
Proof. reflexivity. Qed.

Example parse_fun :
  parse_delta nfkc_ascii ("30" ++ fun_marker)
  = OK {| days := 0; seconds := 1800; microseconds := 0 |}.
Proof. reflexivity. Qed.

Example parse_minutes_upper :
  parse_delta nfkc_ascii " 2H 5 Minutes "
  = OK {| days := 0; seconds := 7500; microseconds := 0 |}.
Proof. reflexivity. Qed.

Example parse_two_days :
  parse_delta nfkc_ascii "49h"
  = OK {| days := 2; seconds := 3600; microseconds := 0 |}.
Proof. reflexivity. Qed.

Example parse_h_without_digits :
  parse_delta nfkc_ascii "h5" = Raise (ValueError DigitsBeforeH).
Proof. reflexivity. Qed.

Example parse_bad_char :
  parse_delta nfkc_ascii "5x" = Raise (ValueError BadDuration).
Proof. reflexivity. Qed.

Example parse_blank :
  parse_delta nfkc_ascii " + "
  = OK {| days := 0; seconds := 0; microseconds := 0 |}.
Proof. reflexivity. Qed.

(** ** Strings *)

Lemma app_nil_r_str (s : string) : s ++ "" = s.
Proof. induction s; simpl; congruence. Qed.

Lemma app_assoc_str (a b c : string) : (a ++ b) ++ c = a ++ (b ++ c).
Proof. induction a; simpl; congruence. Qed.

Lemma length_app_str (a b : string) :
  String.length (a ++ b) = (String.length a + String.length b)%nat.
Proof. induction a; simpl; congruence. Qed.

Lemma lower_app (a b : string) : Str.lower (a ++ b) = Str.lower a ++ Str.lower b.
Proof. induction a; simpl; congruence. Qed.

Lemma rstrip_app (a b : string) :
  Str.rstrip b = b -> b <> "" -> Str.rstrip (a ++ b) = a ++ b.
Proof.
  intros Hb Hne. induction a as [|c a IH]; simpl.
  - exact Hb.
  - rewrite IH. destruct (a ++ b) eqn:E; [|reflexivity].
    destruct a; simpl in E; [congruence | discriminate].
Qed.

Lemma prefix_cut (old : string) (c : ascii) (b : string) :
  has_char c old = false ->
  forall a, prefix old (a ++ String c b) = true ->
            prefix old a = true /\ (String.length old <= String.length a)%nat.
Proof.
  induction old as [|x old IH]; intros Hc a Hp.
  - split; [destruct a; reflexivity | simpl; lia].
  - simpl in Hc. apply orb_false_iff in Hc. destruct Hc as [Hcx Hc].
    destruct a as [|y a]; simpl in Hp |- *.
    + destruct (ascii_dec x c) as [->|]; [|discriminate].
      rewrite Ascii.eqb_refl in Hcx. discriminate.
    + destruct (ascii_dec x y); [|discriminate].
      destruct (IH Hc a Hp). split; [assumption | lia].
Qed.

Lemma prefix_cons (x y : ascii) (p s : string) :
  prefix (String x p) (String y s)
  = if ascii_dec x y then prefix p s else false.
Proof. reflexivity. Qed.

Lemma prefix_app (old a r : string) :
  prefix old a = true -> prefix old (a ++ r) = true.
Proof.
  revert a. induction old as [|x old IH]; intros a H.
  - destruct (a ++ r); reflexivity.
  - destruct a as [|y a]; simpl in *; [discriminate|].
    destruct (ascii_dec x y); [auto | discriminate].
Qed.

(** A character that does not occur in [old] cuts the text in two parts
    that [replace] treats separately. *)
Lemma replace_from_cut (old new : string) (c : ascii) (b : string) :
  old <> "" -> has_char c old = false ->
  forall a skip, (skip <= String.length a)%nat ->
    Str.replace_from skip old new (a ++ String c b)
    = Str.replace_from skip old new a
      ++ String c (Str.replace_from 0 old new b).
Proof.
  intros Hne Hc. induction a as [|y a IH]; intros skip Hs.
  - simpl in Hs. assert (skip = 0%nat) by lia. subst.
    cbn [append Str.replace_from]. unfold Str.startswith.
    destruct (prefix old (String c b)) eqn:E; [|reflexivity].
    destruct (prefix_cut old c b Hc "" E) as [_ Hl].
    destruct old; simpl in Hl; [congruence | lia].
  - destruct skip as [|k]; cbn [append Str.replace_from].
    + unfold Str.startswith.
      destruct (prefix old (String y (a ++ String c b))) eqn:E.
      * destruct (prefix_cut old c b Hc (String y a) E) as [Hp Hl].
        rewrite Hp. rewrite IH by (simpl in Hl; lia).
        now rewrite app_assoc_str.
      * destruct (prefix old (String y a)) eqn:E2.
        -- apply (prefix_app _ _ (String c b)) in E2.
           cbn [append] in E2. congruence.
        -- rewrite IH by lia. reflexivity.
    + apply IH. simpl in Hs. lia.
Qed.

Lemma replace_cut (old new : string) (c : ascii) (a b : string) :
  old <> "" -> has_char c old = false ->
  Str.replace old new (a ++ String c b)
  = Str.replace old new a ++ String c (Str.replace old new b).
Proof. intros. apply replace_from_cut; [assumption | assumption | lia]. Qed.

(** ** Duration texts read as items *)

Lemma rbind_ext {A B} (r : result A) (f g : A -> result B) :
  (forall a, f a = g a) -> rbind r f = rbind r g.
Proof. intros H. destruct r; simpl; auto. Qed.

Lemma flat_app (sp : unit_marker -> string) (a b : list item) :
  flat sp (a ++ b) = flat sp a ++ flat sp b.
Proof.
  induction a as [|[c|u] a IH]; simpl; [reflexivity | congruence |].
  rewrite IH. now rewrite app_assoc_str.
Qed.

Lemma flat_chars (sp : unit_marker -> string) (s : string) :
  flat sp (chars s) = s.
Proof. induction s; simpl; congruence. Qed.

Lemma flat_items (t0 : token) (l : list (string * token)) :
  flat spell (items t0 l) = render t0 l.
Proof.
  assert (Ht : forall t, flat spell (token_items t) = token_text t).
  { intros t. unfold token_items, token_text.
    rewrite flat_app, flat_chars. simpl. now rewrite app_nil_r_str. }
  unfold items, render. rewrite flat_app, Ht. f_equal.
  induction l as [|[sep t] l IH]; simpl; [reflexivity|].
  now rewrite !flat_app, flat_chars, Ht, IH.
Qed.

Lemma replace_flat (old new : string) (sp sp' : unit_marker -> string) :
  old <> "" ->
  (forall c, neutral c = true -> has_char c old = false) ->
  (forall u, Str.replace old new (sp u) = sp' u) ->
  forall l, items_ok l = true -> Str.replace old new (flat sp l) = flat sp' l.
Proof.
  intros Hne Hn Hsp.
  assert (Hch : forall c s, neutral c = true ->
            Str.replace old new (String c s) = String c (Str.replace old new s)).
  { intros c s Hc. change (String c s) with ("" ++ String c s).
    rewrite replace_cut by auto. reflexivity. }
  induction l as [|i l IH]; intros Hok; [reflexivity|].
  destruct i as [c|u]; simpl in Hok; apply andb_true_iff in Hok;
    destruct Hok as [H1 H2].
  - cbn [flat]. rewrite Hch by assumption. now rewrite IH.
  - destruct l as [|[c|u'] l']; [| |discriminate].
    + cbn [flat]. rewrite !app_nil_r_str. apply Hsp.
    + specialize (IH H2). cbn [flat] in *.
      simpl in H2. apply andb_true_iff in H2. destruct H2 as [Hc _].
      rewrite replace_cut by auto. rewrite Hsp.
      rewrite Hch in IH by assumption. now rewrite IH.
Qed.

Lemma lower_flat (l : list item) :
  items_ok l = true -> Str.lower (flat spell l) = flat spell l.
Proof.
  induction l as [|[c|u] l IH]; intros Hok; [reflexivity | |];
    simpl in Hok; apply andb_true_iff in Hok; destruct Hok as [H1 H2].
  - simpl. rewrite neutral_lower by assumption. now rewrite IH.
  - cbn [flat]. rewrite lower_app, IH by assumption.
    f_equal. destruct u; reflexivity.
Qed.

Lemma plain_flat (l : list item) :
  items_ok l = true -> plain (flat spell l) = true.
Proof.
  induction l as [|[c|u] l IH]; intros Hok; [reflexivity | |];
    simpl in Hok; apply andb_true_iff in Hok; destruct Hok as [H1 H2].
  - simpl. rewrite neutral_ascii by assumption. auto.
  - specialize (IH H2). destruct u; simpl; exact IH.
Qed.

Lemma scan_cons (ch : ascii) (rest : string) (st : pstate) :
  scan (String ch rest) st
  = if Str.isdigit ch then scan rest (push_digit ch st)
    else if (ch =? "h")%char then rbind (hour_marker st) (scan rest)
    else if Str.startswith (String ch rest) "min" then
      rbind (minute_marker DigitsBeforeMin st)
            (scan (match rest with
                   | String _ (String _ rest') => rest'
                   | _ => rest
                   end))
    else if (ch =? "m")%char then
      rbind (minute_marker DigitsBeforeM st) (scan rest)
    else if is_sep ch then scan rest st
    else Raise (ValueError BadDuration).
Proof. reflexivity. Qed.

Lemma scan_h (r : string) (st : pstate) :
  scan (String "h" r) st = rbind (hour_marker st) (scan r).
Proof. reflexivity. Qed.

Lemma scan_min (r : string) (st : pstate) :
  scan ("min" ++ r) st = rbind (minute_marker DigitsBeforeMin st) (scan r).
Proof.
  assert (H : Str.startswith ("min" ++ r) "min" = true)
    by (destruct r; reflexivity).
  cbn [append] in *. rewrite scan_cons, H. reflexivity.
Qed.

Lemma scan_m (r : string) (st : pstate) :
  Str.startswith ("m" ++ r) "min" = false ->
  scan ("m" ++ r) st = rbind (minute_marker DigitsBeforeM st) (scan r).
Proof.
  intros H. cbn [append] in *. rewrite scan_cons, H. reflexivity.
Qed.

Lemma scan_flat (l : list item) :
  items_ok l = true ->
  forall st, scan (flat spell3 l) st = run_items l st.
Proof.
  induction l as [|[c|u] l IH]; intros Hok st; [reflexivity | |];
    simpl in Hok; apply andb_true_iff in Hok; destruct Hok as [H1 H2].
  - cbn [flat run_items scan].
    destruct (Str.isdigit c) eqn:Hd; [now apply IH|].
    unfold neutral in H1. rewrite Hd in H1. simpl in H1.
    destruct (sep_scan_facts c H1) as (_ & Hh & Hm).
    rewrite Hh, H1.
    assert (Hp : Str.startswith (String c (flat spell3 l)) "min" = false).
    { unfold Str.startswith. rewrite prefix_cons.
      destruct (ascii_dec "m" c) as [<-|]; [discriminate | reflexivity]. }
    rewrite Hp, Hm. now apply IH.
  - specialize (IH H2).
    assert (Hm : spell3 u = "m" ->
              Str.startswith ("m" ++ flat spell3 l) "min" = false).
    { intros _. destruct l as [|[c|u'] l']; [reflexivity | | discriminate].
      simpl in H2. apply andb_true_iff in H2. destruct H2 as [Hc _].
      apply neutral_not_i in Hc. unfold Str.startswith.
      cbn [flat append]. rewrite !prefix_cons.
      destruct (ascii_dec "m" "m"); [|reflexivity].
      destruct (ascii_dec "i" c) as [<-|]; [discriminate | reflexivity]. }
    destruct u; cbn [flat run_items apply_marker spell3] in *;
      [ change ("h" ++ flat spell3 l) with (String "h" (flat spell3 l));
        rewrite scan_h
      | rewrite scan_m by (apply Hm; reflexivity)
      | rewrite scan_min .. ];
      apply rbind_ext; exact IH.
Qed.

Lemma run_items_app (a b : list item) (st : pstate) :
  run_items (a ++ b) st = rbind (run_items a st) (run_items b).
Proof.
  revert st. induction a as [|[c|u] a IH]; intros st; simpl; auto.
  - destruct (Str.isdigit c); apply IH.
  - destruct (apply_marker u st); simpl; auto.
Qed.

Lemma run_digits (d : string) :
  Str.all_digits d = true ->
  forall st, run_items (chars d) st = OK (with_buf (ps_buf st ++ d) st).
Proof.
  induction d as [|c d IH]; intros Hd st; simpl.
  - rewrite app_nil_r_str. now destruct st.
  - simpl in Hd. apply andb_true_iff in Hd. destruct Hd as [Hc Hd].
    rewrite Hc, IH by assumption. unfold with_buf, push_digit. simpl.
    now rewrite app_assoc_str.
Qed.

Lemma run_seps (s : string) :
  all_seps s = true -> forall st, run_items (chars s) st = OK st.
Proof.
  induction s as [|c s IH]; intros Hs st; simpl; [reflexivity|].
  simpl in Hs. apply andb_true_iff in Hs. destruct Hs as [Hc Hs].
  destruct (sep_scan_facts c Hc) as (-> & _). now apply IH.
Qed.

Lemma int_short (d : string) :
  Z.of_nat (String.length d) <= Str.int_max_str_digits ->
  Str.int d = OK (Str.int_value d).
Proof.
  intros H. unfold Str.int.
  now replace (Str.int_max_str_digits <? Z.of_nat (String.length d))
    with false by (symmetry; apply Z.ltb_ge; exact H).
Qed.

Lemma int_long (d : string) :
  Str.int_max_str_digits < Z.of_nat (String.length d) ->
  Str.int d = Raise (ValueError IntDigitsLimit).
Proof.
  intros H. unfold Str.int.
  now replace (Str.int_max_str_digits <? Z.of_nat (String.length d))
    with true by (symmetry; apply Z.ltb_lt; exact H).
Qed.

Lemma run_token (t : token) (st : pstate) :
  token_ok t = true -> token_short t = true -> ps_buf st = "" ->
  exists st', run_items (token_items t) st = OK st'
              /\ ps_buf st' = ""
              /\ counted st' = counted st + token_seconds t.
Proof.
  intros Hok Hs Hb. unfold token_ok in Hok. apply andb_true_iff in Hok.
  destruct Hok as [Hne Hd]. unfold token_items.
  rewrite run_items_app, run_digits by assumption. rewrite Hb.
  apply Z.leb_le in Hs. apply int_short in Hs.
  destruct t as [d u]. cbn [tk_digits tk_unit] in *.
  destruct d as [|c d]; [discriminate|].
  unfold token_seconds, counted.
  destruct u;
    cbn [rbind run_items apply_marker hour_marker minute_marker with_buf
         Str.is_empty append ps_buf ps_h ps_m tk_digits tk_unit];
    rewrite Hs; cbn [rbind];
    eexists; (split; [reflexivity|]);
    cbn [ps_buf ps_h ps_m]; (split; [reflexivity | lia]).
Qed.

(** A token of more digits than [int] takes stops the loop. *)
Lemma run_token_long (t : token) (st : pstate) :
  token_ok t = true -> token_short t = false -> ps_buf st = "" ->
  run_items (token_items t) st = Raise (ValueError IntDigitsLimit).
Proof.
  intros Hok Hs Hb. unfold token_ok in Hok. apply andb_true_iff in Hok.
  destruct Hok as [Hne Hd]. unfold token_items.
  rewrite run_items_app, run_digits by assumption. rewrite Hb.
  apply Z.leb_gt in Hs. apply int_long in Hs.
  destruct t as [d u]. cbn [tk_digits tk_unit] in *.
  destruct d as [|c d]; [discriminate|].
  destruct u;
    cbn [rbind run_items apply_marker hour_marker minute_marker with_buf
         Str.is_empty append ps_buf ps_h ps_m tk_digits tk_unit];
    rewrite Hs; reflexivity.
Qed.

Lemma run_rest (l : list (string * token)) :
  forallb (fun st => all_seps (fst st) && token_ok (snd st)) l = true ->
  forallb (fun st => token_short (snd st)) l = true ->
  forall st, ps_buf st = "" ->
  exists st', run_items (rest_items l) st = OK st'
              /\ ps_buf st' = ""
              /\ counted st'
                 = counted st
                   + fold_right (fun st acc => token_seconds (snd st) + acc) 0 l.
Proof.
  induction l as [|[sep t] l IH]; intros Hok Hsh st Hb.
  - exists st. simpl. repeat split; [assumption | lia].
  - simpl in Hok. apply andb_true_iff in Hok. destruct Hok as [Hst Hl].
    apply andb_true_iff in Hst. destruct Hst as [Hsep Ht].
    simpl in Hsh. apply andb_true_iff in Hsh. destruct Hsh as [Hs Hsl].
    destruct (run_token t st Ht Hs Hb) as (st1 & R1 & B1 & C1).
    destruct (IH Hl Hsl st1 B1) as (st2 & R2 & B2 & C2).
    exists st2. cbn [rest_items].
    rewrite run_items_app, run_seps by assumption. simpl.
    rewrite run_items_app, R1. simpl. rewrite R2.
    repeat split; [assumption|]. simpl. lia.
Qed.

Lemma run_rest_long (l : list (string * token)) :
  forallb (fun st => all_seps (fst st) && token_ok (snd st)) l = true ->
  forallb (fun st => token_short (snd st)) l = false ->
  forall st, ps_buf st = "" ->
  run_items (rest_items l) st = Raise (ValueError IntDigitsLimit).
Proof.
  induction l as [|[sep t] l IH]; intros Hok Hsh st Hb; [discriminate|].
  simpl in Hok. apply andb_true_iff in Hok. destruct Hok as [Hst Hl].
  apply andb_true_iff in Hst. destruct Hst as [Hsep Ht].
  cbn [rest_items]. rewrite run_items_app, run_seps by assumption.
  cbn [rbind]. rewrite run_items_app.
  cbn [forallb snd] in Hsh. destruct (token_short t) eqn:Hs.
  - destruct (run_token t st Ht Hs Hb) as (st1 & R1 & B1 & _).
    rewrite R1. cbn [rbind]. now apply IH.
  - now rewrite run_token_long.
Qed.

Lemma run_tokens (t0 : token) (l : list (string * token)) :
  tokens_ok t0 l = true -> tokens_short t0 l = true ->
  exists st, run_items (items t0 l) pstate0 = OK st
             /\ ps_buf st = ""
             /\ counted st = total_seconds_of t0 l.
Proof.
  intros Hok Hsh. unfold tokens_ok in Hok. apply andb_true_iff in Hok.
  destruct Hok as [H0 Hl].
  unfold tokens_short in Hsh. apply andb_true_iff in Hsh.
  destruct Hsh as [S0 Sl].
  destruct (run_token t0 pstate0 H0 S0 eq_refl) as (st1 & R1 & B1 & C1).
  destruct (run_rest l Hl Sl st1 B1) as (st2 & R2 & B2 & C2).
  exists st2. unfold items. rewrite run_items_app, R1. simpl. rewrite R2.
  repeat split; [assumption|]. unfold total_seconds_of.
  rewrite C2, C1. reflexivity.
Qed.

Lemma run_tokens_long (t0 : token) (l : list (string * token)) :
  tokens_ok t0 l = true -> tokens_short t0 l = false ->
  run_items (items t0 l) pstate0 = Raise (ValueError IntDigitsLimit).
Proof.
  intros Hok Hsh. unfold tokens_ok in Hok. apply andb_true_iff in Hok.
  destruct Hok as [H0 Hl]. unfold tokens_short in Hsh.
  unfold items. rewrite run_items_app.
  destruct (token_short t0) eqn:S0.
  - destruct (run_token t0 pstate0 H0 S0 eq_refl) as (st1 & R1 & B1 & _).
    rewrite R1. cbn [rbind]. now apply run_rest_long.
  - now rewrite run_token_long.
Qed.

(** ** The normalization of a duration text *)

Lemma items_ok_chars (s : string) (r : list item) :
  (Str.all_digits s = true \/ all_seps s = true) ->
  items_ok (chars s ++ r) = items_ok r.
Proof.
  induction s as [|c s IH]; intros H; [reflexivity|].
  simpl. unfold neutral.
  destruct H as [H|H]; simpl in H; apply andb_true_iff in H;
    destruct H as [Hc Hs]; rewrite Hc; rewrite IH by auto;
    [reflexivity | now rewrite orb_true_r].
Qed.

Lemma head_ok_chars (s : string) (r : list item) :
  head_ok r = true -> head_ok (chars s ++ r) = true.
Proof. destruct s; auto. Qed.

Lemma items_ok_token (t : token) (r : list item) :
  token_ok t = true -> head_ok r = true -> items_ok r = true ->
  items_ok (token_items t ++ r) = true /\ head_ok (token_items t ++ r) = true.
Proof.
  intros Ht Hh Hr. unfold token_ok in Ht. apply andb_true_iff in Ht.
  destruct Ht as [Hne Hd]. unfold token_items. rewrite <- app_assoc.
  split.
  - rewrite items_ok_chars by auto. simpl. rewrite Hr.
    destruct r as [|[c|u] r]; auto.
  - destruct (tk_digits t); [discriminate | reflexivity].
Qed.

Lemma items_ok_rest (l : list (string * token)) :
  forallb (fun st => all_seps (fst st) && token_ok (snd st)) l = true ->
  items_ok (rest_items l) = true /\ head_ok (rest_items l) = true.
Proof.
  induction l as [|[sep t] l IH]; intros H; [split; reflexivity|].
  simpl in H. apply andb_true_iff in H. destruct H as [Hst Hl].
  apply andb_true_iff in Hst. destruct Hst as [Hsep Ht].
  destruct (IH Hl) as [I1 I2].
  destruct (items_ok_token t (rest_items l) Ht I2 I1) as [J1 J2].
  cbn [rest_items]. split.
  - rewrite items_ok_chars by auto. exact J1.
  - apply head_ok_chars. exact J2.
Qed.

Lemma items_ok_items (t0 : token) (l : list (string * token)) :
  tokens_ok t0 l = true -> items_ok (items t0 l) = true.
Proof.
  intros H. unfold tokens_ok in H. apply andb_true_iff in H.
  destruct H as [H0 Hl]. destruct (items_ok_rest l Hl) as [I1 I2].
  exact (proj1 (items_ok_token t0 _ H0 I2 I1)).
Qed.

Lemma render_ends_with_marker (l : list (string * token)) :
  forall t0, exists a u, render t0 l = a ++ spell u.
Proof.
  induction l as [|[sep t] l IH]; intros t0.
  - exists (tk_digits t0), (tk_unit t0). unfold render, token_text. simpl.
    now rewrite app_nil_r_str.
  - destruct (IH t) as (a & u & E). unfold render in *. cbn [render_rest].
    exists (token_text t0 ++ sep ++ a), u.
    rewrite E. now rewrite !app_assoc_str.
Qed.

Lemma strip_render (t0 : token) (l : list (string * token)) :
  tokens_ok t0 l = true -> Str.strip (render t0 l) = render t0 l.
Proof.
  intros H. unfold Str.strip.
  assert (Hl : Str.lstrip (render t0 l) = render t0 l).
  { unfold tokens_ok, token_ok in H. apply andb_true_iff in H.
    destruct H as [H _]. apply andb_true_iff in H. destruct H as [Hne Hd].
    unfold render, token_text. destruct (tk_digits t0) as [|c d];
      [discriminate|].
    simpl in Hd. apply andb_true_iff in Hd. destruct Hd as [Hc _].
    simpl. now rewrite (neutral_not_space_or_sep c Hc). }
  rewrite Hl. destruct (render_ends_with_marker l t0) as (a & u & ->).
  apply rstrip_app; destruct u; (reflexivity || discriminate).
Qed.

Lemma normalize_render (nfkc : string -> string)
  (t0 : token) (l : list (string * token)) :
  (forall s, plain s = true -> nfkc s = s) ->
  tokens_ok t0 l = true ->
  normalize_duration nfkc (render t0 l) = flat spell3 (items t0 l).
Proof.
  intros Hn Hok. pose proof (items_ok_items t0 l Hok) as Hi.
  unfold normalize_duration.
  rewrite Hn by (rewrite <- flat_items; now apply plain_flat).
  rewrite strip_render by assumption.
  rewrite <- flat_items, lower_flat by assumption.
  rewrite (replace_flat "minutes" "min" spell
             (fun u => match u with UnitMinutes => "min" | _ => spell u end));
    [| discriminate | exact neutral_not_in_minutes
     | intros u; destruct u; reflexivity | assumption].
  rewrite (replace_flat "minute" "min" _
             (fun u => match u with
                       | UnitMinutes | UnitMinute => "min"
                       | _ => spell u
                       end));
    [| discriminate | exact neutral_not_in_minute
     | intros u; destruct u; reflexivity | assumption].
  apply replace_flat;
    [ discriminate | exact neutral_not_in_fun
    | intros u; destruct u; reflexivity | assumption ].
Qed.

Lemma finish_no_buf (st : pstate) :
  ps_buf st = "" -> finish st = timedelta_hm (ps_h st) (ps_m st).
Proof. intros H. unfold finish. now rewrite H. Qed.

Lemma parse_delta_render (nfkc : string -> string)
  (t0 : token) (l : list (string * token)) :
  (forall s, plain s = true -> nfkc s = s) ->
  tokens_ok t0 l = true -> tokens_short t0 l = true ->
  parse_delta nfkc (render t0 l) = timedelta_of_seconds (total_seconds_of t0 l).
Proof.
  intros Hn Hok Hsh. unfold parse_delta.
  rewrite normalize_render by assumption.
  rewrite scan_flat by now apply items_ok_items.
  destruct (run_tokens t0 l Hok Hsh) as (st & R & B & C).
  rewrite R. cbn [rbind]. rewrite finish_no_buf by assumption.
  unfold timedelta_hm. unfold counted in C. now rewrite C.
Qed.

Lemma parse_delta_render_long (nfkc : string -> string)
  (t0 : token) (l : list (string * token)) :
  (forall s, plain s = true -> nfkc s = s) ->
  tokens_ok t0 l = true -> tokens_short t0 l = false ->
  parse_delta nfkc (render t0 l) = Raise (ValueError IntDigitsLimit).
Proof.
  intros Hn Hok Hsh. unfold parse_delta.
  rewrite normalize_render by assumption.
  rewrite scan_flat by now apply items_ok_items.
  now rewrite run_tokens_long.
Qed.

Lemma digit_value_nonneg (c : ascii) :
  Str.isdigit c = true -> 0 <= Str.digit_value c.
Proof. by_cases_on_char c. Qed.

Lemma int_from_nonneg (d : string) :
  Str.all_digits d = true -> forall acc, 0 <= acc -> 0 <= Str.int_from acc d.
Proof.
  induction d as [|c d IH]; intros H acc Ha; cbn [Str.int_from];
    [assumption|].
  simpl in H. apply andb_true_iff in H. destruct H as [Hc Hd].
  apply IH; [assumption|]. pose proof (digit_value_nonneg c Hc). lia.
Qed.

Lemma token_seconds_nonneg (t : token) :
  token_ok t = true -> 0 <= token_seconds t.
Proof.
  intros H. unfold token_ok in H. apply andb_true_iff in H.
  destruct H as [_ Hd].
  pose proof (int_from_nonneg _ Hd 0 (Z.le_refl 0)) as Hi.
  unfold token_seconds, Str.int_value. destruct (tk_unit t); lia.
Qed.

Lemma total_seconds_nonneg (t0 : token) (l : list (string * token)) :
  tokens_ok t0 l = true -> 0 <= total_seconds_of t0 l.
Proof.
  intros H. unfold tokens_ok in H. apply andb_true_iff in H.
  destruct H as [H0 Hl]. unfold total_seconds_of.
  pose proof (token_seconds_nonneg t0 H0).
  enough (0 <= fold_right (fun st acc => token_seconds (snd st) + acc) 0 l)
    by lia.
  induction l as [|[sep t] l IH]; simpl; [lia|].
  simpl in Hl. apply andb_true_iff in Hl. destruct Hl as [Hst Hl].
  apply andb_true_iff in Hst. destruct Hst as [_ Ht].
  pose proof (token_seconds_nonneg t Ht). specialize (IH Hl). lia.
Qed.

Lemma timedelta_of_seconds_in_range (n : Z) :
  0 <= n -> n / 86400 <= max_days ->
  exists td, timedelta_of_seconds n = OK td /\ whole_seconds td = n
             /\ 0 <= seconds td < 86400 /\ microseconds td = 0.
Proof.
  intros H0 Hr. unfold timedelta_of_seconds.
  assert (0 <= n / 86400) by (apply Z.div_pos; lia).
  replace (n / 86400 >? max_days) with false by (symmetry; lia).
  replace (n / 86400 <? - max_days) with false
    by (symmetry; unfold max_days in *; lia).
  simpl. eexists. split; [reflexivity|]. unfold whole_seconds. simpl.
  pose proof (Z.div_mod n 86400). pose proof (Z.mod_pos_bound n 86400). lia.
Qed.

Lemma timedelta_of_seconds_overflow (n : Z) :
  max_days < n / 86400 -> timedelta_of_seconds n = Raise OverflowError.
Proof.
  intros H. unfold timedelta_of_seconds.
  replace (n / 86400 >? max_days) with true by (symmetry; lia). reflexivity.
Qed.

Lemma tokens_total_only (l l' : list (string * token)) :
  map snd l = map snd l' ->
  fold_right (fun st acc => token_seconds (snd st) + acc) 0 l
  = fold_right (fun st acc => token_seconds (snd st) + acc) 0 l'.
Proof.
  revert l'. induction l as [|x l IH]; intros [|x' l'] H; simpl in *;
    try discriminate; [reflexivity|].
  injection H as Hx Hl. rewrite Hx, (IH l' Hl). reflexivity.
Qed.

(** ** Results and prefixes *)

Lemma rbind_assoc {A B C} (r : result A) (f : A -> result B)
  (g : B -> result C) :
  rbind (rbind r f) g = rbind r (fun a => rbind (f a) g).
Proof. destruct r; reflexivity. Qed.

Lemma prefix_empty (s : string) : prefix "" s = true.
Proof. destruct s; reflexivity. Qed.

(** ** The loop of [parse_delta] on any text *)

(** The loop on a text followed by a text that begins neither with ["in"]
    nor with ["n"]: no ["min"] begins in the first and ends in the second,
    and the loop runs on the one and then on the other. *)
Lemma scan_app_cut (q : string) :
  prefix "in" q = false -> prefix "n" q = false ->
  forall n p st, (String.length p <= n)%nat ->
    scan (p ++ q) st = rbind (scan p st) (scan q).
Proof.
  intros Hin Hn.
  induction n as [|n IH]; intros p st Hl.
  - destruct p; [reflexivity | simpl in Hl; lia].
  - destruct p as [|ch rest]; [reflexivity|].
    assert (Hrest : forall st', scan (rest ++ q) st' = rbind (scan rest st') (scan q))
      by (intros; apply IH; simpl in Hl; lia).
    cbn [append]. rewrite !scan_cons.
    destruct (Str.isdigit ch); [apply Hrest|].
    destruct (ch =? "h")%char.
    { rewrite rbind_assoc. apply rbind_ext. exact Hrest. }
    unfold Str.startswith.
    destruct rest as [|x [|y r]]; cbn [append].
    + rewrite !prefix_cons. destruct (ascii_dec "m" ch).
      * rewrite Hin. cbn [prefix].
        destruct (ch =? "m")%char;
          [rewrite rbind_assoc; apply rbind_ext; exact Hrest|].
        destruct (is_sep ch); [apply Hrest | reflexivity].
      * destruct (ch =? "m")%char;
          [rewrite rbind_assoc; apply rbind_ext; exact Hrest|].
        destruct (is_sep ch); [apply Hrest | reflexivity].
    + rewrite !prefix_cons.
      destruct (ascii_dec "m" ch); [destruct (ascii_dec "i" x)|];
        try rewrite Hn; cbn [prefix];
        (destruct (ch =? "m")%char;
          [rewrite rbind_assoc; apply rbind_ext; exact Hrest|];
         destruct (is_sep ch); [apply Hrest | reflexivity]).
    + rewrite !prefix_cons, !prefix_empty.
      destruct (ascii_dec "m" ch);
        [destruct (ascii_dec "i" x); [destruct (ascii_dec "n" y)|]|];
        try (rewrite rbind_assoc; apply rbind_ext; intros;
             apply IH; simpl in Hl; lia);
        (destruct (ch =? "m")%char;
          [rewrite rbind_assoc; apply rbind_ext; exact Hrest|];
         destruct (is_sep ch); [apply Hrest | reflexivity]).
Qed.

Lemma head_cuts (c : ascii) (r : string) :
  (c =? "i")%char = false -> (c =? "n")%char = false ->
  prefix "in" (String c r) = false /\ prefix "n" (String c r) = false.
Proof.
  intros Hi Hn. rewrite !prefix_cons.
  split; [destruct (ascii_dec "i" c) as [<-|] | destruct (ascii_dec "n" c) as [<-|]];
    (discriminate || reflexivity).
Qed.

Lemma all_digits_app (a b : string) :
  Str.all_digits (a ++ b) = Str.all_digits a && Str.all_digits b.
Proof.
  induction a as [|c a IH]; [reflexivity|]. cbn [append Str.all_digits].
  now rewrite IH, andb_assoc.
Qed.

Lemma int_nonneg (d : string) :
  Str.all_digits d = true -> 0 <= Str.int_value d.
Proof. intros H. apply int_from_nonneg; [assumption | lia]. Qed.

Lemma int_cases (d : string) :
  Str.int d = OK (Str.int_value d)
  \/ Str.int d = Raise (ValueError IntDigitsLimit).
Proof. unfold Str.int. destruct (_ <? _); auto. Qed.

(** What a marker that is accepted does to the loop variables. *)
Lemma hour_marker_ok (st st' : pstate) :
  hour_marker st = OK st' ->
  st' = mk_pstate (ps_h st + Str.int_value (ps_buf st)) (ps_m st) "" LastH.
Proof.
  unfold hour_marker. destruct (Str.is_empty (ps_buf st)); [discriminate|].
  destruct (int_cases (ps_buf st)) as [-> | ->]; cbn [rbind]; congruence.
Qed.

Lemma minute_marker_ok (e : value_error) (st st' : pstate) :
  minute_marker e st = OK st' ->
  st' = mk_pstate (ps_h st) (ps_m st + Str.int_value (ps_buf st)) "" LastM.
Proof.
  unfold minute_marker. destruct (Str.is_empty (ps_buf st)); [discriminate|].
  destruct (int_cases (ps_buf st)) as [-> | ->]; cbn [rbind]; congruence.
Qed.

Lemma marker_keeps_ok (st : pstate) :
  pstate_ok st ->
  (forall st', hour_marker st = OK st' -> pstate_ok st')
  /\ (forall e st', minute_marker e st = OK st' -> pstate_ok st').
Proof.
  intros (Hh & Hm & Hb). pose proof (int_nonneg _ Hb).
  split; [|intros e]; intros st' E;
    [apply hour_marker_ok in E | apply minute_marker_ok in E]; subst st';
    unfold pstate_ok; cbn [ps_h ps_m ps_buf Str.all_digits];
    repeat split; (assumption || lia).
Qed.

Lemma marker_raises (st : pstate) (ex : exn) :
  (hour_marker st = Raise ex -> from_loop ex)
  /\ (forall e, e <> YearOutOfRange ->
        minute_marker e st = Raise ex -> from_loop ex).
Proof.
  unfold hour_marker, minute_marker, from_loop.
  split; [|intros e He]; (destruct (Str.is_empty (ps_buf st));
    [intros E; injection E as <-; eexists; split;
       [reflexivity | (discriminate || assumption)]|]);
    destruct (int_cases (ps_buf st)) as [-> | ->]; cbn [rbind];
    try discriminate; intros E; injection E as <-;
    eexists; (split; [reflexivity | discriminate]).
Qed.

(** The loop keeps its counts non-negative and only digits pending, and
    raises nothing but [ValueError]. *)
Lemma scan_keeps_ok :
  forall n s st, (String.length s <= n)%nat -> pstate_ok st ->
    match scan s st with
    | OK st' => pstate_ok st'
    | Raise ex => from_loop ex
    end.
Proof.
  induction n as [|n IH]; intros s st Hl Hok.
  - destruct s; [exact Hok | simpl in Hl; lia].
  - destruct s as [|ch rest]; [exact Hok|]. rewrite scan_cons.
    assert (Hr : forall st', pstate_ok st' ->
              match scan rest st' with
              | OK st'' => pstate_ok st''
              | Raise ex => from_loop ex
              end) by (intros; apply IH; [simpl in Hl; lia | assumption]).
    assert (Hr2 : forall st', pstate_ok st' ->
              match scan (match rest with
                          | String _ (String _ rest') => rest'
                          | _ => rest
                          end) st' with
              | OK st'' => pstate_ok st''
              | Raise ex => from_loop ex
              end).
    { intros st' H'. apply IH; [|assumption].
      destruct rest as [|x [|y r]]; simpl in *; lia. }
    destruct (marker_keeps_ok st Hok) as [Kh Km].
    destruct (Str.isdigit ch) eqn:D.
    { apply Hr. destruct Hok as (Hh & Hm & Hb). unfold pstate_ok, push_digit.
      cbn [ps_h ps_m ps_buf]. rewrite all_digits_app, Hb.
      cbn [Str.all_digits]. now rewrite D. }
    destruct (ch =? "h")%char.
    { destruct (hour_marker st) as [st1|ex] eqn:E; cbn [rbind].
      - apply Hr. now apply Kh.
      - now apply (proj1 (marker_raises st ex)). }
    destruct (Str.startswith (String ch rest) "min").
    { destruct (minute_marker DigitsBeforeMin st) as [st1|ex] eqn:E;
        cbn [rbind].
      - apply Hr2. now apply (Km DigitsBeforeMin).
      - apply (proj2 (marker_raises st ex) DigitsBeforeMin); [discriminate | exact E]. }
    destruct (ch =? "m")%char.
    { destruct (minute_marker DigitsBeforeM st) as [st1|ex] eqn:E;
        cbn [rbind].
      - apply Hr. now apply (Km DigitsBeforeM).
      - apply (proj2 (marker_raises st ex) DigitsBeforeM); [discriminate | exact E]. }
    destruct (is_sep ch); [now apply Hr|].
    exists BadDuration. split; [reflexivity | discriminate].
Qed.

Lemma timedelta_of_seconds_shape (n : Z) :
  0 <= n -> n mod 60 = 0 ->
  match timedelta_of_seconds n with
  | OK td => 0 <= days td <= max_days /\ 0 <= seconds td < 86400
             /\ seconds td mod 60 = 0 /\ microseconds td = 0
             /\ whole_seconds td = n
  | Raise ex => ex = OverflowError
  end.
Proof.
  intros H0 H60. unfold timedelta_of_seconds.
  assert (0 <= n / 86400) by (apply Z.div_pos; lia).
  destruct ((n / 86400 >? max_days) || (n / 86400 <? - max_days)) eqn:E;
    [reflexivity|].
  apply orb_false_iff in E. destruct E as [E1 E2].
  cbn [days seconds microseconds]. unfold whole_seconds.
  cbn [days seconds].
  pose proof (Z.div_mod n 86400). pose proof (Z.mod_pos_bound n 86400).
  repeat split; try lia.
  rewrite Z.mod_mod_divide; [assumption|]. exists 1440. reflexivity.
Qed.

(** What [parse_delta] can end with, on the texts that the methods of
    [Str] read as Python does. *)
Lemma parse_delta_result (nfkc : string -> string) (s : string) :
  match parse_delta nfkc s with
  | OK td => 0 <= days td <= max_days /\ 0 <= seconds td < 86400
             /\ seconds td mod 60 = 0 /\ microseconds td = 0
  | Raise ex => ex = OverflowError \/ from_loop ex
  end.
Proof.
  unfold parse_delta.
  pose proof (scan_keeps_ok _ (normalize_duration nfkc s) pstate0 (le_n _))
    as H.
  destruct (scan (normalize_duration nfkc s) pstate0) as [st|ex];
    cbn [rbind].
  - destruct H as (Hh & Hm & Hb);
      [unfold pstate_ok; cbn; repeat split; lia|].
    pose proof (int_nonneg _ Hb) as Hi.
    unfold finish.
    assert (Hm60 : forall m, 0 <= m ->
              match timedelta_hm (ps_h st) m with
              | OK td => 0 <= days td <= max_days /\ 0 <= seconds td < 86400
                         /\ seconds td mod 60 = 0 /\ microseconds td = 0
              | Raise ex => ex = OverflowError \/ from_loop ex
              end).
    { intros m H0. unfold timedelta_hm.
      pose proof (timedelta_of_seconds_shape (ps_h st * 3600 + m * 60)) as T.
      assert (Hmod : (ps_h st * 3600 + m * 60) mod 60 = 0).
      { replace (ps_h st * 3600 + m * 60) with ((ps_h st * 60 + m) * 60)
          by lia. apply Z_mod_mult. }
      destruct (timedelta_of_seconds (ps_h st * 3600 + m * 60)) as [td|ex].
      - destruct (T ltac:(lia) Hmod) as (A & B & C & D & _). auto.
      - left. apply T; [lia | exact Hmod]. }
    destruct (negb (Str.is_empty (ps_buf st)) && _); cbn [rbind];
      [|now apply Hm60].
    destruct (int_cases (ps_buf st)) as [-> | ->]; cbn [rbind].
    + apply Hm60. lia.
    + right. exists IntDigitsLimit. split; [reflexivity | discriminate].
  - right. apply H. unfold pstate_ok. cbn. repeat split; lia.
Qed.

(** ** The claims on the text helpers *)

Lemma tokens_short_only (l l' : list (string * token)) :
  map snd l = map snd l' ->
  forallb (fun st => token_short (snd st)) l
  = forallb (fun st => token_short (snd st)) l'.
Proof.
  revert l'. induction l as [|x l IH]; intros [|x' l'] H; simpl in *;
    try discriminate; [reflexivity|].
  injection H as Hx Hl. rewrite Hx, (IH l' Hl). reflexivity.
Qed.

(** C3, amended.  A duration text made of hour and minute tokens, with
    any separators between the tokens, parses to the sum of what the
    tokens contribute when no token has more than 4300 digits: it is the
    [timedelta] of that many seconds when the sum is within the range of
    [timedelta], and [OverflowError] otherwise.  With a token of more than
    4300 digits the text is refused with the [ValueError] of [int].  The
    separators do not matter in any of these cases, and ["90min"] and
    ["1h30min"] parse to the same duration. *)
Theorem parse_delta_sums_tokens (nfkc : string -> string) :
  (forall s, plain s = true -> nfkc s = s) ->
  (forall t0 l, tokens_ok t0 l = true -> tokens_short t0 l = true ->
     parse_delta nfkc (render t0 l)
     = timedelta_of_seconds (total_seconds_of t0 l)
     /\ (total_seconds_of t0 l / 86400 <= max_days ->
         exists td, parse_delta nfkc (render t0 l) = OK td
                    /\ whole_seconds td = total_seconds_of t0 l)
     /\ (max_days < total_seconds_of t0 l / 86400 ->
         parse_delta nfkc (render t0 l) = Raise OverflowError))
  /\ (forall t0 l, tokens_ok t0 l = true -> tokens_short t0 l = false ->
        parse_delta nfkc (render t0 l) = Raise (ValueError IntDigitsLimit))
  /\ (forall t0 l l', tokens_ok t0 l = true -> tokens_ok t0 l' = true ->
        map snd l = map snd l' ->
        parse_delta nfkc (render t0 l) = parse_delta nfkc (render t0 l'))
  /\ parse_delta nfkc "90min" = parse_delta nfkc "1h30min".
Proof.
  intros Hn. split; [|split; [|split]].
  - intros t0 l Hok Hsh. split; [|split].
    + now apply parse_delta_render.
    + intros Hr. rewrite parse_delta_render by assumption.
      destruct (timedelta_of_seconds_in_range (total_seconds_of t0 l))
        as (td & E & W & _); [now apply total_seconds_nonneg | assumption |].
      exists td. auto.
    + intros Hr. rewrite parse_delta_render by assumption.
      now apply timedelta_of_seconds_overflow.
  - intros t0 l Hok Hsh. now apply parse_delta_render_long.
  - intros t0 l l' H H' E.
    assert (Es : tokens_short t0 l = tokens_short t0 l')
      by (unfold tokens_short; now rewrite (tokens_short_only l l' E)).
    destruct (tokens_short t0 l) eqn:Hsh.
    + rewrite !parse_delta_render by (assumption || now symmetry).
      unfold total_seconds_of. now rewrite (tokens_total_only l l' E).
    + rewrite !parse_delta_render_long by (assumption || now symmetry).
      reflexivity.
  - change "90min" with (render (mk_token "90" UnitMin) []).
    change "1h30min"
      with (render (mk_token "1" UnitH) [("", mk_token "30" UnitMin)]).
    rewrite !parse_delta_render by (assumption || reflexivity).
    reflexivity.
Qed.

Lemma parse_delta_sums_tokens_witness :
  parse_delta nfkc_ascii "1h + 30min"
  = timedelta_of_seconds (3600 * 1 + (60 * 30 + 0))
  /\ parse_delta nfkc_ascii "90min" = parse_delta nfkc_ascii "1h30min".
Proof.
  pose proof (parse_delta_sums_tokens nfkc_ascii (fun s _ => eq_refl))
    as (H1 & _ & _ & H3).
  split; [|exact H3].
  exact (proj1 (H1 (mk_token "1" UnitH) [(" + ", mk_token "30" UnitMin)]
                   eq_refl eq_refl)).
Defined.

(** A token of 4300 digits is read, and overflows [timedelta]; a token of
    4301 digits is refused by [int]. *)
Example parse_long_token :
  parse_delta nfkc_ascii (nines 4300 ++ "h") = Raise OverflowError
  /\ parse_delta nfkc_ascii (nines 4301 ++ "h")
     = Raise (ValueError IntDigitsLimit).
Proof. split; vm_compute; reflexivity. Qed.

(** C3, as stated, fails on a text of one token: the sum is beyond the
    range of [timedelta] and the constructor raises. *)
Lemma parse_delta_overflow_example :
  tokens_ok (mk_token "24000000000" UnitH) [] = true
  /\ parse_delta nfkc_ascii "24000000000h" = Raise OverflowError.
Proof. split; reflexivity. Qed.

(** C4, amended.  [parse_delta] applied to the empty text returns the
    zero duration: the loop does not run and nothing is raised. *)
Theorem parse_delta_empty (nfkc : string -> string) :
  nfkc "" = "" ->
  parse_delta nfkc ""
  = OK {| days := 0; seconds := 0; microseconds := 0 |}.
Proof.
  intros H. unfold parse_delta, normalize_duration. rewrite H. reflexivity.
Qed.

Lemma parse_delta_empty_witness :
  parse_delta nfkc_ascii ""
  = OK {| days := 0; seconds := 0; microseconds := 0 |}.
Proof. apply (parse_delta_empty nfkc_ascii). reflexivity. Defined.

(** C4, as stated, fails: the empty text is accepted. *)
Lemma parse_delta_empty_is_accepted :
  is_ok (parse_delta nfkc_ascii "") = true.
Proof. reflexivity. Qed.

(** *** Digits after the last unit marker *)

Lemma neutral_not_n (c : ascii) : neutral c = true -> (c =? "n")%char = false.
Proof. by_cases_on_char c. Qed.

Lemma neutral_cuts (t : string) :
  all_neutral t = true -> prefix "in" t = false /\ prefix "n" t = false.
Proof.
  destruct t as [|c t]; [split; reflexivity|]. intros H.
  cbn [all_neutral] in H. apply andb_true_iff in H. destruct H as [Hc _].
  apply head_cuts; [now apply neutral_not_i | now apply neutral_not_n].
Qed.

Lemma digits_of_all_digits (t : string) :
  Str.all_digits (digits_of t) = true.
Proof.
  induction t as [|c t IH]; [reflexivity|]. cbn [digits_of].
  destruct (Str.isdigit c) eqn:D; [|exact IH].
  cbn [Str.all_digits]. now rewrite D.
Qed.

(** The loop on digits and separators: the digits join the pending
    ones, the separators leave no trace. *)
Lemma scan_neutral (t : string) :
  all_neutral t = true ->
  forall st, scan t st = OK (with_buf (ps_buf st ++ digits_of t) st).
Proof.
  induction t as [|c t IH]; intros H st.
  - cbn [scan digits_of]. rewrite app_nil_r_str. now destruct st.
  - cbn [all_neutral] in H. apply andb_true_iff in H. destruct H as [Hc Ht].
    rewrite scan_cons. cbn [digits_of]. unfold neutral in Hc.
    destruct (Str.isdigit c) eqn:D.
    + rewrite IH by assumption. unfold with_buf, push_digit.
      cbn [ps_h ps_m ps_buf ps_last]. now rewrite app_assoc_str.
    + cbn [orb] in Hc. destruct (sep_scan_facts c Hc) as (_ & Hh & Hm).
      rewrite Hh.
      assert (Hp : Str.startswith (String c t) "min" = false).
      { unfold Str.startswith. rewrite prefix_cons.
        destruct (ascii_dec "m" c) as [<-|]; [discriminate | reflexivity]. }
      rewrite Hp, Hm, Hc. now apply IH.
Qed.

Lemma timedelta_of_seconds_ok (n : Z) (td : timedelta) :
  0 <= n -> timedelta_of_seconds n = OK td ->
  n / 86400 <= max_days /\ whole_seconds td = n.
Proof.
  intros H0 E. unfold timedelta_of_seconds in E.
  destruct ((n / 86400 >? max_days) || (n / 86400 <? - max_days)) eqn:R;
    [discriminate|].
  apply orb_false_iff in R. destruct R as [R _].
  injection E as <-. unfold whole_seconds. cbn [days seconds].
  pose proof (Z.div_mod n 86400). split; lia.
Qed.

(** Pending digits after the loop count as minutes unless the last
    marker was a minute marker. *)
Lemma finish_pending (st : pstate) (td : timedelta) :
  ps_buf st <> "" -> ps_last st <> LastM -> finish st = OK td ->
  timedelta_hm (ps_h st) (ps_m st + Str.int_value (ps_buf st)) = OK td.
Proof.
  intros Hb Hl. unfold finish.
  destruct (ps_buf st) as [|c b] eqn:B; [congruence|].
  cbn [Str.is_empty negb andb].
  destruct (ps_last st); [| |congruence];
    (destruct (int_cases (String c b)) as [-> | ->]; cbn [rbind];
     [trivial | discriminate]).
Qed.

Lemma finish_after_minutes (st : pstate) :
  ps_last st = LastM -> finish st = timedelta_hm (ps_h st) (ps_m st).
Proof. intros H. unfold finish. rewrite H. now rewrite andb_false_r. Qed.

(** The loop up to a marker that the text [q] begins with. *)
Lemma scan_up_to (p q : string) :
  prefix "in" q = false -> prefix "n" q = false ->
  scan (p ++ q) pstate0 = rbind (scan p pstate0) (scan q).
Proof.
  intros C1 C2. exact (scan_app_cut q C1 C2 (String.length p) p pstate0 (le_n _)).
Qed.

Lemma scan_ok_state (s : string) (st : pstate) :
  scan s pstate0 = OK st -> pstate_ok st.
Proof.
  intros E.
  pose proof (scan_keeps_ok _ s pstate0 (le_n _)) as H. rewrite E in H.
  apply H. unfold pstate_ok. cbn. repeat split; lia.
Qed.

(** C5, amended.  In a duration text that parses, the digits that stand
    after the last unit marker, taken together as one number whatever
    separators stand between them, count as minutes when that marker is an
    hour marker and when the text has no unit marker at all: the duration
    is that of the text cut after its last marker, plus that many minutes.
    After a minute marker, ["m"] or ["min"], they count for nothing: the
    duration is that of the text cut after the marker.  The text [s] is
    one that NFKC brings to ASCII characters and the ideograph of the
    minutes, [tail] is what stands after its last unit marker, and [s0] is
    a text that is normalized to [s] cut after that marker. *)
Theorem parse_delta_trailing_digits (nfkc : string -> string)
  (s s0 pre tail : string) (td : timedelta) :
  plain (nfkc s) = true -> plain (nfkc s0) = true ->
  all_neutral tail = true -> digits_of tail <> "" ->
  parse_delta nfkc s = OK td ->
  (normalize_duration nfkc s = tail ->
   whole_seconds td = 60 * Str.int_value (digits_of tail))
  /\ (normalize_duration nfkc s = pre ++ "h" ++ tail ->
      normalize_duration nfkc s0 = pre ++ "h" ->
      exists td0,
        parse_delta nfkc s0 = OK td0
        /\ whole_seconds td
           = whole_seconds td0 + 60 * Str.int_value (digits_of tail))
  /\ (normalize_duration nfkc s = pre ++ "m" ++ tail ->
      normalize_duration nfkc s0 = pre ++ "m" ->
      parse_delta nfkc s0 = OK td)
  /\ (normalize_duration nfkc s = pre ++ "min" ++ tail ->
      normalize_duration nfkc s0 = pre ++ "min" ->
      parse_delta nfkc s0 = OK td).
Proof.
  intros _ _ Hn Hd Hp. unfold parse_delta in *.
  pose proof (int_nonneg _ (digits_of_all_digits tail)) as Hi.
  destruct (neutral_cuts tail Hn) as [T1 T2].
  split; [|split; [|split]].
  - intros Hs. rewrite Hs in Hp. rewrite scan_neutral in Hp by assumption.
    cbn [rbind] in Hp. apply finish_pending in Hp;
      [|exact Hd | discriminate].
    cbn [with_buf pstate0 ps_h ps_m ps_buf append] in Hp.
    unfold timedelta_hm in Hp.
    apply timedelta_of_seconds_ok in Hp; [lia | lia].
  - intros Hs Hs0. rewrite Hs in Hp. rewrite Hs0.
    rewrite scan_up_to in Hp by reflexivity.
    rewrite scan_up_to by reflexivity.
    destruct (scan pre pstate0) as [st0|] eqn:E0; [|discriminate].
    cbn [rbind append] in *. rewrite scan_h in *.
    destruct (hour_marker st0) as [st1|] eqn:E1; [|discriminate].
    pose proof (proj1 (marker_keeps_ok st0 (scan_ok_state _ _ E0)) _ E1)
      as (Hh & Hm & _).
    apply hour_marker_ok in E1.
    cbn [rbind scan] in *. rewrite scan_neutral in Hp by assumption.
    cbn [rbind] in Hp. apply finish_pending in Hp;
      [| subst st1; exact Hd | subst st1; discriminate].
    rewrite finish_no_buf by (now subst st1).
    assert (B : ps_buf st1 = "") by now subst st1.
    unfold with_buf in Hp. cbn [ps_h ps_m ps_buf] in Hp.
    rewrite B in Hp. cbn [append] in Hp.
    unfold timedelta_hm in *.
    apply timedelta_of_seconds_ok in Hp; [|lia]. destruct Hp as [R W].
    destruct (timedelta_of_seconds_in_range (ps_h st1 * 3600 + ps_m st1 * 60))
      as (td0 & E & W0 & _); [lia | |].
    { apply Z.le_trans with (2 := R). apply Z.div_le_mono; lia. }
    exists td0. split; [exact E | lia].
  - intros Hs Hs0. rewrite Hs in Hp. rewrite Hs0.
    assert (Hm : Str.startswith ("m" ++ tail) "min" = false).
    { unfold Str.startswith. cbn [append]. rewrite prefix_cons.
      destruct (ascii_dec "m" "m"); [|reflexivity]. cbn [prefix] in T1.
      exact T1. }
    rewrite scan_up_to in Hp by reflexivity.
    rewrite scan_up_to by reflexivity.
    destruct (scan pre pstate0) as [st0|] eqn:E0; [|discriminate].
    cbn [rbind] in *. rewrite scan_m in Hp by exact Hm.
    change "m" with ("m" ++ ""). rewrite scan_m by reflexivity.
    destruct (minute_marker DigitsBeforeM st0) as [st1|] eqn:E1;
      [|discriminate].
    apply minute_marker_ok in E1.
    cbn [rbind scan] in *. rewrite scan_neutral in Hp by assumption.
    cbn [rbind] in Hp.
    rewrite finish_after_minutes in Hp by (now subst st1).
    rewrite finish_after_minutes by (now subst st1). exact Hp.
  - intros Hs Hs0. rewrite Hs in Hp. rewrite Hs0.
    rewrite scan_up_to in Hp by reflexivity.
    rewrite scan_up_to by reflexivity.
    destruct (scan pre pstate0) as [st0|] eqn:E0; [|discriminate].
    cbn [rbind] in *. rewrite scan_min in Hp.
    change "min" with ("min" ++ ""). rewrite scan_min.
    destruct (minute_marker DigitsBeforeMin st0) as [st1|] eqn:E1;
      [|discriminate].
    apply minute_marker_ok in E1.
    cbn [rbind scan] in *. rewrite scan_neutral in Hp by assumption.
    cbn [rbind] in Hp.
    rewrite finish_after_minutes in Hp by (now subst st1).
    rewrite finish_after_minutes by (now subst st1). exact Hp.
Qed.

Lemma parse_delta_trailing_digits_witness :
  (exists td0,
     parse_delta nfkc_ascii "1h" = OK td0
     /\ whole_seconds {| days := 0; seconds := 35400; microseconds := 0 |}
        = whole_seconds td0 + 60 * Str.int_value "530")
  /\ parse_delta nfkc_ascii "5m"
     = OK {| days := 0; seconds := 300; microseconds := 0 |}.
Proof.
  split.
  - apply (proj1 (proj2 (parse_delta_trailing_digits nfkc_ascii
                           "1h5:30" "1h" "1" "5:30"
                           {| days := 0; seconds := 35400; microseconds := 0 |}
                           eq_refl eq_refl eq_refl ltac:(discriminate)
                           eq_refl)));
      reflexivity.
  - apply (proj1 (proj2 (proj2 (parse_delta_trailing_digits nfkc_ascii
                           "5m30" "5m" "5" "30"
                           {| days := 0; seconds := 300; microseconds := 0 |}
                           eq_refl eq_refl eq_refl ltac:(discriminate)
                           eq_refl))));
      reflexivity.
Defined.

(** Digits that a separator parts are one number: ["5 30"] is five
    hundred and thirty minutes, and the ["5:30"] after ["1h"] as well. *)
Example parse_5_30 :
  parse_delta nfkc_ascii "5 30"
  = OK {| days := 0; seconds := 31800; microseconds := 0 |}
  /\ parse_delta nfkc_ascii "1h5:30"
     = OK {| days := 0; seconds := 35400; microseconds := 0 |}.
Proof. split; reflexivity. Qed.

(** C5, as stated, fails after a minute marker: ["5m30"] is five
    minutes, not thirty-five. *)
Lemma parse_delta_trailing_after_minutes :
  parse_delta nfkc_ascii "5m30"
  = OK {| days := 0; seconds := 300; microseconds := 0 |}
  /\ timedelta_hm 0 (5 + 30)
     = OK {| days := 0; seconds := 2100; microseconds := 0 |}.
Proof. split; reflexivity. Qed.

(** ** The alias resolver *)

Lemma prefix_of_one_name (t : string) :
  t <> "" -> prefix t "alexander" = true -> prefix t "pandemonium" = false.
Proof.
  destruct t as [|c t]; [congruence|]. intros _.
  rewrite !prefix_cons.
  destruct (ascii_dec c "a") as [->|]; [reflexivity | discriminate].
Qed.

(** On an input whose normalized form is not empty, [normalize_fc] is the
    resolver of the specification: exact or alias match, then prefix of
    one canonical name, then the input itself. *)
Lemma normalize_fc_resolves (nfkc : string -> string) (s : string) :
  s <> "" -> Str.lower (Str.strip (nfkc s)) <> "" ->
  normalize_fc nfkc s
  = resolve_group_spec (Str.lower (Str.strip (nfkc s))) s.
Proof.
  intros Hs Ht. unfold normalize_fc. destruct s as [|c s]; [congruence|].
  cbn [Str.is_empty].
  remember (Str.lower (Str.strip (nfkc (String c s)))) as t eqn:Et. clear Et.
  unfold resolve_group_spec, groups, FC_ALIASES.
  cbn [alias_lookup filter canon aliases label].
  destruct (String.eqb t "alexander" || Str.mem t _); [reflexivity|].
  destruct (String.eqb t "pandemonium" || Str.mem t _); [reflexivity|].
  unfold Str.startswith.
  assert (He : Str.is_empty t = false) by (destruct t; [congruence | reflexivity]).
  rewrite He. cbn [negb andb].
  destruct (prefix t "alexander") eqn:Pa.
  - now rewrite (prefix_of_one_name t Ht Pa).
  - destruct (prefix t "pandemonium"); reflexivity.
Qed.

Example normalize_fc_a : normalize_fc nfkc_ascii "a" = "Alexander".
Proof. reflexivity. Qed.

Example normalize_fc_al : normalize_fc nfkc_ascii "al" = "Alexander".
Proof. reflexivity. Qed.

Example normalize_fc_x : normalize_fc nfkc_ascii "x" = "x".
Proof. reflexivity. Qed.

Example normalize_fc_empty : normalize_fc nfkc_ascii "" = "".
Proof. reflexivity. Qed.

(** C10, at the inputs where the code leaves the claim.  A non-empty
    input that is blank after normalization is no prefix match by the
    claim, and would be returned unchanged; [normalize_fc] checks the
    prefix without asking that it be non-empty and answers ["Alexander"]. *)
Theorem normalize_fc_blank (nfkc : string -> string) (s : string) :
  s <> "" -> Str.strip (nfkc s) = "" ->
  normalize_fc nfkc s = "Alexander"
  /\ resolve_group_spec (Str.lower (Str.strip (nfkc s))) s = s.
Proof.
  intros Hs Ht. unfold normalize_fc. destruct s as [|c s]; [congruence|].
  cbn [Str.is_empty]. rewrite Ht. split; reflexivity.
Qed.

Lemma normalize_fc_blank_witness :
  normalize_fc nfkc_ascii " " = "Alexander"
  /\ resolve_group_spec (Str.lower (Str.strip (nfkc_ascii " "))) " " = " ".
Proof.
  apply (normalize_fc_blank nfkc_ascii " "); [discriminate | reflexivity].
Defined.

(** ** Dictionaries *)

Open Scope list_scope.

Lemma dict_get_app_notin {V} (k : string) (a b : dict V) :
  ~ In k (dict_keys a) -> dict_get k (a ++ b) = dict_get k b.
Proof.
  induction a as [|[k' v] a IH]; intros H; simpl; [reflexivity|].
  simpl in H. destruct (String.eqb_spec k k') as [->|]; [tauto|].
  apply IH. tauto.
Qed.

Lemma dict_get_here {V} (k : string) (v : V) (b : dict V) :
  dict_get k ((k, v) :: b) = Some v.
Proof. simpl. now rewrite String.eqb_refl. Qed.

Lemma dict_set_mid {V} (k : string) (v v0 : V) (a b : dict V) :
  ~ In k (dict_keys a) ->
  dict_set k v (a ++ (k, v0) :: b) = a ++ (k, v) :: b.
Proof.
  induction a as [|[k' v'] a IH]; intros H; simpl.
  - now rewrite String.eqb_refl.
  - simpl in H. destruct (String.eqb_spec k k') as [->|]; [tauto|].
    rewrite IH; tauto.
Qed.

Lemma dict_set_new {V} (k : string) (v : V) (a : dict V) :
  ~ In k (dict_keys a) -> dict_set k v a = a ++ [(k, v)].
Proof.
  induction a as [|[k' v'] a IH]; intros H; simpl; [reflexivity|].
  simpl in H. destruct (String.eqb_spec k k') as [->|]; [tauto|].
  rewrite IH; tauto.
Qed.

Lemma dict_del_notin {V} (k : string) (a : dict V) :
  ~ In k (dict_keys a) -> dict_del k a = a.
Proof.
  induction a as [|[k' v'] a IH]; intros H; simpl; [reflexivity|].
  simpl in H. destruct (String.eqb_spec k k') as [->|]; [tauto|].
  simpl. rewrite IH; tauto.
Qed.

Lemma dict_del_app {V} (k : string) (a b : dict V) :
  dict_del k (a ++ b) = dict_del k a ++ dict_del k b.
Proof. apply filter_app. Qed.

Lemma dict_del_mid {V} (k : string) (v : V) (a b : dict V) :
  ~ In k (dict_keys a) -> ~ In k (dict_keys b) ->
  dict_del k (a ++ (k, v) :: b) = a ++ b.
Proof.
  intros Ha Hb. rewrite dict_del_app. simpl. rewrite String.eqb_refl. simpl.
  now rewrite !dict_del_notin.
Qed.

Lemma dict_mid_keys {V} (k : string) (v : V) (a b : dict V) :
  is_dict (a ++ (k, v) :: b) ->
  ~ In k (dict_keys a) /\ ~ In k (dict_keys b).
Proof.
  unfold is_dict, dict_keys. rewrite map_app. simpl. intros H.
  apply NoDup_remove_2 in H. rewrite in_app_iff in H. tauto.
Qed.

Lemma is_dict_drop {V} (x : string * V) (a b : dict V) :
  is_dict (a ++ x :: b) -> is_dict (a ++ b).
Proof.
  unfold is_dict, dict_keys. rewrite !map_app. simpl.
  apply NoDup_remove_1.
Qed.

Lemma dict_get_in {V} (k : string) (v : V) (d : dict V) :
  dict_get k d = Some v -> In (k, v) d.
Proof.
  induction d as [|[k' v'] d IH]; simpl; [discriminate|].
  destruct (String.eqb_spec k k') as [->|]; intros H.
  - injection H as ->. now left.
  - right. auto.
Qed.

Lemma in_dict_get {V} (k : string) (v : V) (d : dict V) :
  is_dict d -> In (k, v) d -> dict_get k d = Some v.
Proof.
  induction d as [|[k' v'] d IH]; intros Hd H; [contradiction|].
  unfold is_dict in Hd. simpl in Hd. inversion Hd as [|? ? Hn Hd']; subst.
  simpl. destruct H as [H|H].
  - injection H as -> ->. now rewrite String.eqb_refl.
  - destruct (String.eqb_spec k k') as [->|]; [|now apply IH].
    exfalso. apply Hn. change k' with (fst (k', v)). now apply in_map.
Qed.

Lemma dict_mem_in {V} (k : string) (d : dict V) :
  dict_mem k d = true <-> In k (dict_keys d).
Proof.
  unfold dict_mem. induction d as [|[k' v'] d IH]; simpl.
  - split; [discriminate | contradiction].
  - destruct (String.eqb_spec k k') as [->|].
    + split; auto.
    + rewrite IH. split; [auto | intros [H|H]; congruence].
Qed.

Lemma dict_set_in {V} (k : string) (v : V) (d : dict V) (k' : string) (v' : V) :
  In (k', v') (dict_set k v d) -> (k' = k /\ v' = v) \/ In (k', v') d.
Proof.
  induction d as [|[k0 v0] d IH]; simpl.
  - intros [H|[]]. injection H as <- <-. now left.
  - destruct (String.eqb_spec k k0) as [->|]; simpl.
    + intros [H|H]; [injection H as <- <-; now left | auto].
    + intros [H|H]; [auto|]. destruct (IH H); auto.
Qed.

Lemma dict_set_keys {V} (k : string) (v : V) (d : dict V) :
  dict_keys (dict_set k v d)
  = if dict_mem k d then dict_keys d else dict_keys d ++ [k].
Proof.
  unfold dict_mem. induction d as [|[k0 v0] d IH]; simpl; [reflexivity|].
  destruct (String.eqb_spec k k0) as [->|]; simpl; [reflexivity|].
  rewrite IH. now destruct (dict_get k d).
Qed.

Lemma is_dict_set {V} (k : string) (v : V) (d : dict V) :
  is_dict d -> is_dict (dict_set k v d).
Proof.
  unfold is_dict. rewrite dict_set_keys. intros H.
  destruct (dict_mem k d) eqn:E; [assumption|].
  apply NoDup_app; [assumption | repeat constructor; auto |].
  intros x Hx [<-|[]]. apply dict_mem_in in Hx. congruence.
Qed.

Lemma dict_get_set {V} (k : string) (v : V) (d : dict V) (k' : string) :
  dict_get k' (dict_set k v d)
  = if String.eqb k' k then Some v else dict_get k' d.
Proof.
  induction d as [|[k0 v0] d IH]; simpl.
  - now destruct (String.eqb k' k).
  - destruct (String.eqb_spec k k0) as [->|]; simpl.
    + now destruct (String.eqb k' k0).
    + rewrite IH. destruct (String.eqb_spec k' k0) as [->|]; [|reflexivity].
      destruct (String.eqb_spec k0 k); congruence.
Qed.

Lemma dict_del_in {V} (k : string) (d : dict V) (x : string * V) :
  In x (dict_del k d) -> In x d.
Proof. unfold dict_del. rewrite filter_In. tauto. Qed.

Lemma is_dict_filter {V} (f : string * V -> bool) (d : dict V) :
  is_dict d -> is_dict (filter f d).
Proof.
  unfold is_dict, dict_keys. induction d as [|x d IH]; simpl; intros H;
    [constructor|].
  inversion H as [|? ? Hn Hd]; subst. destruct (f x); simpl; [|auto].
  constructor; [|auto]. intros Hin. apply Hn.
  apply in_map_iff in Hin. destruct Hin as (y & <- & Hy).
  apply filter_In in Hy. apply in_map. tauto.
Qed.

Lemma store_ok_filter (f : string * Task -> bool) (d : dict Task) :
  store_ok d -> store_ok (filter f d).
Proof.
  intros [H1 H2]. split; [now apply is_dict_filter|].
  intros k t H. apply filter_In in H. apply H2. tauto.
Qed.

Lemma store_ok_set (k : string) (t : Task) (d : dict Task) :
  store_ok d -> id t = k -> store_ok (dict_set k t d).
Proof.
  intros [H1 H2] Hk. split; [now apply is_dict_set|].
  intros k' t' H. destruct (dict_set_in _ _ _ _ _ H) as [[-> ->]|H'];
    [assumption | now apply H2].
Qed.

(** ** The store and the scheduler *)

Lemma writes_app (a b : list event) :
  writes (a ++ b) = (writes a + writes b)%nat.
Proof. unfold writes. now rewrite filter_app, length_app. Qed.

Lemma sent_app (a b : list event) : sent (a ++ b) = sent a ++ sent b.
Proof. unfold sent. apply flat_map_app. Qed.

Lemma remove_present (tid : string) (w : world) :
  dict_mem tid (tasks w) = true ->
  TaskStore_remove tid w
  = (OK tt,
     mk_world (dict_del tid (tasks w))
              (Some (snapshot (dict_del tid (tasks w))))
              (io w ++ [Write (snapshot (dict_del tid (tasks w)))])).
Proof.
  intros H. unfold TaskStore_remove, bind, gets. rewrite H. reflexivity.
Qed.

Lemma remove_absent (tid : string) (w : world) :
  dict_mem tid (tasks w) = false -> TaskStore_remove tid w = (OK tt, w).
Proof.
  intros H. unfold TaskStore_remove, bind, gets. rewrite H. reflexivity.
Qed.

Lemma dict_mem_mid {V} (k : string) (v : V) (a b : dict V) :
  dict_mem k (a ++ (k, v) :: b) = true.
Proof.
  apply dict_mem_in. unfold dict_keys. rewrite map_app, in_app_iff.
  right. now left.
Qed.

Lemma due_not_done (now : float) (t : Task) :
  due now t = true -> done_arrive t = false.
Proof.
  unfold due. destruct (done_arrive t); [discriminate | reflexivity].
Qed.

(** One turn of the [for] loop on a task for which the sink does not
    raise: the task stays as it is when it neither is due nor carries the
    flag, and leaves the store, with one write of the file, otherwise. *)
Lemma visit_quiet (e : env) (now : float) (k : string) (t : Task)
  (c : bool) (w : world) (kept post : dict Task) :
  tasks w = kept ++ (k, t) :: post -> is_dict (tasks w) -> id t = k ->
  ~ sink_fails e now t ->
  exists w',
    visit e now (k, t) c w = (OK (c || due now t), w')
    /\ tasks w' = kept ++ (if leaves now t then [] else [(k, t)]) ++ post
    /\ writes (io w') = (writes (io w) + (if leaves now t then 1 else 0))%nat
    /\ sent (io w')
       = sent (io w)
         ++ (if due now t && is_text_channel e (channel_id t)
             then [(channel_id t, t)] else [])
    /\ disk w' = if leaves now t then Some (snapshot (tasks w')) else disk w.
Proof.
  intros Hw Hd Hid Hq. rewrite Hw in Hd.
  destruct (dict_mid_keys _ _ _ _ Hd) as [Ha Hb].
  unfold visit, leaves. destruct (due now t) eqn:D.
  - assert (Hs : is_text_channel e (channel_id t) = true ->
                 send_ok e (channel_id t) t = true).
    { intros Ht. destruct (send_ok e (channel_id t) t) eqn:S; [reflexivity|].
      exfalso. apply Hq. repeat split; assumption. }
    set (t' := set_done_arrive true t).
    assert (Hrm : forall w1, tasks w1 = kept ++ (k, t) :: post ->
      exists w',
        bind (bind (mark_delivered k t) (fun t' => ret (t', true)))
             (fun r => bind (if done_arrive (fst r)
                             then TaskStore_remove (id (fst r)) else ret tt)
                            (fun _ => ret (snd r))) w1
        = (OK true, w')
        /\ tasks w' = kept ++ post
        /\ io w' = io w1 ++ [Write (snapshot (kept ++ post))]
        /\ disk w' = Some (snapshot (kept ++ post))).
    { intros w1 H1. unfold bind at 1 2. unfold mark_delivered, bind, set_tasks, ret.
      cbn [fst snd tasks disk io]. rewrite H1, dict_mem_mid, dict_set_mid by assumption.
      cbn [done_arrive set_done_arrive id]. rewrite Hid.
      rewrite remove_present by (cbn [tasks]; apply dict_mem_mid).
      cbn [tasks disk io]. rewrite dict_del_mid by assumption.
      eexists. split; [reflexivity|]. cbn [tasks disk io]. auto. }
    rewrite orb_true_r. cbn [orb app].
    destruct (is_text_channel e (channel_id t)) eqn:T.
    + unfold send_arrival_notice. rewrite (Hs eq_refl).
      destruct (Hrm (mk_world (tasks w) (disk w)
                       (io w ++ [Send (channel_id t) t])) Hw)
        as (w' & E & Ht & Hio & Hdk).
      exists w'. split.
      { rewrite <- E. unfold bind, emit, ret. reflexivity. }
      rewrite Ht, Hio, Hdk. cbn [io]. rewrite !writes_app, !sent_app.
      cbn. repeat split; rewrite ?app_nil_r; try reflexivity; lia.
    + destruct (Hrm w Hw) as (w' & E & Ht & Hio & Hdk).
      exists w'. split.
      { rewrite <- E. unfold bind, ret. reflexivity. }
      rewrite Ht, Hio, Hdk. rewrite !writes_app, !sent_app.
      cbn. repeat split; rewrite ?app_nil_r; try reflexivity; lia.
  - rewrite orb_false_r. cbn [andb orb].
    unfold bind at 1. unfold ret at 1. cbn [fst snd].
    destruct (done_arrive t) eqn:Dn.
    + unfold bind. rewrite Hid.
      rewrite remove_present by (rewrite Hw; apply dict_mem_mid).
      rewrite Hw, dict_del_mid by assumption.
      eexists. split; [reflexivity|]. cbn [tasks io disk].
      rewrite !writes_app, !sent_app. cbn.
      repeat split; rewrite ?app_nil_r; try reflexivity; lia.
    + exists w. split; [reflexivity|]. rewrite Hw. cbn.
      repeat split; rewrite ?app_nil_r; try reflexivity; lia.
Qed.

Lemma store_ok_drop (x : string * Task) (a b : dict Task) :
  store_ok (a ++ x :: b) -> store_ok (a ++ b).
Proof.
  intros [H1 H2]. split; [now apply is_dict_drop in H1|].
  intros k t H. apply H2. rewrite in_app_iff in *. simpl. tauto.
Qed.

Lemma survivors_all (now : float) (d : dict Task) :
  existsb (fun kt => leaves now (snd kt)) d = false -> survivors now d = d.
Proof.
  induction d as [|x d IH]; simpl; [reflexivity|]. intros H.
  apply orb_false_iff in H. destruct H as [H1 H2].
  unfold survivors in *. simpl. rewrite H1. simpl. now rewrite IH.
Qed.

Lemma sink_quiet_cons (e : env) (now : float) (k : string) (t : Task)
  (d : dict Task) :
  sink_quiet e now ((k, t) :: d) ->
  ~ sink_fails e now t /\ sink_quiet e now d.
Proof.
  intros H. split.
  - intros (D & T & S). rewrite (H k t (or_introl eq_refl) D T) in S.
    discriminate.
  - intros k' t' Hin D T. apply (H k' t'); [now right | assumption..].
Qed.

(** The [for] loop on tasks for which the sink does not raise. *)
Lemma visit_all_quiet (e : env) (now : float) (rest : dict Task) :
  forall (kept post : dict Task) (c : bool) (w : world),
  tasks w = kept ++ rest ++ post -> store_ok (tasks w) ->
  sink_quiet e now rest ->
  exists w',
    visit_all e now rest c w
    = (OK (c || existsb (fun kt => due now (snd kt)) rest), w')
    /\ tasks w' = kept ++ survivors now rest ++ post
    /\ writes (io w')
       = (writes (io w)
          + List.length (filter (fun kt => leaves now (snd kt)) rest))%nat
    /\ sent (io w') = sent (io w) ++ notified e now rest
    /\ disk w' = if existsb (fun kt => leaves now (snd kt)) rest
                 then Some (snapshot (tasks w')) else disk w.
Proof.
  induction rest as [|[k t] rest IH]; intros kept post c w Hw Hok Hq.
  - exists w. cbn. rewrite orb_false_r, app_nil_r.
    repeat split; auto.
  - destruct (sink_quiet_cons _ _ _ _ _ Hq) as [Hq1 Hq2].
    assert (Hid : id t = k).
    { apply (proj2 Hok). rewrite Hw, in_app_iff. right. now left. }
    destruct (visit_quiet e now k t c w kept (rest ++ post) Hw (proj1 Hok)
                Hid Hq1) as (w1 & E1 & T1 & W1 & S1 & D1).
    assert (Hok1 : store_ok (tasks w1)).
    { rewrite T1. rewrite Hw in Hok. destruct (leaves now t).
      - simpl. now apply store_ok_drop in Hok.
      - exact Hok. }
    rewrite app_assoc in T1.
    destruct (IH _ post (c || due now t) w1 T1 Hok1 Hq2)
      as (w2 & E2 & T2 & W2 & S2 & D2).
    exists w2. split.
    { cbn [visit_all]. unfold bind. rewrite E1. rewrite E2.
      cbn [existsb snd]. now rewrite orb_assoc. }
    clear IH. split; [|split; [|split]].
    + rewrite T2. unfold survivors. cbn [filter snd].
      destruct (leaves now t); cbn [negb app].
      * now rewrite app_nil_r.
      * now rewrite <- app_assoc.
    + rewrite W2, W1. cbn [filter snd].
      destruct (leaves now t); cbn [List.length]; lia.
    + rewrite S2, S1. unfold notified. cbn [filter snd].
      destruct (due now t && is_text_channel e (channel_id t));
        cbn [map]; now rewrite <- app_assoc.
    + rewrite D2. cbn [existsb snd].
      destruct (leaves now t) eqn:L; cbn [orb].
      * destruct (existsb (fun kt => leaves now (snd kt)) rest) eqn:X;
          [reflexivity|].
        rewrite D1. f_equal. f_equal. rewrite T1, T2.
        now rewrite survivors_all.
      * now rewrite D1.
Qed.

Lemma visit_raises (e : env) (now : float) (k : string) (t : Task)
  (c : bool) (w : world) :
  sink_fails e now t -> visit e now (k, t) c w = (Raise HTTPException, w).
Proof.
  intros (D & T & S). unfold visit, bind, send_arrival_notice, raise.
  now rewrite D, T, S.
Qed.

Lemma visit_all_app (e : env) (now : float) (a b : dict Task) :
  forall (c : bool) (w : world),
  visit_all e now (a ++ b) c w
  = bind (visit_all e now a c) (fun c' => visit_all e now b c') w.
Proof.
  induction a as [|x a IH]; intros c w; [reflexivity|].
  cbn [app visit_all]. unfold bind.
  destruct (visit e now x c w) as [[c1|ex] w1]; [|reflexivity].
  rewrite IH. reflexivity.
Qed.

Lemma first_failure (e : env) (now : float) (d : dict Task) :
  sink_quiet e now d
  \/ exists pre k t post,
       d = pre ++ (k, t) :: post /\ sink_quiet e now pre
       /\ sink_fails e now t.
Proof.
  induction d as [|[k t] d IH].
  - left. intros k t [].
  - destruct (due now t && is_text_channel e (channel_id t)
              && negb (send_ok e (channel_id t) t)) eqn:F.
    + right. exists [], k, t, d.
      apply andb_true_iff in F. destruct F as [F S].
      apply andb_true_iff in F. destruct F as [D T].
      apply negb_true_iff in S.
      repeat split; auto. intros k' t' [].
    + assert (Hh : forall k' t', (k', t') = (k, t) -> due now t' = true ->
                is_text_channel e (channel_id t') = true ->
                send_ok e (channel_id t') t' = true).
      { intros k' t' E D T. injection E as -> ->. rewrite D, T in F.
        simpl in F. now apply negb_false_iff in F. }
      destruct IH as [Q|(pre & k1 & t1 & post & E & Q & Fl)].
      * left. intros k' t' [H|H] D T;
          [apply (Hh k' t'); auto | now apply (Q k' t')].
      * right. exists ((k, t) :: pre), k1, t1, post. rewrite E.
        repeat split; try apply Fl.
        intros k' t' [H|H] D T;
          [apply (Hh k' t'); auto | now apply (Q k' t')].
Qed.

(** A turn of the scheduler in which the sink does not raise. *)
Lemma tick_quiet (e : env) (now : float) (w : world) :
  store_ok (tasks w) -> sink_quiet e now (tasks w) ->
  exists w',
    schedule_tick e now w = (OK tt, w')
    /\ tasks w' = survivors now (tasks w)
    /\ writes (io w')
       = (writes (io w)
          + List.length (filter (fun kt => leaves now (snd kt)) (tasks w))
          + (if existsb (fun kt => due now (snd kt)) (tasks w)
             then 1 else 0))%nat
    /\ sent (io w') = sent (io w) ++ notified e now (tasks w)
    /\ disk w' = if existsb (fun kt => leaves now (snd kt)) (tasks w)
                 then Some (snapshot (tasks w')) else disk w.
Proof.
  intros Hok Hq.
  destruct (visit_all_quiet e now (tasks w) [] [] false w) as
    (w1 & E & T & W & S & D); [now rewrite app_nil_r | assumption.. |].
  rewrite app_nil_r in T. cbn [app orb] in *.
  unfold schedule_tick, bind, gets. rewrite E.
  destruct (existsb (fun kt => due now (snd kt)) (tasks w)) eqn:X.
  - eexists. split; [reflexivity|]. cbn [tasks io disk].
    rewrite writes_app, sent_app, W, S, T. cbn.
    repeat split; rewrite ?app_nil_r; try reflexivity; try lia.
    destruct (existsb (fun kt => leaves now (snd kt)) (tasks w)) eqn:Y;
      [reflexivity|].
    exfalso. apply existsb_exists in X. destruct X as (x & Hx & Dx).
    assert (existsb (fun kt => leaves now (snd kt)) (tasks w) = true).
    { apply existsb_exists. exists x. unfold leaves. now rewrite Dx. }
    congruence.
  - exists w1. split; [reflexivity|]. rewrite W, S, D, T.
    repeat split; lia.
Qed.

(** A turn of the scheduler in which the sink raises for the task [t],
    the first one it raises for. *)
Lemma tick_raises (e : env) (now : float) (w : world)
  (pre post : dict Task) (k : string) (t : Task) :
  tasks w = pre ++ (k, t) :: post -> store_ok (tasks w) ->
  sink_quiet e now pre -> sink_fails e now t ->
  exists w',
    schedule_tick e now w = (Raise HTTPException, w')
    /\ tasks w' = survivors now pre ++ (k, t) :: post
    /\ writes (io w')
       = (writes (io w)
          + List.length (filter (fun kt => leaves now (snd kt)) pre))%nat
    /\ sent (io w') = sent (io w) ++ notified e now pre.
Proof.
  intros Hw Hok Hq Hf.
  destruct (visit_all_quiet e now pre [] ((k, t) :: post) false w) as
    (w1 & E & T & W & S & D); [assumption.. |].
  cbn [app] in T. exists w1.
  unfold schedule_tick, bind, gets. rewrite Hw, visit_all_app.
  unfold bind. rewrite E. cbn [visit_all]. unfold bind.
  rewrite visit_raises by assumption. auto.
Qed.

(** The two outcomes of a turn of the scheduler. *)
Lemma tick_outcome (e : env) (now : float) (w : world) :
  store_ok (tasks w) ->
  (exists w',
     schedule_tick e now w = (OK tt, w')
     /\ sink_quiet e now (tasks w)
     /\ tasks w' = survivors now (tasks w))
  \/ (exists w' pre k t post,
        schedule_tick e now w = (Raise HTTPException, w')
        /\ tasks w = pre ++ (k, t) :: post
        /\ sink_quiet e now pre /\ sink_fails e now t
        /\ tasks w' = survivors now pre ++ (k, t) :: post).
Proof.
  intros Hok.
  destruct (first_failure e now (tasks w))
    as [Q|(pre & k & t & post & E & Q & F)].
  - left. destruct (tick_quiet e now w Hok Q) as (w' & R & T & _).
    exists w'. auto.
  - right. destruct (tick_raises e now w pre post k t E Hok Q F)
      as (w' & R & T & _).
    exists w', pre, k, t, post. auto.
Qed.

Lemma survivors_in (now : float) (d : dict Task) (x : string * Task) :
  In x (survivors now d) -> In x d /\ leaves now (snd x) = false.
Proof.
  unfold survivors. rewrite filter_In. intros [H1 H2].
  now apply negb_true_iff in H2.
Qed.

Lemma filter_left_in {A} (f : A -> bool) (a b : list A) (x : A) :
  In x (filter f a ++ b) -> In x (a ++ b).
Proof.
  rewrite !in_app_iff, filter_In. tauto.
Qed.

Lemma store_ok_filter_left (f : string * Task -> bool) (a b : dict Task) :
  store_ok (a ++ b) -> store_ok (filter f a ++ b).
Proof.
  induction a as [|x a IH]; intros Hok; [exact Hok|].
  pose proof (IH (store_ok_drop x [] _ Hok)) as Hl.
  cbn [filter]. destruct (f x); [|exact Hl].
  destruct Hok as [H1 H2]. destruct Hl as [L1 L2]. split.
  - unfold is_dict, dict_keys in *. cbn [app map] in *.
    inversion H1 as [|? ? Hn Hd]; subst. constructor; [|assumption].
    intros Hin. apply Hn. apply in_map_iff in Hin.
    destruct Hin as (y & <- & Hy). apply in_map.
    now apply filter_left_in in Hy.
  - intros k t [H|H]; [apply H2; now left | now apply L2].
Qed.

(** Whatever the sink does, a turn of the scheduler leaves in the store
    only tasks that were there before, as they were. *)
Lemma tick_keeps (e : env) (now : float) (w : world) :
  store_ok (tasks w) ->
  store_ok (tasks (snd (schedule_tick e now w)))
  /\ forall x, In x (tasks (snd (schedule_tick e now w))) -> In x (tasks w).
Proof.
  intros Hok.
  destruct (tick_outcome e now w Hok)
    as [(w' & R & _ & T)|(w' & pre & k & t & post & R & E & _ & _ & T)];
    rewrite R; cbn [snd]; rewrite T.
  - split; [now apply store_ok_filter|].
    intros x Hx. now apply survivors_in in Hx.
  - rewrite E in Hok. split.
    + now apply store_ok_filter_left.
    + intros x Hx. rewrite E. revert Hx. apply filter_left_in.
Qed.

Lemma pending_set (tid : string) (t t' : Task) (d : dict Task) :
  store_ok d -> all_pending d -> dict_get tid d = Some t ->
  id t' = id t -> done_arrive t' = done_arrive t ->
  store_ok (dict_set tid t' d) /\ all_pending (dict_set tid t' d).
Proof.
  intros Hok Hp Hg Hi Hdn. pose proof (dict_get_in _ _ _ Hg) as Hin.
  split.
  - apply store_ok_set; [assumption|]. rewrite Hi. now apply (proj2 Hok).
  - intros k x Hx. destruct (dict_set_in _ _ _ _ _ Hx) as [[-> ->]|H].
    + rewrite Hdn. now apply (Hp tid).
    + now apply (Hp k).
Qed.

Section Runs.

Variable nfkc : string -> string.
Variable strptime_jst : string -> option Z.
Variable timestamp : Z -> float.
Variable jstfmt : float -> result string.

Lemma edit_time_keeps (now : Z) (duration arrive : option string)
  (t : Task) (w : world) :
  snd (edit_time nfkc strptime_jst timestamp now duration arrive t w) = w
  /\ forall t1,
       fst (edit_time nfkc strptime_jst timestamp now duration arrive t w)
       = OK (Some t1) ->
       id t1 = id t /\ done_arrive t1 = done_arrive t.
Proof.
  unfold edit_time, bind, lift, ret.
  destruct (truthy duration) as [d|].
  - destruct (parse_delta nfkc d) as [td|ex]; cbn [fst snd].
    + destruct (datetime_add now td); cbn [fst snd];
        (split; [reflexivity|]); intros t1 H; [|discriminate].
      injection H as <-. auto.
    + split; [reflexivity | discriminate].
  - destruct (truthy arrive) as [a|]; [destruct (strptime_jst (nfkc a))|];
      cbn [fst snd]; (split; [reflexivity|]); intros t1 H;
      try discriminate; injection H as <-; auto.
Qed.

Lemma edit_fields_keeps (f b n : option string) (t : Task) :
  id (edit_fields nfkc f b n t) = id t
  /\ done_arrive (edit_fields nfkc f b n t) = done_arrive t.
Proof. unfold edit_fields. destruct f, b, n; auto. Qed.

(** No operation of the bot leaves a task that carries the delivered
    flag in the store. *)
Lemma step_keeps_pending (o : op) (w : world) :
  store_ok (tasks w) -> all_pending (tasks w) ->
  store_ok (tasks (step nfkc strptime_jst timestamp jstfmt o w))
  /\ all_pending (tasks (step nfkc strptime_jst timestamp jstfmt o w)).
Proof.
  intros Hok Hp.
  destruct o as [i g c u f b n a | tid | tid delta
                | now tid duration arrive fc' boat' note' | e now];
    cbn [step].
  - unfold TaskStore_add, bind, set_tasks, TaskStore_save.
    cbn [snd tasks Task_new id]. split.
    + now apply store_ok_set.
    + intros k x Hx. destruct (dict_set_in _ _ _ _ _ Hx) as [[-> ->]|H];
        [reflexivity | now apply (Hp k)].
  - unfold cancel, bind, gets.
    destruct (dict_mem tid (tasks w)) eqn:Hm; [|now split].
    rewrite remove_present by assumption. cbn [snd tasks]. split.
    + now apply store_ok_filter.
    + intros k x Hx. apply dict_del_in in Hx. now apply (Hp k).
  - unfold defer, bind, gets, lift.
    destruct (dict_get tid (tasks w)) as [t|] eqn:Hg; [|now split].
    destruct (parse_delta nfkc delta) as [td|ex]; [|now split].
    destruct (jstfmt _); cbn [snd tasks set_tasks TaskStore_save ret];
      now apply (pending_set tid t).
  - unfold edit_cmd, bind, gets, lift.
    destruct (dict_get tid (tasks w)) as [t|] eqn:Hg; [|now split].
    destruct (edit_time_keeps now duration arrive t w) as [Hw Ht].
    destruct (edit_time nfkc strptime_jst timestamp now duration
                arrive t w) as [[[t1|]|ex] w1];
      cbn [fst snd] in *; subst w1; [|now split..].
    destruct (Ht t1 eq_refl) as [Hi Hdn].
    destruct (edit_fields_keeps fc' boat' note' t1) as [Hi2 Hdn2].
    destruct (jstfmt _); cbn [snd tasks set_tasks TaskStore_save ret];
      apply (pending_set tid t); (assumption || congruence).
  - destruct (tick_keeps e now w Hok) as [H1 H2]. split; [assumption|].
    intros k x Hx. apply (Hp k). now apply H2.
Qed.

Lemma run_keeps_pending (ops : list op) :
  forall w, store_ok (tasks w) -> all_pending (tasks w) ->
  store_ok (tasks (run nfkc strptime_jst timestamp jstfmt ops w))
  /\ all_pending (tasks (run nfkc strptime_jst timestamp jstfmt ops w)).
Proof.
  induction ops as [|o ops IH]; intros w Hok Hp; [now split|].
  cbn [run fold_left].
  destruct (step_keeps_pending o w Hok Hp). now apply IH.
Qed.

End Runs.

Lemma by_guild_in (gid : Z) (w : world) (t : Task) :
  In t (TaskStore_by_guild gid w) ->
  exists k, In (k, t) (tasks w) /\ guild_id t = gid.
Proof.
  unfold TaskStore_by_guild, dict_values. rewrite filter_In, in_map_iff.
  intros [((k, t') & E & H) G]. cbn in E. subst t'.
  exists k. split; [assumption | now apply Z.eqb_eq].
Qed.

Lemma demo_world_ok : store_ok (tasks demo_world).
Proof.
  split.
  - unfold is_dict. cbn. repeat constructor; cbn; intuition discriminate.
  - intros k t H. cbn in H.
    repeat (destruct H as [H|H]; [injection H as <- <-; reflexivity|]).
    contradiction.
Qed.

(** ** The claims on the store and the scheduler *)

(** C1.  A turn of the scheduler never leaves in the store a task whose
    flag it has set: the tasks in the store after the turn are tasks of
    before, unchanged, and after a turn that completes every due or
    flagged task is gone, so that [by_guild] lists only tasks without the
    flag.  No other operation of the bot sets the flag: in every run of
    additions, cancellations, deferrals, edits and turns of the scheduler
    from a store without flagged tasks, no stored task carries the flag
    and [by_guild] never lists one. *)
Theorem delivered_once_and_removed
  (nfkc : string -> string) (strptime_jst : string -> option Z)
  (timestamp : Z -> float) (jstfmt : float -> result string) :
  (forall e now w, store_ok (tasks w) ->
     let r := fst (schedule_tick e now w) in
     let w' := snd (schedule_tick e now w) in
     store_ok (tasks w')
     /\ (forall k t, In (k, t) (tasks w') -> In (k, t) (tasks w))
     /\ (is_ok r = true ->
         (forall k t, In (k, t) (tasks w) -> leaves now t = true ->
            dict_get k (tasks w') = None
            /\ forall gid, ~ In t (TaskStore_by_guild gid w'))
         /\ (forall gid t, In t (TaskStore_by_guild gid w') ->
               done_arrive t = false)))
  /\ (forall ops w, store_ok (tasks w) -> all_pending (tasks w) ->
        let w' := run nfkc strptime_jst timestamp jstfmt ops w in
        store_ok (tasks w') /\ all_pending (tasks w')
        /\ forall gid t, In t (TaskStore_by_guild gid w') ->
             done_arrive t = false).
Proof.
  split.
  - intros e now w Hok r w'. subst r w'.
    destruct (tick_keeps e now w Hok) as [K1 K2].
    split; [assumption|]. split; [intros k t; apply K2|].
    intros Hr.
    destruct (tick_outcome e now w Hok)
      as [(w' & R & _ & T)|(w' & pre & k & t & post & R & _)];
      rewrite R in *; cbn [fst snd is_ok] in *; [|discriminate].
    assert (Hgone : forall k t, In (k, t) (tasks w') -> leaves now t = false).
    { intros k t H. rewrite T in H. now apply survivors_in in H. }
    split.
    + intros k t Hin Hl. split.
      * destruct (dict_get k (tasks w')) as [t'|] eqn:G; [|reflexivity].
        apply dict_get_in in G. pose proof (Hgone _ _ G) as Hl'.
        pose proof (K2 _ G) as Hin'.
        assert (t' = t).
        { pose proof (in_dict_get k t _ (proj1 Hok) Hin).
          pose proof (in_dict_get k t' _ (proj1 Hok) Hin'). congruence. }
        congruence.
      * intros gid Hg. apply by_guild_in in Hg. destruct Hg as (k' & H & _).
        apply Hgone in H. congruence.
    + intros gid t Hg. apply by_guild_in in Hg. destruct Hg as (k' & H & _).
      apply Hgone in H. unfold leaves in H. now apply orb_false_iff in H.
  - intros ops w Hok Hp w'. subst w'.
    destruct (run_keeps_pending nfkc strptime_jst timestamp jstfmt ops w Hok Hp)
      as [H1 H2].
    split; [assumption|]. split; [assumption|].
    intros gid t Hg. apply by_guild_in in Hg. destruct Hg as (k & H & _).
    now apply (H2 k).
Qed.

Lemma delivered_once_and_removed_witness :
  store_ok (tasks demo_world)
  /\ dict_get "aa" (tasks (snd (schedule_tick env_up 500 demo_world))) = None
  /\ forall gid t,
       In t (TaskStore_by_guild gid
               (run nfkc_ascii (fun _ => None) (fun _ => 0%float)
                    (fun _ => OK "")
                    [OpTick env_up 500; OpDefer "cc" "1h"; OpTick env_down 950]
                    demo_world)) ->
       done_arrive t = false.
Proof.
  pose proof (delivered_once_and_removed nfkc_ascii (fun _ => None)
                (fun _ => 0%float) (fun _ => OK "")) as [Htick Hrun].
  split; [exact demo_world_ok|]. split.
  - destruct (Htick env_up 500%float demo_world demo_world_ok)
      as (_ & _ & H).
    destruct (H eq_refl) as [H1 _].
    apply (H1 "aa" (demo_task "aa" 100)); [now left | reflexivity].
  - apply (Hrun _ demo_world demo_world_ok).
    intros k t H. cbn in H.
    repeat (destruct H as [H|H]; [injection H as <- <-; reflexivity|]).
    contradiction.
Defined.

(** C2, amended.  A due task whose channel is no text channel gets no
    notice and is still marked and removed, and the turn goes on with the
    other tasks: in a turn in which the sink does not raise, every due
    task leaves the store and the notices sent are those of the due tasks
    with a text channel.  An exception of the sink is not caught: the turn
    ends at the task it was raised for, which stays in the store unmarked
    together with the tasks after it. *)
Theorem tick_and_the_sink (e : env) (now : float) (w : world) :
  store_ok (tasks w) ->
  (sink_quiet e now (tasks w) ->
   exists w',
     schedule_tick e now w = (OK tt, w')
     /\ tasks w' = survivors now (tasks w)
     /\ sent (io w') = sent (io w) ++ notified e now (tasks w)
     /\ forall k t, In (k, t) (tasks w) -> due now t = true ->
          dict_get k (tasks w') = None
          /\ (is_text_channel e (channel_id t) = false ->
              ~ In (channel_id t, t) (notified e now (tasks w))))
  /\ (forall pre k t post,
        tasks w = pre ++ (k, t) :: post ->
        sink_quiet e now pre -> sink_fails e now t ->
        exists w',
          schedule_tick e now w = (Raise HTTPException, w')
          /\ tasks w' = survivors now pre ++ (k, t) :: post
          /\ sent (io w') = sent (io w) ++ notified e now pre).
Proof.
  intros Hok. split.
  - intros Hq. destruct (tick_quiet e now w Hok Hq) as (w' & R & T & _ & S & _).
    exists w'. repeat split; try assumption.
    + destruct (dict_get k (tasks w')) as [t'|] eqn:G; [|reflexivity].
      apply dict_get_in in G. rewrite T in G. apply survivors_in in G.
      destruct G as [G L]. cbn [snd] in L.
      pose proof (in_dict_get k t _ (proj1 Hok) H).
      pose proof (in_dict_get k t' _ (proj1 Hok) G).
      assert (t' = t) by congruence. subst t'.
      unfold leaves in L. rewrite H0 in L. discriminate.
    + intros Hc Hin. unfold notified in Hin. apply in_map_iff in Hin.
      destruct Hin as ((k', t') & E & Hf). cbn [snd] in E.
      injection E as _ ->. apply filter_In in Hf. destruct Hf as [_ Hf].
      cbn [snd] in Hf. rewrite Hc in Hf. now rewrite andb_false_r in Hf.
  - intros pre k t post E Hq Hf.
    destruct (tick_raises e now w pre post k t E Hok Hq Hf)
      as (w' & R & T & _ & S).
    exists w'. auto.
Qed.

Lemma tick_and_the_sink_witness :
  (exists w',
     schedule_tick env_no_channel 500 demo_world = (OK tt, w')
     /\ tasks w' = survivors 500 (tasks demo_world)
     /\ sent (io w') = sent (io demo_world)
                       ++ notified env_no_channel 500 (tasks demo_world)
     /\ forall k t, In (k, t) (tasks demo_world) -> due 500 t = true ->
          dict_get k (tasks w') = None
          /\ (is_text_channel env_no_channel (channel_id t) = false ->
              ~ In (channel_id t, t)
                   (notified env_no_channel 500 (tasks demo_world))))
  /\ exists w',
       schedule_tick env_down 500 demo_world = (Raise HTTPException, w')
       /\ tasks w' = survivors 500 [] ++ tasks demo_world
       /\ sent (io w') = sent (io demo_world) ++ notified env_down 500 [].
Proof.
  split.
  - apply (proj1 (tick_and_the_sink env_no_channel 500 demo_world
                    demo_world_ok)).
    intros k t _ _ H. discriminate.
  - apply (proj2 (tick_and_the_sink env_down 500 demo_world demo_world_ok)
             [] "aa" (demo_task "aa" 100)
             [("bb", demo_task "bb" 200); ("cc", demo_task "cc" 900)]).
    + reflexivity.
    + intros k t [].
    + repeat split.
Defined.

(** C2, as stated, fails when the sink raises: the turn ends with the
    exception, the task is neither marked nor removed, and the next due
    task is not looked at. *)
Lemma tick_sink_raises_example :
  sink_fails env_down 500 (demo_task "aa" 100)
  /\ due 500 (demo_task "bb" 200) = true
  /\ schedule_tick env_down 500 demo_world = (Raise HTTPException, demo_world).
Proof. repeat split. Qed.

(** C9, amended.  A turn of the scheduler that completes writes the file
    once for every task it removes, and once more at its end when it has
    marked a task in this turn; after a turn that removed a task the file
    holds the store as the turn left it. *)
Theorem tick_writes (e : env) (now : float) (w : world) :
  store_ok (tasks w) -> sink_quiet e now (tasks w) ->
  exists w',
    schedule_tick e now w = (OK tt, w')
    /\ writes (io w')
       = (writes (io w)
          + List.length (filter (fun kt => leaves now (snd kt)) (tasks w))
          + (if existsb (fun kt => due now (snd kt)) (tasks w)
             then 1 else 0))%nat
    /\ disk w' = if existsb (fun kt => leaves now (snd kt)) (tasks w)
                 then Some (snapshot (tasks w')) else disk w.
Proof.
  intros Hok Hq.
  destruct (tick_quiet e now w Hok Hq) as (w' & R & _ & W & _ & D).
  exists w'. auto.
Qed.

Lemma tick_writes_witness :
  exists w',
    schedule_tick env_up 150 demo_world = (OK tt, w')
    /\ writes (io w') = (0 + 1 + 1)%nat
    /\ disk w' = Some (snapshot (tasks w')).
Proof.
  apply (tick_writes env_up 150 demo_world demo_world_ok).
  intros k t _ _ _. reflexivity.
Defined.

(** C9, as stated, fails: a turn in which one task is due writes the
    file twice, once in [remove] and once at the end of the turn. *)
Lemma tick_writes_twice_example :
  List.length (filter (fun kt => due 150 (snd kt)) (tasks demo_world)) = 1%nat
  /\ writes (io (snd (schedule_tick env_up 150 demo_world))) = 2%nat.
Proof. split; reflexivity. Qed.

(** C6, amended.  The keys of the store stay unique, but [add] does not
    detect a collision: it returns normally, and a task stored under the
    id of the new task is replaced by the new task, in its place; the
    other tasks stay, and the file holds the new store. *)
Theorem add_replaces (t : Task) (w : world) :
  is_dict (tasks w) ->
  exists w',
    TaskStore_add t w = (OK tt, w')
    /\ is_dict (tasks w')
    /\ dict_get (id t) (tasks w') = Some t
    /\ (forall k, k <> id t -> dict_get k (tasks w') = dict_get k (tasks w))
    /\ (dict_mem (id t) (tasks w) = true ->
        dict_keys (tasks w') = dict_keys (tasks w))
    /\ disk w' = Some (snapshot (tasks w')).
Proof.
  intros Hd. eexists. split; [reflexivity|]. cbn [tasks disk].
  split; [now apply is_dict_set|]. split; [|split; [|split]].
  - now rewrite dict_get_set, String.eqb_refl.
  - intros k Hk. rewrite dict_get_set.
    destruct (String.eqb_spec k (id t)); [contradiction | reflexivity].
  - intros Hm. now rewrite dict_set_keys, Hm.
  - reflexivity.
Qed.

Lemma add_replaces_witness :
  exists w',
    TaskStore_add demo_collision demo_world = (OK tt, w')
    /\ is_dict (tasks w')
    /\ dict_get (id demo_collision) (tasks w') = Some demo_collision
    /\ (forall k, k <> id demo_collision ->
          dict_get k (tasks w') = dict_get k (tasks demo_world))
    /\ (dict_mem (id demo_collision) (tasks demo_world) = true ->
        dict_keys (tasks w') = dict_keys (tasks demo_world))
    /\ disk w' = Some (snapshot (tasks w')).
Proof. apply (add_replaces demo_collision demo_world (proj1 demo_world_ok)). Defined.

(** C6, as stated, fails: adding a task under an id that is taken
    succeeds, and the task that was stored under the id is lost. *)
Lemma add_collision_example :
  dict_get "aa" (tasks demo_world) = Some (demo_task "aa" 100)
  /\ fst (TaskStore_add demo_collision demo_world) = OK tt
  /\ dict_get "aa" (tasks (snd (TaskStore_add demo_collision demo_world)))
     = Some demo_collision
  /\ List.length (tasks (snd (TaskStore_add demo_collision demo_world)))
     = List.length (tasks demo_world).
Proof. repeat split. Qed.

Lemma total_seconds_nonneg_value (td : timedelta) :
  0 <= days td -> 0 <= seconds td ->
  total_seconds td
  = PrimFloat.of_uint63 (Uint63.of_Z (days td * 86400 + seconds td)).
Proof.
  intros Hd Hs. unfold total_seconds, whole_seconds.
  now replace (days td * 86400 + seconds td <? 0) with false
    by (symmetry; apply Z.ltb_ge; lia).
Qed.

(** C7.  For a stored task with arrival [T] and a text that parses to a
    duration of [d] days and [s] seconds, [defer] stores [T] plus the
    float of [86400 * d + s] as the new arrival of the task and writes the
    file; the other fields of the task and the other tasks stay.  For a
    text of hour and minute tokens the amount added is the sum of what the
    tokens contribute.  The command reads no clock: the new arrival
    depends on the stored one and on the text only.  The answer shows the
    new arrival; when [jstfmt] cannot write it, its exception leaves the
    command after the store and the file have the new arrival. *)
Theorem defer_adds_to_arrival (nfkc : string -> string)
  (jstfmt : float -> result string) (tid : string) (t : Task) (w : world) :
  dict_get tid (tasks w) = Some t ->
  (forall delta td, parse_delta nfkc delta = OK td ->
     let T' := (arrive_utc t
                + PrimFloat.of_uint63
                    (Uint63.of_Z (days td * 86400 + seconds td)))%float in
     let w' := snd (defer nfkc jstfmt tid delta w) in
     dict_get tid (tasks w') = Some (set_arrive_utc T' t)
     /\ (forall k, k <> tid -> dict_get k (tasks w') = dict_get k (tasks w))
     /\ disk w' = Some (snapshot (tasks w'))
     /\ fst (defer nfkc jstfmt tid delta w)
        = match jstfmt T' with
          | OK _ => OK (Deferred T')
          | Raise ex => Raise ex
          end)
  /\ ((forall s, plain s = true -> nfkc s = s) ->
      forall t0 l, tokens_ok t0 l = true -> tokens_short t0 l = true ->
        total_seconds_of t0 l / 86400 <= max_days ->
        dict_get tid (tasks (snd (defer nfkc jstfmt tid (render t0 l) w)))
        = Some (set_arrive_utc
                  (arrive_utc t
                   + PrimFloat.of_uint63
                       (Uint63.of_Z (total_seconds_of t0 l)))%float t)).
Proof.
  intros Hg.
  assert (H1 : forall delta td, parse_delta nfkc delta = OK td ->
     let T' := (arrive_utc t
                + PrimFloat.of_uint63
                    (Uint63.of_Z (days td * 86400 + seconds td)))%float in
     let w' := snd (defer nfkc jstfmt tid delta w) in
     dict_get tid (tasks w') = Some (set_arrive_utc T' t)
     /\ (forall k, k <> tid -> dict_get k (tasks w') = dict_get k (tasks w))
     /\ disk w' = Some (snapshot (tasks w'))
     /\ fst (defer nfkc jstfmt tid delta w)
        = match jstfmt T' with
          | OK _ => OK (Deferred T')
          | Raise ex => Raise ex
          end).
  { intros delta td Hp T' w'. subst T' w'.
    pose proof (parse_delta_result nfkc delta) as R. rewrite Hp in R.
    destruct R as ((Hd & _) & (Hs & _) & _).
    unfold defer, bind, gets, lift. rewrite Hg, Hp.
    cbn [set_tasks TaskStore_save arrive_utc set_arrive_utc].
    rewrite (total_seconds_nonneg_value td Hd Hs).
    destruct (jstfmt _); cbn [ret fst snd tasks disk];
      (split; [now rewrite dict_get_set, String.eqb_refl|]);
      (split; [intros k Hk; rewrite dict_get_set;
               destruct (String.eqb_spec k tid);
               [contradiction | reflexivity]|]);
      split; reflexivity. }
  split; [exact H1|].
  intros Hn t0 l Hok Hsh Hr.
  pose proof (parse_delta_render nfkc t0 l Hn Hok Hsh) as Hp.
  destruct (timedelta_of_seconds_in_range (total_seconds_of t0 l))
    as (td & E & W & _); [now apply total_seconds_nonneg | assumption |].
  rewrite E in Hp. destruct (H1 _ _ Hp) as (G & _).
  unfold whole_seconds in W. rewrite W in G. exact G.
Qed.

Lemma defer_adds_to_arrival_witness :
  dict_get "cc"
    (tasks (snd (defer nfkc_ascii (fun _ => OK "") "cc" "1h 30min"
                   demo_world)))
  = Some (set_arrive_utc 6300 (demo_task "cc" 900))
  /\ fst (defer nfkc_ascii (fun _ => Raise OverflowError) "cc" "1h"
            demo_world)
     = Raise OverflowError
  /\ dict_get "cc"
       (tasks (snd (defer nfkc_ascii (fun _ => Raise OverflowError) "cc" "1h"
                      demo_world)))
     = Some (set_arrive_utc 4500 (demo_task "cc" 900)).
Proof.
  split; [|split].
  - exact (proj2 (defer_adds_to_arrival nfkc_ascii (fun _ => OK "") "cc"
                    (demo_task "cc" 900) demo_world eq_refl)
                 (fun s _ => eq_refl)
                 (mk_token "1" UnitH) [(" ", mk_token "30" UnitMin)]
                 eq_refl eq_refl ltac:(vm_compute; discriminate)).
  - exact (proj2 (proj2 (proj2
             (proj1 (defer_adds_to_arrival nfkc_ascii
                       (fun _ => Raise OverflowError) "cc"
                       (demo_task "cc" 900) demo_world eq_refl)
                    "1h" {| days := 0; seconds := 3600; microseconds := 0 |}
                    eq_refl)))).
  - exact (proj1
             (proj1 (defer_adds_to_arrival nfkc_ascii
                       (fun _ => Raise OverflowError) "cc"
                       (demo_task "cc" 900) demo_world eq_refl)
                    "1h" {| days := 0; seconds := 3600; microseconds := 0 |}
                    eq_refl)).
Defined.

(** ** The data file *)

Lemma dict_of_pairs_acc {V} (l : list (string * V)) :
  forall acc, is_dict (acc ++ l) ->
  fold_left (fun d kv => dict_set (fst kv) (snd kv) d) l acc = acc ++ l.
Proof.
  induction l as [|[k v] l IH]; intros acc H; cbn [fold_left fst snd].
  - now rewrite app_nil_r.
  - destruct (dict_mid_keys _ _ _ _ H) as [Ha _].
    rewrite dict_set_new by assumption.
    rewrite IH by (now rewrite <- app_assoc). now rewrite <- app_assoc.
Qed.

(** Members with distinct names make the dictionary they spell. *)
Lemma dict_of_pairs_dict {V} (l : list (string * V)) :
  is_dict l -> dict_of_pairs l = l.
Proof. intros H. unfold dict_of_pairs. now rewrite dict_of_pairs_acc. Qed.

Lemma snapshot_keys (d : dict Task) :
  dict_keys (map (fun kv => (fst kv, JObject (vars (snd kv)))) d)
  = dict_keys d.
Proof. unfold dict_keys. rewrite map_map. reflexivity. Qed.

Lemma snapshot_is_dict (d : dict Task) :
  is_dict d ->
  dict_of_pairs (map (fun kv => (fst kv, JObject (vars (snd kv)))) d)
  = map (fun kv => (fst kv, JObject (vars (snd kv)))) d.
Proof.
  intros H. apply dict_of_pairs_dict. unfold is_dict.
  now rewrite snapshot_keys.
Qed.

Lemma kwargs_of_vars (t : Task) : Task_kwargs (dict_of_pairs (vars t)) = OK t.
Proof. destruct t. reflexivity. Qed.

Lemma load_items_snapshot (d : dict Task) :
  forall (acc : dict Task) (file : option json) (out : list event),
  is_dict (acc ++ d) ->
  load_items (map (fun kv => (fst kv, JObject (vars (snd kv)))) d)
             (mk_world acc file out)
  = (OK tt, mk_world (acc ++ d) file out).
Proof.
  induction d as [|[k t] d IH]; intros acc file out Hd.
  - cbn. now rewrite app_nil_r.
  - cbn [map load_items fst snd]. unfold bind, lift, set_tasks.
    rewrite kwargs_of_vars. cbn [tasks disk io].
    destruct (dict_mid_keys _ _ _ _ Hd) as [Ha _].
    rewrite dict_set_new by assumption.
    rewrite IH by (now rewrite <- app_assoc).
    now rewrite <- app_assoc.
Qed.

(** C8.  A store built on the file that [save] has written holds the
    tasks of the saved store, under the same keys, in the same order and
    with the same values in all nine fields, the arrival among them; the
    file is left as it is and nothing is written. *)
Theorem load_after_save (w : world) :
  is_dict (tasks w) ->
  disk (snd (TaskStore_save w)) = Some (snapshot (tasks w))
  /\ TaskStore_init (disk (snd (TaskStore_save w)))
     = (OK tt, mk_world (tasks w) (Some (snapshot (tasks w))) []).
Proof.
  intros Hd. split; [reflexivity|].
  unfold TaskStore_init, TaskStore_load, bind, gets. cbn [disk snd TaskStore_save].
  unfold snapshot at 1. rewrite snapshot_is_dict by exact Hd.
  now rewrite load_items_snapshot.
Qed.

Lemma load_after_save_witness :
  disk (snd (TaskStore_save demo_world)) = Some (snapshot (tasks demo_world))
  /\ TaskStore_init (disk (snd (TaskStore_save demo_world)))
     = (OK tt,
        mk_world (tasks demo_world) (Some (snapshot (tasks demo_world))) []).
Proof. apply (load_after_save demo_world (proj1 demo_world_ok)). Defined.

Example load_without_file :
  TaskStore_init None = (OK tt, mk_world [] (Some (JObject [])) [Write (JObject [])]).
Proof. reflexivity. Qed.

(** * Further properties *)

Close Scope list_scope.
Open Scope string_scope.
Open Scope Z_scope.

(** ** More on [parse_delta] *)

Lemma rejected_facts (c : ascii) :
  rejected c = true ->
  Str.isdigit c = false /\ is_sep c = false /\ (c =? "h")%char = false
  /\ (c =? "m")%char = false /\ (c =? "i")%char = false
  /\ (c =? "n")%char = false.
Proof.
  unfold rejected. intros H.
  repeat (apply andb_true_iff in H; destruct H as [H ?]).
  repeat split; now apply negb_true_iff.
Qed.

Lemma scan_rejected (c : ascii) (r : string) (st : pstate) :
  rejected c = true -> scan (String c r) st = Raise (ValueError BadDuration).
Proof.
  intros H. destruct (rejected_facts c H) as (Hd & Hs & Hh & Hm & _).
  rewrite scan_cons, Hd, Hh. unfold Str.startswith. rewrite prefix_cons.
  destruct (ascii_dec "m" c) as [<-|]; [discriminate|]. now rewrite Hm, Hs.
Qed.

(** X2.  On a text that NFKC brings to ASCII characters and the
    ideograph of the minutes, a character that is no digit, no separator
    and no letter of a unit marker stops [parse_delta] with the
    [ValueError] for a malformed duration, whatever follows it, when the
    text before it is read without error. *)
Theorem parse_delta_rejects (nfkc : string -> string)
  (s p r : string) (c : ascii) (st : pstate) :
  plain (nfkc s) = true ->
  normalize_duration nfkc s = p ++ String c r ->
  rejected c = true -> scan p pstate0 = OK st ->
  parse_delta nfkc s = Raise (ValueError BadDuration).
Proof.
  intros _ Hs Hc Hp. unfold parse_delta. rewrite Hs.
  destruct (rejected_facts c Hc) as (_ & _ & _ & _ & Hi & Hn).
  destruct (head_cuts c r Hi Hn) as [C1 C2].
  rewrite (scan_app_cut _ C1 C2 (String.length p) p pstate0 (le_n _)).
  rewrite Hp. cbn [rbind]. now rewrite scan_rejected.
Qed.

Lemma parse_delta_rejects_witness :
  parse_delta nfkc_ascii "1h 30 sec" = Raise (ValueError BadDuration).
Proof.
  apply (parse_delta_rejects nfkc_ascii "1h 30 sec" "1h 30 " "ec" "s"
           (mk_pstate (0 + 1) 0 "30" LastH)); reflexivity.
Defined.

(** X3.  On a text that NFKC brings to ASCII characters and the
    ideograph of the minutes, a unit marker that no digits precede stops
    [parse_delta] with the [ValueError] of that marker: when the text
    before the marker is read without error and leaves no pending digits,
    ["h"] raises the error of the hours, ["min"] the error of ["min"], and
    an ["m"] that does not begin ["min"] the error of ["m"]. *)
Theorem parse_delta_marker_without_digits (nfkc : string -> string)
  (s p r : string) (st : pstate) :
  plain (nfkc s) = true ->
  scan p pstate0 = OK st -> ps_buf st = "" ->
  (normalize_duration nfkc s = p ++ String "h" r ->
   parse_delta nfkc s = Raise (ValueError DigitsBeforeH))
  /\ (normalize_duration nfkc s = p ++ "min" ++ r ->
      parse_delta nfkc s = Raise (ValueError DigitsBeforeMin))
  /\ (normalize_duration nfkc s = p ++ String "m" r ->
      Str.startswith (String "m" r) "min" = false ->
      parse_delta nfkc s = Raise (ValueError DigitsBeforeM)).
Proof.
  intros _ Hp Hb.
  assert (Hcut : forall c r', (c =? "i")%char = false ->
            (c =? "n")%char = false ->
            scan (p ++ String c r') pstate0 = scan (String c r') st).
  { intros c r' Hi Hn. destruct (head_cuts c r' Hi Hn) as [C1 C2].
    rewrite (scan_app_cut _ C1 C2 (String.length p) p pstate0 (le_n _)).
    now rewrite Hp. }
  unfold parse_delta. repeat split.
  - intros ->. rewrite Hcut by reflexivity. rewrite scan_h.
    unfold hour_marker. now rewrite Hb.
  - intros ->. cbn [append]. rewrite Hcut by reflexivity.
    change (String "m" (String "i" (String "n" r))) with ("min" ++ r).
    rewrite scan_min. unfold minute_marker. now rewrite Hb.
  - intros -> Hm. rewrite Hcut by reflexivity.
    change (String "m" r) with ("m" ++ r). rewrite scan_m by exact Hm.
    unfold minute_marker. now rewrite Hb.
Qed.

Lemma parse_delta_marker_without_digits_witness :
  parse_delta nfkc_ascii "1h h" = Raise (ValueError DigitsBeforeH)
  /\ parse_delta nfkc_ascii "min" = Raise (ValueError DigitsBeforeMin)
  /\ parse_delta nfkc_ascii "5m m" = Raise (ValueError DigitsBeforeM).
Proof.
  split; [|split].
  - apply (proj1 (parse_delta_marker_without_digits nfkc_ascii "1h h"
                    "1h " "" (mk_pstate (0 + 1) 0 "" LastH)
                    eq_refl eq_refl eq_refl)). reflexivity.
  - apply (proj1 (proj2 (parse_delta_marker_without_digits nfkc_ascii "min"
                    "" "" pstate0 eq_refl eq_refl eq_refl))). reflexivity.
  - apply (proj2 (proj2 (parse_delta_marker_without_digits nfkc_ascii "5m m"
                    "5m " "" (mk_pstate 0 (0 + 5) "" LastM)
                    eq_refl eq_refl eq_refl))); reflexivity.
Defined.

(** X1.  On a text that NFKC brings to ASCII characters and the
    ideograph of the minutes, [parse_delta] either returns a duration in
    Python's normal form that is a whole, non-negative number of minutes
    within the range of [timedelta], or raises [OverflowError], one of its
    four [ValueError]s or the [ValueError] of [int]; it returns no
    negative duration and no seconds. *)
Theorem parse_delta_outcome (nfkc : string -> string) (s : string) :
  plain (nfkc s) = true ->
  match parse_delta nfkc s with
  | OK td => 0 <= days td <= max_days /\ 0 <= seconds td < 86400
             /\ seconds td mod 60 = 0 /\ microseconds td = 0
  | Raise ex =>
      ex = OverflowError
      \/ ex = ValueError DigitsBeforeH \/ ex = ValueError DigitsBeforeMin
      \/ ex = ValueError DigitsBeforeM \/ ex = ValueError BadDuration
      \/ ex = ValueError IntDigitsLimit
  end.
Proof.
  intros _. pose proof (parse_delta_result nfkc s) as H.
  destruct (parse_delta nfkc s) as [td|ex]; [exact H|].
  destruct H as [->|(v & -> & Hv)]; [auto|].
  destruct v; auto 10. congruence.
Qed.

Lemma parse_delta_outcome_witness :
  match parse_delta nfkc_ascii "1h 30" with
  | OK td => 0 <= days td <= max_days /\ 0 <= seconds td < 86400
             /\ seconds td mod 60 = 0 /\ microseconds td = 0
  | Raise ex =>
      ex = OverflowError
      \/ ex = ValueError DigitsBeforeH \/ ex = ValueError DigitsBeforeMin
      \/ ex = ValueError DigitsBeforeM \/ ex = ValueError BadDuration
      \/ ex = ValueError IntDigitsLimit
  end.
Proof. apply (parse_delta_outcome nfkc_ascii "1h 30"). reflexivity. Defined.

(** ** Upper and lower case *)

Lemma isspace_lower (c : ascii) : Str.isspace (Str.lower_char c) = Str.isspace c.
Proof. by_cases_on_char c. Qed.

Lemma lstrip_lower (s : string) :
  Str.lstrip (Str.lower s) = Str.lower (Str.lstrip s).
Proof.
  induction s as [|c s IH]; [reflexivity|]. cbn [Str.lower Str.lstrip].
  rewrite isspace_lower. destruct (Str.isspace c); [exact IH | reflexivity].
Qed.

Lemma rstrip_lower (s : string) :
  Str.rstrip (Str.lower s) = Str.lower (Str.rstrip s).
Proof.
  induction s as [|c s IH]; [reflexivity|]. cbn [Str.lower Str.rstrip].
  rewrite IH, isspace_lower.
  destruct (Str.rstrip s); cbn [Str.lower]; [|reflexivity].
  destruct (Str.isspace c); reflexivity.
Qed.

Lemma strip_lower (s : string) :
  Str.strip (Str.lower s) = Str.lower (Str.strip s).
Proof. unfold Str.strip. now rewrite lstrip_lower, rstrip_lower. Qed.

(** X4.  [parse_delta] does not tell upper case from lower case: two
    texts that NFKC leaves unchanged and that agree once lowered parse to
    the same result, the same duration or the same error. *)
Theorem parse_delta_ignores_case (nfkc : string -> string) (s s' : string) :
  nfkc s = s -> nfkc s' = s' -> Str.lower s = Str.lower s' ->
  parse_delta nfkc s = parse_delta nfkc s'.
Proof.
  intros H H' E. unfold parse_delta, normalize_duration.
  now rewrite H, H', <- !strip_lower, E.
Qed.

Lemma parse_delta_ignores_case_witness :
  parse_delta nfkc_ascii "2H 30MIN" = parse_delta nfkc_ascii "2h 30min".
Proof.
  apply (parse_delta_ignores_case nfkc_ascii "2H 30MIN" "2h 30min");
    reflexivity.
Defined.

(** ** More on [normalize_fc] *)

Lemma alias_is_prefix (t : string) :
  (String.eqb t "alexander"
   || Str.mem t ["a"; "al"; "ale"; "alex"; "alexan"; "alexander"] = true ->
   prefix t "alexander" = true)
  /\ (String.eqb t "pandemonium"
      || Str.mem t ["p"; "pa"; "pan"; "pand"; "pande"; "pandemo";
                    "pandemonium"] = true ->
      prefix t "pandemonium" = true).
Proof.
  unfold Str.mem. cbn [existsb]. rewrite !orb_true_iff.
  split; intros H;
    repeat (destruct H as [H|H];
            [apply String.eqb_eq in H; subst; reflexivity|]);
    discriminate.
Qed.

Lemma normalize_fc_range (nfkc : string -> string) (s : string) :
  normalize_fc nfkc s = "Alexander" \/ normalize_fc nfkc s = "Pandemonium"
  \/ normalize_fc nfkc s = s.
Proof.
  unfold normalize_fc. destruct s as [|c s]; [auto|]. cbn [Str.is_empty].
  unfold FC_ALIASES. cbn [alias_lookup].
  destruct (String.eqb _ "alexander" || Str.mem _ _); [auto|].
  destruct (String.eqb _ "pandemonium" || Str.mem _ _); [auto|].
  destruct (Str.startswith "alexander" _); [auto|].
  destruct (Str.startswith "pandemonium" _); auto.
Qed.

(** X5.  The alias sets of [FC_ALIASES] add nothing to the prefix test:
    on a non-empty input whose normalized form [t] is not empty,
    [normalize_fc] answers ["Alexander"] exactly when [t] is a prefix of
    ["alexander"], ["Pandemonium"] exactly when [t] is a prefix of
    ["pandemonium"], and returns the input itself otherwise. *)
Theorem normalize_fc_by_prefix (nfkc : string -> string) (s : string) :
  s <> "" -> Str.lower (Str.strip (nfkc s)) <> "" ->
  normalize_fc nfkc s
  = if prefix (Str.lower (Str.strip (nfkc s))) "alexander" then "Alexander"
    else if prefix (Str.lower (Str.strip (nfkc s))) "pandemonium"
         then "Pandemonium"
         else s.
Proof.
  intros Hs Ht. unfold normalize_fc. destruct s as [|c s]; [congruence|].
  cbn [Str.is_empty].
  remember (Str.lower (Str.strip (nfkc (String c s)))) as t eqn:Et. clear Et.
  destruct (alias_is_prefix t) as [Ha Hp].
  unfold FC_ALIASES. cbn [alias_lookup]. unfold Str.startswith.
  destruct (String.eqb t "alexander" || Str.mem t _) eqn:A.
  - now rewrite (Ha eq_refl).
  - destruct (String.eqb t "pandemonium" || Str.mem t _) eqn:P;
      [|reflexivity].
    specialize (Hp eq_refl). rewrite Hp.
    destruct (prefix t "alexander") eqn:Pa; [|reflexivity].
    rewrite (prefix_of_one_name t Ht Pa) in Hp. discriminate.
Qed.

Lemma normalize_fc_by_prefix_witness :
  normalize_fc nfkc_ascii " Alexa "
  = (if prefix (Str.lower (Str.strip (nfkc_ascii " Alexa "))) "alexander"
     then "Alexander"
     else if prefix (Str.lower (Str.strip (nfkc_ascii " Alexa ")))
                    "pandemonium"
          then "Pandemonium" else " Alexa ").
Proof.
  apply (normalize_fc_by_prefix nfkc_ascii " Alexa "); discriminate.
Defined.

(** X6.  [normalize_fc] answers with a canonical label or with its input,
    and applying it again changes nothing, NFKC leaving the two labels as
    they are. *)
Theorem normalize_fc_idempotent (nfkc : string -> string) (s : string) :
  nfkc "Alexander" = "Alexander" -> nfkc "Pandemonium" = "Pandemonium" ->
  (normalize_fc nfkc s = "Alexander" \/ normalize_fc nfkc s = "Pandemonium"
   \/ normalize_fc nfkc s = s)
  /\ normalize_fc nfkc (normalize_fc nfkc s) = normalize_fc nfkc s.
Proof.
  intros Ha Hp. split; [apply normalize_fc_range|].
  destruct (normalize_fc_range nfkc s) as [E|[E|E]]; rewrite E.
  - unfold normalize_fc. cbn [Str.is_empty]. rewrite Ha. reflexivity.
  - unfold normalize_fc. cbn [Str.is_empty]. rewrite Hp. reflexivity.
  - exact E.
Qed.

Lemma normalize_fc_idempotent_witness :
  (normalize_fc nfkc_ascii "pande" = "Alexander"
   \/ normalize_fc nfkc_ascii "pande" = "Pandemonium"
   \/ normalize_fc nfkc_ascii "pande" = "pande")
  /\ normalize_fc nfkc_ascii (normalize_fc nfkc_ascii "pande")
     = normalize_fc nfkc_ascii "pande".
Proof.
  apply (normalize_fc_idempotent nfkc_ascii "pande"); reflexivity.
Defined.


(** ** More on the store *)

Open Scope list_scope.

Lemma dict_get_del {V} (tid k : string) (d : dict V) :
  dict_get k (dict_del tid d)
  = if String.eqb k tid then None else dict_get k d.
Proof.
  induction d as [|[k' v] d IH]; cbn [dict_del filter dict_get fst].
  - now destruct (String.eqb k tid).
  - fold (dict_del tid d).
    destruct (String.eqb_spec tid k') as [->|Hne]; cbn [negb].
    + rewrite IH. destruct (String.eqb_spec k k'); reflexivity.
    + cbn [dict_get]. rewrite IH.
      destruct (String.eqb_spec k k') as [->|]; [|reflexivity].
      destruct (String.eqb_spec k' tid); congruence.
Qed.

Lemma dict_mem_get {V} (k : string) (d : dict V) :
  dict_mem k d = false <-> dict_get k d = None.
Proof. unfold dict_mem. destruct (dict_get k d); split; congruence. Qed.

(** X7.  [cancel] of an id that is not stored answers that the id was not
    found and touches neither the store nor the file.  [cancel] of a
    stored id removes that task and no other, writes the file once, and
    leaves the id unknown: a second [cancel] of it answers not found and
    changes nothing. *)
Theorem cancel_behaviour (tid : string) (w : world) :
  (dict_mem tid (tasks w) = false -> cancel tid w = (OK NotFound, w))
  /\ (dict_mem tid (tasks w) = true ->
      exists w',
        cancel tid w = (OK Cancelled, w')
        /\ dict_get tid (tasks w') = None
        /\ (forall k, k <> tid -> dict_get k (tasks w') = dict_get k (tasks w))
        /\ io w' = io w ++ [Write (snapshot (tasks w'))]
        /\ synced w'
        /\ cancel tid w' = (OK NotFound, w')).
Proof.
  unfold cancel, bind, gets. split; intros H; rewrite H; [reflexivity|].
  rewrite remove_present by assumption. eexists. split; [reflexivity|].
  cbn [tasks io disk]. unfold synced. cbn [tasks disk].
  assert (G : dict_get tid (dict_del tid (tasks w)) = None)
    by now rewrite dict_get_del, String.eqb_refl.
  repeat split.
  - exact G.
  - intros k Hk. rewrite dict_get_del.
    destruct (String.eqb_spec k tid); [contradiction | reflexivity].
  - apply dict_mem_get in G. now rewrite G.
Qed.

Lemma cancel_behaviour_witness :
  exists w',
    cancel "bb" demo_world = (OK Cancelled, w')
    /\ dict_get "bb" (tasks w') = None
    /\ (forall k, k <> "bb" ->
          dict_get k (tasks w') = dict_get k (tasks demo_world))
    /\ io w' = io demo_world ++ [Write (snapshot (tasks w'))]
    /\ synced w'
    /\ cancel "bb" w' = (OK NotFound, w').
Proof.
  apply (proj2 (cancel_behaviour "bb" demo_world)). reflexivity.
Defined.

(** X8.  Adding a task under an id that is not stored and removing that
    id again gives back the tasks of before, in their order, and the file
    holds them. *)
Theorem add_then_remove (t : Task) (w : world) :
  dict_mem (id t) (tasks w) = false ->
  exists w1 w2,
    TaskStore_add t w = (OK tt, w1)
    /\ TaskStore_remove (id t) w1 = (OK tt, w2)
    /\ tasks w2 = tasks w /\ synced w2.
Proof.
  intros H. assert (Hn : ~ In (id t) (dict_keys (tasks w))).
  { intros Hin. apply dict_mem_in in Hin. congruence. }
  eexists. eexists. split; [reflexivity|].
  cbn [tasks]. rewrite dict_set_new by assumption.
  rewrite remove_present
    by (cbn [tasks]; rewrite <- (app_nil_r [(id t, t)]); apply dict_mem_mid).
  split; [reflexivity|]. cbn [tasks]. unfold synced. cbn [tasks disk].
  rewrite (dict_del_mid (id t) t (tasks w) []) by (assumption || intros []).
  rewrite app_nil_r. split; reflexivity.
Qed.

Lemma add_then_remove_witness :
  exists w1 w2,
    TaskStore_add (demo_task "dd" 50) demo_world = (OK tt, w1)
    /\ TaskStore_remove (id (demo_task "dd" 50)) w1 = (OK tt, w2)
    /\ tasks w2 = tasks demo_world /\ synced w2.
Proof. apply (add_then_remove (demo_task "dd" 50) demo_world). reflexivity. Defined.

(** X9.  A task added under an id that is not stored is listed last for
    its guild, behind the tasks that [by_guild] listed before, and the
    lists of the other guilds stay as they were. *)
Theorem add_then_by_guild (t : Task) (w : world) :
  dict_mem (id t) (tasks w) = false ->
  TaskStore_by_guild (guild_id t) (snd (TaskStore_add t w))
  = TaskStore_by_guild (guild_id t) w ++ [t]
  /\ forall gid, gid <> guild_id t ->
       TaskStore_by_guild gid (snd (TaskStore_add t w))
       = TaskStore_by_guild gid w.
Proof.
  intros H. assert (Hn : ~ In (id t) (dict_keys (tasks w))).
  { intros Hin. apply dict_mem_in in Hin. congruence. }
  unfold TaskStore_by_guild, TaskStore_add, bind, set_tasks, TaskStore_save,
    dict_values.
  cbn [snd tasks]. rewrite dict_set_new by assumption.
  rewrite map_app, filter_app. cbn [map filter snd]. split.
  - now rewrite Z.eqb_refl.
  - intros gid Hg. rewrite filter_app. cbn [filter].
    destruct (guild_id t =? gid) eqn:E.
    + apply Z.eqb_eq in E. congruence.
    + apply app_nil_r.
Qed.

Lemma add_then_by_guild_witness :
  TaskStore_by_guild (guild_id (demo_task "dd" 50))
    (snd (TaskStore_add (demo_task "dd" 50) demo_world))
  = TaskStore_by_guild (guild_id (demo_task "dd" 50)) demo_world
    ++ [demo_task "dd" 50]
  /\ forall gid, gid <> guild_id (demo_task "dd" 50) ->
       TaskStore_by_guild gid (snd (TaskStore_add (demo_task "dd" 50) demo_world))
       = TaskStore_by_guild gid demo_world.
Proof. apply (add_then_by_guild (demo_task "dd" 50) demo_world). reflexivity. Defined.

(** ** More on the data file *)

Lemma load_items_keeps_file (items : list (string * json)) :
  forall w, disk (snd (load_items items w)) = disk w
            /\ io (snd (load_items items w)) = io w.
Proof.
  induction items as [|[tid rec] items IH]; intros w; [split; reflexivity|].
  cbn [load_items]. destruct rec; try (split; reflexivity).
  unfold bind at 1. unfold lift.
  destruct (Task_kwargs _) as [t|ex]; [|split; reflexivity].
  unfold bind, set_tasks.
  destruct (IH (mk_world (dict_set tid t (tasks w)) (disk w) (io w)))
    as [H1 H2].
  split; [exact H1 | exact H2].
Qed.

(** X10.  Building a store on a data file that exists never writes the
    file and leaves it as it is, whether the file can be loaded or not; a
    document that is no JSON object makes [load] raise with an empty
    store. *)
Theorem load_keeps_file (doc : json) :
  disk (snd (TaskStore_init (Some doc))) = Some doc
  /\ io (snd (TaskStore_init (Some doc))) = []
  /\ ((forall o, doc <> JObject o) ->
      TaskStore_init (Some doc)
      = (Raise AttributeError, mk_world [] (Some doc) [])).
Proof.
  unfold TaskStore_init, TaskStore_load, bind, gets. cbn [disk].
  destruct doc; try (repeat split; reflexivity).
  destruct (load_items_keeps_file (dict_of_pairs o)
              (mk_world [] (Some (JObject o)) [])) as [H1 H2].
  split; [exact H1|]. split; [exact H2|].
  intros H. exfalso. now apply (H o).
Qed.

Lemma load_keeps_file_witness :
  TaskStore_init (Some (JArray []))
  = (Raise AttributeError, mk_world [] (Some (JArray [])) []).
Proof.
  apply (proj2 (proj2 (load_keeps_file (JArray [])))). discriminate.
Defined.

Ltac split_lookups kw :=
  repeat match goal with
         | |- context [dict_get ?f kw] =>
             destruct (dict_get f kw) as [[| | | | | |]|];
             try reflexivity
         end.

Lemma kwargs_missing_field (kw : dict json) (f : string) :
  In f Task_required -> dict_get f kw = None ->
  Task_kwargs kw = Raise TypeError.
Proof.
  intros Hf Hn. unfold Task_kwargs.
  destruct (negb (forallb _ kw)); [reflexivity|].
  cbn in Hf.
  repeat (destruct Hf as [<-|Hf];
          [rewrite Hn; split_lookups kw; reflexivity|]).
  contradiction.
Qed.

Lemma kwargs_unknown_key (kw : dict json) (k : string) (v : json) :
  In (k, v) kw -> Str.mem k Task_fields = false ->
  Task_kwargs kw = Raise TypeError.
Proof.
  intros Hin Hm. unfold Task_kwargs.
  assert (E : forallb (fun kv => Str.mem (fst kv) Task_fields) kw = false).
  { apply not_true_is_false. intros H. rewrite forallb_forall in H.
    specialize (H _ Hin). cbn [fst] in H. congruence. }
  now rewrite E.
Qed.

(** ** More on the scheduler *)

Lemma visit_idle (e : env) (now : float) (kt : string * Task) (c : bool)
  (w : world) :
  leaves now (snd kt) = false -> visit e now kt c w = (OK c, w).
Proof.
  destruct kt as [k t]. cbn [snd]. unfold leaves. intros H.
  apply orb_false_iff in H. destruct H as [D Dn].
  unfold visit. rewrite D. unfold bind, ret. cbn [fst snd]. now rewrite Dn.
Qed.

Lemma visit_all_idle (e : env) (now : float) (l : dict Task) :
  forall c w,
  existsb (fun kt => leaves now (snd kt)) l = false ->
  visit_all e now l c w = (OK c, w).
Proof.
  induction l as [|kt l IH]; intros c w H; [reflexivity|].
  cbn [existsb] in H. apply orb_false_iff in H. destruct H as [H1 H2].
  cbn [visit_all]. unfold bind. rewrite visit_idle by assumption.
  now apply IH.
Qed.

Lemma schedule_tick_idle (e : env) (now : float) (w : world) :
  existsb (fun kt => leaves now (snd kt)) (tasks w) = false ->
  schedule_tick e now w = (OK tt, w).
Proof.
  intros H. unfold schedule_tick, bind, gets.
  now rewrite visit_all_idle.
Qed.

(** X12.  A turn of the scheduler that finds no task due and no task
    flagged does nothing at all: nothing is sent, nothing is written and
    the store stays as it is, whatever the sink would do. *)
Theorem tick_idle (e : env) (now : float) (w : world) :
  existsb (fun kt => leaves now (snd kt)) (tasks w) = false ->
  schedule_tick e now w = (OK tt, w).
Proof. apply schedule_tick_idle. Qed.

Lemma tick_idle_witness :
  schedule_tick env_down 50 demo_world = (OK tt, demo_world).
Proof. apply (tick_idle env_down 50 demo_world). reflexivity. Defined.

Lemma survivors_stay (now : float) (d : dict Task) :
  existsb (fun kt => leaves now (snd kt)) (survivors now d) = false.
Proof.
  apply not_true_is_false. intros H. apply existsb_exists in H.
  destruct H as (x & Hx & L). apply survivors_in in Hx. destruct Hx. congruence.
Qed.

(** X13.  After a turn of the scheduler that completed, a second turn at
    the same time does nothing, whatever the sink would do: no task is
    notified or removed twice. *)
Theorem tick_twice (e e' : env) (now : float) (w : world) :
  store_ok (tasks w) -> sink_quiet e now (tasks w) ->
  exists w',
    schedule_tick e now w = (OK tt, w')
    /\ schedule_tick e' now w' = (OK tt, w').
Proof.
  intros Hok Hq. destruct (tick_quiet e now w Hok Hq) as (w' & R & T & _).
  exists w'. split; [assumption|]. apply schedule_tick_idle. rewrite T.
  apply survivors_stay.
Qed.

Lemma tick_twice_witness :
  exists w',
    schedule_tick env_up 500 demo_world = (OK tt, w')
    /\ schedule_tick env_down 500 w' = (OK tt, w').
Proof.
  apply (tick_twice env_up env_down 500 demo_world demo_world_ok).
  intros k t _ _ _. reflexivity.
Defined.

Lemma notified_in (e : env) (now : float) (d : dict Task) (c : Z) (t : Task) :
  In (c, t) (notified e now d) ->
  exists k, In (k, t) d /\ due now t = true /\ c = channel_id t
            /\ is_text_channel e c = true.
Proof.
  unfold notified. rewrite in_map_iff. intros ((k, t') & E & H).
  cbn [snd] in E. injection E as <- <-. apply filter_In in H.
  destruct H as [H1 H2]. cbn [snd] in H2. apply andb_true_iff in H2.
  exists k. tauto.
Qed.

Lemma notified_ids (e : env) (now : float) (d : dict Task) :
  store_ok d -> NoDup (map (fun ct => id (snd ct)) (notified e now d)).
Proof.
  intros [Hd Hk]. unfold notified. rewrite map_map. cbn [snd].
  unfold is_dict, dict_keys in Hd.
  induction d as [|[k t] d IH]; [constructor|].
  cbn [map] in Hd. inversion Hd as [|? ? Hn Hd']; subst.
  assert (Hk' : keyed_by_id d) by (intros k' t' H; apply Hk; now right).
  cbn [filter snd].
  destruct (due now t && is_text_channel e (channel_id t));
    [|now apply IH].
  cbn [map]. constructor; [|now apply IH].
  intros Hin. apply Hn. apply in_map_iff in Hin.
  destruct Hin as ((k', t') & E & Hf). apply filter_In in Hf.
  destruct Hf as [Hf _]. cbn [snd] in E.
  rewrite (Hk k t (or_introl eq_refl)) in E.
  rewrite (Hk' k' t' Hf) in E. subst k'.
  change k with (fst (k, t')). now apply in_map.
Qed.

(** X14.  In a turn of the scheduler that completes, the messages sent
    are one for each task that was due, not yet flagged and on a text
    channel, each to the channel of its task, and no task gets two. *)
Theorem tick_notifies_once (e : env) (now : float) (w : world) :
  store_ok (tasks w) -> sink_quiet e now (tasks w) ->
  exists w' new,
    schedule_tick e now w = (OK tt, w')
    /\ sent (io w') = sent (io w) ++ new
    /\ NoDup (map (fun ct => id (snd ct)) new)
    /\ (forall c t, In (c, t) new <->
          In (id t, t) (tasks w) /\ due now t = true
          /\ c = channel_id t /\ is_text_channel e c = true).
Proof.
  intros Hok Hq.
  destruct (tick_quiet e now w Hok Hq) as (w' & R & _ & _ & S & _).
  exists w', (notified e now (tasks w)).
  split; [assumption|]. split; [assumption|].
  split; [now apply notified_ids|].
  intros c t. split.
  - intros H. apply notified_in in H. destruct H as (k & Hin & D & C & T).
    rewrite (proj2 Hok k t Hin). auto.
  - intros (Hin & D & -> & T). unfold notified. apply in_map_iff.
    exists (id t, t). split; [reflexivity|]. apply filter_In.
    split; [assumption|]. cbn [snd]. now rewrite D, T.
Qed.

Lemma tick_notifies_once_witness :
  exists w' new,
    schedule_tick env_up 500 demo_world = (OK tt, w')
    /\ sent (io w') = sent (io demo_world) ++ new
    /\ NoDup (map (fun ct => id (snd ct)) new)
    /\ (forall c t, In (c, t) new <->
          In (id t, t) (tasks demo_world) /\ due 500 t = true
          /\ c = channel_id t /\ is_text_channel env_up c = true).
Proof.
  apply (tick_notifies_once env_up 500 demo_world demo_world_ok).
  intros k t _ _ _. reflexivity.
Defined.

Lemma filter_twice {A} (f : A -> bool) (l : list A) :
  filter f (filter f l) = filter f l.
Proof.
  induction l as [|x l IH]; [reflexivity|]. cbn [filter].
  destruct (f x) eqn:E; cbn [filter]; rewrite ?E; now rewrite IH.
Qed.

(** X15.  Whatever the sink does, a turn of the scheduler keeps every
    task that is neither due nor flagged, as it is and in the order of
    the store: the tasks that are not due after the turn are those of
    before. *)
Theorem tick_keeps_the_pending (e : env) (now : float) (w : world) :
  store_ok (tasks w) ->
  survivors now (tasks (snd (schedule_tick e now w)))
  = survivors now (tasks w).
Proof.
  intros Hok.
  destruct (tick_outcome e now w Hok)
    as [(w' & R & _ & T)|(w' & pre & k & t & post & R & E & _ & _ & T)];
    rewrite R; cbn [snd]; rewrite T.
  - apply filter_twice.
  - rewrite E. unfold survivors. rewrite !filter_app. f_equal.
    apply filter_twice.
Qed.

Lemma tick_keeps_the_pending_witness :
  survivors 500 (tasks (snd (schedule_tick env_down 500 demo_world)))
  = survivors 500 (tasks demo_world).
Proof. apply (tick_keeps_the_pending env_down 500 demo_world demo_world_ok). Defined.

(** ** The store and its file along a run *)

Lemma tick_raises_file (e : env) (now : float) (w : world)
  (pre post : dict Task) (k : string) (t : Task) :
  tasks w = pre ++ (k, t) :: post -> store_ok (tasks w) ->
  sink_quiet e now pre -> sink_fails e now t ->
  exists w',
    schedule_tick e now w = (Raise HTTPException, w')
    /\ tasks w' = survivors now pre ++ (k, t) :: post
    /\ disk w' = if existsb (fun kt => leaves now (snd kt)) pre
                 then Some (snapshot (tasks w')) else disk w.
Proof.
  intros Hw Hok Hq Hf.
  destruct (visit_all_quiet e now pre [] ((k, t) :: post) false w) as
    (w1 & E & T & W & S & D); [assumption.. |].
  cbn [app] in T. exists w1.
  unfold schedule_tick, bind, gets. rewrite Hw, visit_all_app.
  unfold bind. rewrite E. cbn [visit_all]. unfold bind.
  rewrite visit_raises by assumption. auto.
Qed.

Lemma tick_keeps_file (e : env) (now : float) (w : world) :
  store_ok (tasks w) -> synced w -> synced (snd (schedule_tick e now w)).
Proof.
  intros Hok Hs. unfold synced in *.
  destruct (first_failure e now (tasks w))
    as [Q|(pre & k & t & post & E & Q & F)].
  - destruct (tick_quiet e now w Hok Q) as (w' & R & T & _ & _ & D).
    rewrite R. cbn [snd]. rewrite D.
    destruct (existsb (fun kt => leaves now (snd kt)) (tasks w)) eqn:X;
      [reflexivity|].
    now rewrite T, survivors_all.
  - destruct (tick_raises_file e now w pre post k t E Hok Q F)
      as (w' & R & T & D).
    rewrite R. cbn [snd]. rewrite D.
    destruct (existsb (fun kt => leaves now (snd kt)) pre) eqn:X;
      [reflexivity|].
    now rewrite T, survivors_all, <- E.
Qed.

Section RunsAndFile.

Variable nfkc : string -> string.
Variable strptime_jst : string -> option Z.
Variable timestamp : Z -> float.
Variable jstfmt : float -> result string.

Lemma step_keeps_file (o : op) (w : world) :
  store_ok (tasks w) -> synced w ->
  store_ok (tasks (step nfkc strptime_jst timestamp jstfmt o w))
  /\ synced (step nfkc strptime_jst timestamp jstfmt o w).
Proof.
  intros Hok Hs.
  destruct o as [i g c u f b n a | tid | tid delta
                | now tid duration arrive fc' boat' note' | e now];
    cbn [step].
  - unfold TaskStore_add, bind, set_tasks, TaskStore_save, synced.
    cbn [snd tasks disk Task_new id]. split; [|reflexivity].
    now apply store_ok_set.
  - unfold cancel, bind, gets.
    destruct (dict_mem tid (tasks w)) eqn:Hm; [|now split].
    rewrite remove_present by assumption. unfold synced.
    cbn [snd tasks disk]. split; [|reflexivity]. now apply store_ok_filter.
  - unfold defer, bind, gets, lift.
    destruct (dict_get tid (tasks w)) as [t|] eqn:Hg; [|now split].
    destruct (parse_delta nfkc delta) as [td|ex]; [|now split].
    unfold synced.
    destruct (jstfmt _); cbn [snd tasks disk set_tasks TaskStore_save ret];
      (split; [|reflexivity]); (apply store_ok_set; [assumption|]);
      cbn [id set_arrive_utc]; apply (proj2 Hok); now apply dict_get_in.
  - unfold edit_cmd, bind, gets, lift.
    destruct (dict_get tid (tasks w)) as [t|] eqn:Hg; [|now split].
    destruct (edit_time_keeps nfkc strptime_jst timestamp now duration
                arrive t w) as [Hw Ht].
    destruct (edit_time nfkc strptime_jst timestamp now duration
                arrive t w) as [[[t1|]|ex] w1];
      cbn [fst snd] in *; subst w1; [|now split..].
    unfold synced. destruct (Ht t1 eq_refl) as [Hi _].
    destruct (jstfmt _); cbn [snd tasks disk set_tasks TaskStore_save ret];
      (split; [|reflexivity]); (apply store_ok_set; [assumption|]);
      rewrite (proj1 (edit_fields_keeps nfkc fc' boat' note' t1)), Hi;
      apply (proj2 Hok); now apply dict_get_in.
  - split; [now apply tick_keeps | now apply tick_keeps_file].
Qed.

Lemma run_keeps_store_and_file (ops : list op) :
  forall w, store_ok (tasks w) -> synced w ->
  store_ok (tasks (run nfkc strptime_jst timestamp jstfmt ops w))
  /\ synced (run nfkc strptime_jst timestamp jstfmt ops w).
Proof.
  induction ops as [|o ops IH]; intros w Hok Hs; [now split|].
  cbn [run fold_left]. destruct (step_keeps_file o w Hok Hs).
  now apply IH.
Qed.

(** X16.  Along every run of additions, cancellations, deferrals, edits
    and turns of the scheduler, whether they succeed, answer a refusal or
    raise, the store keeps one task per id, each under its own id, and
    the data file holds the store as it is: no change of the store is
    left unwritten. *)
Theorem run_keeps_file (ops : list op) (w : world) :
  store_ok (tasks w) -> synced w ->
  store_ok (tasks (run nfkc strptime_jst timestamp jstfmt ops w))
  /\ synced (run nfkc strptime_jst timestamp jstfmt ops w).
Proof. apply run_keeps_store_and_file. Qed.

End RunsAndFile.

Lemma run_keeps_file_witness :
  synced (snd (TaskStore_save demo_world))
  /\ synced (run nfkc_ascii (fun _ => None) (fun _ => 0%float)
                    (fun _ => OK "")
               [OpTick env_down 500; OpDefer "cc" "x"; OpCancel "bb";
                OpEdit 0 "aa" None None None None (Some "memo");
                OpTick env_up 500]
               (snd (TaskStore_save demo_world))).
Proof.
  split; [reflexivity|].
  apply (run_keeps_file nfkc_ascii (fun _ => None) (fun _ => 0%float)
           (fun _ => OK ""));
    [exact demo_world_ok | reflexivity].
Defined.

(** ** More on the commands *)

(** X17.  [defer] looks the id up before it reads the text: for an id
    that is not stored it answers not found, whatever the text, and for a
    stored id with a text that [parse_delta] refuses, the exception of
    [parse_delta] leaves the command; in both cases the store and the
    file stay as they are. *)
Theorem defer_failures (nfkc : string -> string)
  (jstfmt : float -> result string) (tid delta : string) (w : world) :
  (dict_get tid (tasks w) = None ->
   defer nfkc jstfmt tid delta w = (OK NotFound, w))
  /\ (forall t ex, dict_get tid (tasks w) = Some t ->
        parse_delta nfkc delta = Raise ex ->
        defer nfkc jstfmt tid delta w = (Raise ex, w)).
Proof.
  unfold defer, bind, gets, lift. split.
  - intros ->. reflexivity.
  - intros t ex -> ->. reflexivity.
Qed.

Lemma defer_failures_witness :
  defer nfkc_ascii (fun _ => OK "") "zz" "soon" demo_world
  = (OK NotFound, demo_world)
  /\ defer nfkc_ascii (fun _ => OK "") "cc" "soon" demo_world
     = (Raise (ValueError BadDuration), demo_world).
Proof.
  split.
  - apply (proj1 (defer_failures nfkc_ascii (fun _ => OK "")
                    "zz" "soon" demo_world)).
    reflexivity.
  - apply (proj2 (defer_failures nfkc_ascii (fun _ => OK "")
                    "cc" "soon" demo_world)
             (demo_task "cc" 900)); reflexivity.
Defined.

Section Edit.

Variable nfkc : string -> string.
Variable strptime_jst : string -> option Z.
Variable timestamp : Z -> float.
Variable jstfmt : float -> result string.

(** X18.  An edit that succeeds never changes the id, the guild, the
    channel, the user or the delivered flag of the task, even when it
    changes the group; a field for which no value is given keeps its
    value, and the arrival stays when neither a duration nor an arrival is
    given; the task keeps its place, the other tasks stay, and the file
    holds the new store. *)
Theorem edit_frame (now : Z) (tid : string)
  (duration arrive fc' boat' note' : option string)
  (t t2 : Task) (w w' : world) :
  dict_get tid (tasks w) = Some t ->
  edit_cmd nfkc strptime_jst timestamp jstfmt now tid
    duration arrive fc' boat' note' w = (OK (Updated t2), w') ->
  (id t2 = id t /\ guild_id t2 = guild_id t /\ channel_id t2 = channel_id t
   /\ user_id t2 = user_id t /\ done_arrive t2 = done_arrive t)
  /\ (fc' = None -> fc t2 = fc t)
  /\ (boat' = None -> boat t2 = boat t)
  /\ (note' = None -> note t2 = note t)
  /\ (truthy duration = None -> truthy arrive = None ->
      arrive_utc t2 = arrive_utc t)
  /\ dict_get tid (tasks w') = Some t2
  /\ (forall k, k <> tid -> dict_get k (tasks w') = dict_get k (tasks w))
  /\ dict_keys (tasks w') = dict_keys (tasks w)
  /\ synced w'.
Proof.
  intros Hg. unfold edit_cmd, bind, gets. rewrite Hg.
  unfold edit_time, bind, lift, ret.
  assert (Hmem : dict_mem tid (tasks w) = true)
    by (unfold dict_mem; now rewrite Hg).
  assert (Hfin : forall t1,
            (id t1 = id t /\ guild_id t1 = guild_id t
             /\ channel_id t1 = channel_id t /\ user_id t1 = user_id t
             /\ done_arrive t1 = done_arrive t /\ fc t1 = fc t
             /\ boat t1 = boat t /\ note t1 = note t) ->
            (truthy duration = None -> truthy arrive = None ->
             arrive_utc t1 = arrive_utc t) ->
            (OK (Updated (edit_fields nfkc fc' boat' note' t1)),
             mk_world (dict_set tid (edit_fields nfkc fc' boat' note' t1)
                         (tasks w))
               (Some (snapshot (dict_set tid
                                  (edit_fields nfkc fc' boat' note' t1)
                                  (tasks w))))
               (io w ++ [Write (snapshot (dict_set tid
                                  (edit_fields nfkc fc' boat' note' t1)
                                  (tasks w)))]))
            = (OK (Updated t2), w') ->
            (id t2 = id t /\ guild_id t2 = guild_id t
             /\ channel_id t2 = channel_id t /\ user_id t2 = user_id t
             /\ done_arrive t2 = done_arrive t)
            /\ (fc' = None -> fc t2 = fc t)
            /\ (boat' = None -> boat t2 = boat t)
            /\ (note' = None -> note t2 = note t)
            /\ (truthy duration = None -> truthy arrive = None ->
                arrive_utc t2 = arrive_utc t)
            /\ dict_get tid (tasks w') = Some t2
            /\ (forall k, k <> tid ->
                  dict_get k (tasks w') = dict_get k (tasks w))
            /\ dict_keys (tasks w') = dict_keys (tasks w)
            /\ synced w').
  { intros t1 (H1 & H2 & H3 & H4 & H5 & H6 & H7 & H8) Ha E.
    injection E as <- <-. unfold synced. cbn [tasks disk].
    unfold edit_fields.
    repeat split.
    - destruct fc', boat', note'; exact H1.
    - destruct fc', boat', note'; exact H2.
    - destruct fc', boat', note'; exact H3.
    - destruct fc', boat', note'; exact H4.
    - destruct fc', boat', note'; exact H5.
    - intros ->. destruct boat', note'; exact H6.
    - intros ->. destruct fc', note'; exact H7.
    - intros ->. destruct fc', boat'; exact H8.
    - intros D A. destruct fc', boat', note'; now apply Ha.
    - now rewrite dict_get_set, String.eqb_refl.
    - intros k Hk. rewrite dict_get_set.
      destruct (String.eqb_spec k tid); [contradiction | reflexivity].
    - now rewrite dict_set_keys, Hmem. }
  destruct (truthy duration) as [d|].
  - destruct (parse_delta nfkc d) as [td|ex]; [|discriminate].
    destruct (datetime_add now td) as [dt|ex]; [|discriminate].
    cbn [snd tasks set_tasks TaskStore_save].
    destruct (jstfmt _); [|discriminate].
    apply Hfin; [cbn; repeat split | discriminate].
  - destruct (truthy arrive) as [a|].
    + destruct (strptime_jst (nfkc a)) as [dt|]; [|discriminate].
      cbn [snd tasks set_tasks TaskStore_save].
      destruct (jstfmt _); [|discriminate].
      apply Hfin; [cbn; repeat split | discriminate].
    + cbn [snd tasks set_tasks TaskStore_save].
      destruct (jstfmt _); [|discriminate].
      apply Hfin; [repeat split | reflexivity].
Qed.

(** X19.  An edit of an id that is not stored answers not found.  A
    non-empty duration goes first, whatever the arrival given with it; a
    duration that [parse_delta] refuses raises.  Without a duration, an
    arrival that cannot be read is answered with a refusal.  In all these
    cases the store and the file stay as they are, whatever the other
    fields given. *)
Theorem edit_failures (now : Z) (tid : string)
  (duration arrive fc' boat' note' : option string) (w : world) :
  (dict_get tid (tasks w) = None ->
   edit_cmd nfkc strptime_jst timestamp jstfmt now tid
     duration arrive fc' boat' note' w = (OK NotFound, w))
  /\ (forall t d, dict_get tid (tasks w) = Some t ->
        truthy duration = Some d ->
        edit_cmd nfkc strptime_jst timestamp jstfmt now tid
          duration arrive fc' boat' note' w
        = edit_cmd nfkc strptime_jst timestamp jstfmt now tid
          duration None fc' boat' note' w
        /\ forall ex, parse_delta nfkc d = Raise ex ->
             edit_cmd nfkc strptime_jst timestamp jstfmt now tid
               duration arrive fc' boat' note' w = (Raise ex, w))
  /\ (forall t a, dict_get tid (tasks w) = Some t ->
        truthy duration = None -> truthy arrive = Some a ->
        strptime_jst (nfkc a) = None ->
        edit_cmd nfkc strptime_jst timestamp jstfmt now tid
          duration arrive fc' boat' note' w = (OK BadArrive, w)).
Proof.
  unfold edit_cmd, bind, gets. split; [|split].
  - intros ->. reflexivity.
  - intros t d -> Hd. unfold edit_time. rewrite Hd. split; [reflexivity|].
    intros ex Hp. unfold bind, lift. now rewrite Hp.
  - intros t a -> Hd Ha Hs. unfold edit_time. now rewrite Hd, Ha, Hs.
Qed.

End Edit.

Lemma edit_frame_witness :
  (id (set_fc "Pandemonium" (demo_task "aa" 100)) = id (demo_task "aa" 100)
   /\ guild_id (set_fc "Pandemonium" (demo_task "aa" 100))
      = guild_id (demo_task "aa" 100)
   /\ channel_id (set_fc "Pandemonium" (demo_task "aa" 100))
      = channel_id (demo_task "aa" 100)
   /\ user_id (set_fc "Pandemonium" (demo_task "aa" 100))
      = user_id (demo_task "aa" 100)
   /\ done_arrive (set_fc "Pandemonium" (demo_task "aa" 100))
      = done_arrive (demo_task "aa" 100))
  /\ dict_get "aa"
       (tasks (snd (edit_cmd nfkc_ascii (fun _ => None) (fun _ => 0%float)
                      (fun _ => OK "")
                      0 "aa" (Some "") None (Some "p") None None demo_world)))
     = Some (set_fc "Pandemonium" (demo_task "aa" 100)).
Proof.
  pose proof (edit_frame nfkc_ascii (fun _ => None) (fun _ => 0%float)
                (fun _ => OK "")
                0 "aa" (Some "") None (Some "p") None None
                (demo_task "aa" 100)
                (set_fc "Pandemonium" (demo_task "aa" 100)) demo_world
                _ eq_refl eq_refl) as (H1 & _ & _ & _ & _ & H6 & _).
  split; [exact H1 | exact H6].
Defined.

Lemma edit_failures_witness :
  edit_cmd nfkc_ascii (fun _ => None) (fun _ => 0%float) (fun _ => OK "")
    0 "zz" None None None None None demo_world = (OK NotFound, demo_world)
  /\ edit_cmd nfkc_ascii (fun _ => None) (fun _ => 0%float)
       (fun _ => OK "")
       0 "aa" (Some "soon") (Some "2030-01-01 00:00") None None (Some "n")
       demo_world
     = (Raise (ValueError BadDuration), demo_world)
  /\ edit_cmd nfkc_ascii (fun _ => None) (fun _ => 0%float)
       (fun _ => OK "")
       0 "aa" (Some "") (Some "tomorrow") (Some "p") None None demo_world
     = (OK BadArrive, demo_world).
Proof.
  split; [|split].
  - apply (proj1 (edit_failures nfkc_ascii (fun _ => None) (fun _ => 0%float)
                (fun _ => OK "")
                    0 "zz" None None None None None demo_world)).
    reflexivity.
  - apply (proj2 (proj1 (proj2
             (edit_failures nfkc_ascii (fun _ => None) (fun _ => 0%float)
                (fun _ => OK "")
                0 "aa" (Some "soon") (Some "2030-01-01 00:00") None None
                (Some "n") demo_world))
             (demo_task "aa" 100) "soon" eq_refl eq_refl)).
    reflexivity.
  - apply (proj2 (proj2
             (edit_failures nfkc_ascii (fun _ => None) (fun _ => 0%float)
                (fun _ => OK "")
                0 "aa" (Some "") (Some "tomorrow") (Some "p") None None
                demo_world))
             (demo_task "aa" 100) "tomorrow"); reflexivity.
Defined.

(** ** The pages of [list_cmd] *)

Lemma firstn_then_firstn {A} (a b : nat) (l : list A) :
  firstn a l ++ firstn b (skipn a l) = firstn (a + b) l.
Proof.
  revert l. induction a as [|a IH]; intros l; [reflexivity|].
  destruct l as [|x l]; [now destruct b|].
  cbn [firstn skipn Nat.add app]. now rewrite IH.
Qed.

Lemma pages_firstn {A} (chunk : nat) (l : list A) (k : nat) :
  List.concat (map (fun i => slice l i (i + chunk))
              (map (fun j => (j * chunk)%nat) (seq 0 k)))
  = firstn (k * chunk) l.
Proof.
  induction k as [|k IH]; [reflexivity|].
  rewrite seq_S, !map_app, List.concat_app, IH. cbn [map List.concat Nat.add].
  rewrite app_nil_r. unfold slice.
  replace (k * chunk + chunk - k * chunk)%nat with chunk by lia.
  rewrite firstn_then_firstn. f_equal. lia.
Qed.

Lemma pages_count_bounds (n chunk : nat) :
  (0 < chunk)%nat ->
  (n <= (n + chunk - 1) / chunk * chunk)%nat
  /\ (forall j, j < (n + chunk - 1) / chunk -> j * chunk < n)%nat.
Proof.
  intros Hc.
  pose proof (Nat.div_mod_eq (n + chunk - 1) chunk) as E.
  pose proof (Nat.mod_upper_bound (n + chunk - 1) chunk ltac:(lia)) as B.
  set (k := ((n + chunk - 1) / chunk)%nat) in *.
  split; [nia|]. intros j Hj.
  assert (S j <= k)%nat by lia.
  assert (S j * chunk <= k * chunk)%nat by (apply Nat.mul_le_mono_r; lia).
  nia.
Qed.

(** X20.  The loop of [list_cmd] cuts the list into slices of [chunk]
    tasks, one message each: the slices, in their order, make up the list
    again, so that every task is shown once; no slice is empty and none
    has more than [chunk] tasks; and there are as many messages as the
    length of the list divided by [chunk], rounded up.  For [chunk = 10],
    the value of the code, no message carries more than ten tasks. *)
Theorem pages_cover {A} (chunk : nat) (l : list A) :
  (0 < chunk)%nat ->
  List.concat (pages chunk l) = l
  /\ Forall (fun p => 1 <= List.length p <= chunk)%nat (pages chunk l)
  /\ List.length (pages chunk l)
     = ((List.length l + chunk - 1) / chunk)%nat.
Proof.
  intros Hc. unfold pages, range_step.
  destruct (pages_count_bounds (List.length l) chunk Hc) as [B1 B2].
  split; [|split].
  - rewrite pages_firstn. now apply firstn_all2.
  - apply Forall_forall. intros p Hp. rewrite map_map in Hp.
    apply in_map_iff in Hp. destruct Hp as (j & <- & Hj).
    apply in_seq in Hj. specialize (B2 j ltac:(lia)).
    unfold slice. rewrite length_firstn, length_skipn. lia.
  - now rewrite !length_map, length_seq.
Qed.

Lemma pages_cover_witness :
  List.concat (pages list_chunk (tasks demo_world)) = tasks demo_world
  /\ Forall (fun p => 1 <= List.length p <= list_chunk)%nat
            (pages list_chunk (tasks demo_world))
  /\ List.length (pages list_chunk (tasks demo_world))
     = ((List.length (tasks demo_world) + list_chunk - 1) / list_chunk)%nat.
Proof.
  apply (pages_cover list_chunk (tasks demo_world)). unfold list_chunk. lia.
Defined.

Example pages_of_23 :
  map (@List.length nat) (pages list_chunk (seq 0 23)) = [10; 10; 3]%nat.
Proof. reflexivity. Qed.

Example pages_of_none : pages list_chunk (@nil nat) = [].
Proof. reflexivity. Qed.

(** ** Restarting the bot, and listing after a turn of the scheduler *)

Lemma init_of_snapshot (d : dict Task) :
  is_dict d ->
  TaskStore_init (Some (snapshot d))
  = (OK tt, mk_world d (Some (snapshot d)) []).
Proof.
  intros Hd. unfold TaskStore_init, TaskStore_load, bind, gets.
  cbn [disk]. unfold snapshot at 1. rewrite snapshot_is_dict by exact Hd.
  now rewrite load_items_snapshot.
Qed.

(** X21.  After every run of the bot from a store that is on file, a
    store built anew on the data file, as at a restart, loads without
    error, holds the tasks of the running store under the same keys and in
    the same order, and writes nothing. *)
Theorem restart_after_run (nfkc : string -> string)
  (strptime_jst : string -> option Z) (timestamp : Z -> float)
  (jstfmt : float -> result string) (ops : list op) (w : world) :
  store_ok (tasks w) -> synced w ->
  TaskStore_init (disk (run nfkc strptime_jst timestamp jstfmt ops w))
  = (OK tt,
     mk_world (tasks (run nfkc strptime_jst timestamp jstfmt ops w))
              (disk (run nfkc strptime_jst timestamp jstfmt ops w)) []).
Proof.
  intros Hok Hs.
  destruct (run_keeps_store_and_file nfkc strptime_jst timestamp jstfmt ops w
              Hok Hs) as [[Hd _] Hf].
  unfold synced in Hf. rewrite Hf. now apply init_of_snapshot.
Qed.

Lemma restart_after_run_witness :
  TaskStore_init
    (disk (run nfkc_ascii (fun _ => None) (fun _ => 0%float)
                    (fun _ => OK "")
               [OpDefer "cc" "1h"; OpTick env_down 500; OpCancel "aa";
                OpTick env_up 500]
               (snd (TaskStore_save demo_world))))
  = (OK tt,
     mk_world
       (tasks (run nfkc_ascii (fun _ => None) (fun _ => 0%float)
                    (fun _ => OK "")
                   [OpDefer "cc" "1h"; OpTick env_down 500; OpCancel "aa";
                    OpTick env_up 500]
                   (snd (TaskStore_save demo_world))))
       (disk (run nfkc_ascii (fun _ => None) (fun _ => 0%float)
                    (fun _ => OK "")
                  [OpDefer "cc" "1h"; OpTick env_down 500; OpCancel "aa";
                   OpTick env_up 500]
                  (snd (TaskStore_save demo_world)))) []).
Proof.
  apply (restart_after_run nfkc_ascii (fun _ => None) (fun _ => 0%float)
                    (fun _ => OK ""));
    [exact demo_world_ok | reflexivity].
Defined.

Lemma filter_map_snd {A B} (f : B -> bool) (l : list (A * B)) :
  map snd (filter (fun x => f (snd x)) l) = filter f (map snd l).
Proof.
  induction l as [|x l IH]; [reflexivity|]. cbn [filter map].
  destruct (f (snd x)); cbn [map]; now rewrite IH.
Qed.

Lemma filter_swap {A} (f g : A -> bool) (l : list A) :
  filter f (filter g l) = filter g (filter f l).
Proof.
  induction l as [|x l IH]; [reflexivity|]. cbn [filter].
  destruct (f x) eqn:F, (g x) eqn:G; cbn [filter]; rewrite ?F, ?G;
    now rewrite IH.
Qed.

(** X22.  After a turn of the scheduler that completes, [by_guild] lists,
    for every guild, the tasks it listed before without those that were
    due or flagged, in the same order. *)
Theorem by_guild_after_tick (e : env) (now : float) (w : world) (gid : Z) :
  store_ok (tasks w) -> sink_quiet e now (tasks w) ->
  TaskStore_by_guild gid (snd (schedule_tick e now w))
  = filter (fun t => negb (leaves now t)) (TaskStore_by_guild gid w).
Proof.
  intros Hok Hq. destruct (tick_quiet e now w Hok Hq) as (w' & R & T & _).
  rewrite R. cbn [snd]. unfold TaskStore_by_guild, dict_values.
  rewrite T. unfold survivors.
  rewrite (filter_map_snd (fun t => negb (leaves now t))).
  apply filter_swap.
Qed.

Lemma by_guild_after_tick_witness :
  TaskStore_by_guild 1 (snd (schedule_tick env_up 500 demo_world))
  = filter (fun t => negb (leaves 500 t)) (TaskStore_by_guild 1 demo_world).
Proof.
  apply (by_guild_after_tick env_up 500 demo_world 1 demo_world_ok).
  intros k t _ _ _. reflexivity.
Defined.

Lemma load_items_app (a b : list (string * json)) :
  forall w,
  load_items (a ++ b) w = bind (load_items a) (fun _ => load_items b) w.
Proof.
  induction a as [|[tid rec] a IH]; intros w; [reflexivity|].
  cbn [app load_items]. destruct rec; try reflexivity.
  unfold bind at 1 4. unfold lift.
  destruct (Task_kwargs _) as [t|ex]; [|reflexivity].
  unfold bind at 1 3. unfold set_tasks. apply IH.
Qed.

(** The names of the dictionary that [json.load] builds are the names
    of the members. *)
Lemma dict_of_pairs_get_none {V} (f : string) (l : list (string * V)) :
  forall acc,
  dict_get f (fold_left (fun d kv => dict_set (fst kv) (snd kv) d) l acc)
  = None
  <-> dict_get f acc = None /\ dict_get f l = None.
Proof.
  induction l as [|[k v] l IH]; intros acc; cbn [fold_left fst snd dict_get].
  - tauto.
  - rewrite IH, dict_get_set.
    destruct (String.eqb f k); intuition discriminate.
Qed.

Lemma in_dict_get_some {V} (k : string) (v : V) (d : dict V) :
  In (k, v) d -> dict_get k d <> None.
Proof.
  induction d as [|[k' v'] d IH]; intros H; [contradiction|].
  cbn [dict_get]. destruct (String.eqb_spec k k'); [discriminate|].
  destruct H as [H|H]; [congruence | now apply IH].
Qed.

Lemma bad_members (kw : list (string * json)) :
  (exists f, In f Task_required /\ dict_get f kw = None)
  \/ (exists k v, In (k, v) kw /\ Str.mem k Task_fields = false) ->
  Task_kwargs (dict_of_pairs kw) = Raise TypeError.
Proof.
  unfold dict_of_pairs. intros [(f & Hf & Hn)|(k & v & Hin & Hm)].
  - apply (kwargs_missing_field _ f Hf).
    apply dict_of_pairs_get_none. now split.
  - destruct (dict_get k (fold_left
                (fun d kv => dict_set (fst kv) (snd kv) d) kw []))
      as [v'|] eqn:G.
    + apply dict_get_in in G. now apply (kwargs_unknown_key _ k v').
    + apply dict_of_pairs_get_none in G. destruct G as [_ G].
      now apply in_dict_get_some in Hin.
Qed.

(** X23.  On a file whose members have distinct names, [load] stops at
    the first record that [Task] does not accept, a value that is no
    object or an object that lacks a field without default or has a
    member that is no field: [TypeError] leaves the constructor of the
    store, the tasks of the records before it have been loaded, those
    after it have not, and the file is not touched. *)
Theorem load_stops_at_bad_record (d : dict Task) (k : string) (v : json)
  (rest : list (string * json)) :
  is_dict (map (fun kv => (fst kv, JObject (vars (snd kv)))) d
           ++ (k, v) :: rest) ->
  (forall kw, v = JObject kw ->
     (exists f, In f Task_required /\ dict_get f kw = None)
     \/ (exists k' v', In (k', v') kw /\ Str.mem k' Task_fields = false)) ->
  TaskStore_init
    (Some (JObject (map (fun kv => (fst kv, JObject (vars (snd kv)))) d
                    ++ (k, v) :: rest)))
  = (Raise TypeError,
     mk_world d
       (Some (JObject (map (fun kv => (fst kv, JObject (vars (snd kv)))) d
                       ++ (k, v) :: rest))) []).
Proof.
  intros Hall Hv.
  assert (Hd : is_dict d).
  { unfold is_dict in *. unfold dict_keys in Hall. rewrite map_app in Hall.
    apply NoDup_app_remove_r in Hall. now rewrite <- snapshot_keys. }
  unfold TaskStore_init, TaskStore_load. unfold bind at 1.
  unfold gets. cbn [disk]. rewrite dict_of_pairs_dict by exact Hall.
  rewrite load_items_app. unfold bind at 1.
  rewrite load_items_snapshot by exact Hd. cbn [app load_items].
  destruct v; try reflexivity.
  unfold bind, lift. now rewrite (bad_members o (Hv o eq_refl)).
Qed.

Lemma load_stops_at_bad_record_witness :
  TaskStore_init
    (Some (JObject (map (fun kv => (fst kv, JObject (vars (snd kv))))
                      (tasks demo_world)
                    ++ [("dd", JObject [("id", JString "dd")]);
                        ("ee", JObject (vars (demo_task "ee" 5)))])))
  = (Raise TypeError,
     mk_world (tasks demo_world)
       (Some (JObject (map (fun kv => (fst kv, JObject (vars (snd kv))))
                         (tasks demo_world)
                       ++ [("dd", JObject [("id", JString "dd")]);
                           ("ee", JObject (vars (demo_task "ee" 5)))])))
       []).
Proof.
  apply (load_stops_at_bad_record (tasks demo_world) "dd"
           (JObject [("id", JString "dd")])
           [("ee", JObject (vars (demo_task "ee" 5)))]).
  - unfold is_dict. cbn. repeat constructor; cbn; intuition discriminate.
  - intros kw E. injection E as <-. left. exists "guild_id".
    split; [cbn; auto | reflexivity].
Defined.
